(** * Observability payloads and reporting (saleor/webhook/observability)

    A shallow embedding of [payloads.py] and [utils.py]:
    - Python [str] values are sequences of code points ([pystr]);
    - Python [int] values are [Z];
    - dictionaries that are serialised keep their insertion order
      (association lists), the process-local gate cache is a [gmap];
    - exceptions are results in a small error monad;
    - module-level and context-local state is threaded explicitly through a
      [World] record. *)

From Stdlib Require Import ZArith NArith List String Ascii Bool Lia DecimalString.
From stdpp Require Import base gmap strings list fin_maps.
Import ListNotations.

Local Open Scope Z_scope.

(** ** Python strings *)

Module Py.

(** A character is its code point ([ord]). *)
Definition pychar := N.
Definition pystr := list pychar.

(** [len(s)] *)
Definition len {A} (s : list A) : Z := Z.of_nat (length s).

(** A literal of ASCII characters. *)
Definition str (s : string) : pystr :=
  map N_of_ascii (list_ascii_of_string s).

(** [s[:k]]: a negative bound counts from the end. *)
Definition slice_to {A} (s : list A) (k : Z) : list A :=
  if k <? 0 then firstn (Z.to_nat (len s + k)) s else firstn (Z.to_nat k) s.

(** [a or b] on strings: the empty string is falsy. *)
Definition str_or (a : option pystr) (b : pystr) : pystr :=
  match a with
  | Some (c :: s) => c :: s
  | _ => b
  end.

(** [str(n)] for an integer. *)
Definition str_of_int (z : Z) : pystr :=
  str (NilZero.string_of_int (Z.to_int z)).

(** [a == b] on strings *)
Fixpoint pystr_eqb (a b : pystr) : bool :=
  match a, b with
  | [], [] => true
  | x :: a', y :: b' => (x =? y)%N && pystr_eqb a' b'
  | _, _ => false
  end.

(** Number of bytes of one code point in UTF-8; a surrogate has none. *)
Definition utf8_char_len (c : pychar) : option Z :=
  (if c <? 128 then Some 1%Z
   else if c <? 2048 then Some 2%Z
   else if (55296 <=? c) && (c <=? 57343) then None
   else if c <? 65536 then Some 3%Z
   else Some 4%Z)%N.

End Py.
Export Py.

(** ** json.encoder: the ASCII escape table *)

Module JsonEncoder.

(** [ESCAPE_ASCII]: the pattern matches one character that is a backslash, a
    double quote, or lies outside the printable range from space to tilde. *)
Definition ESCAPE_ASCII (c : pychar) : bool :=
  ((c =? 92) || (c =? 34) || negb ((32 <=? c) && (c <=? 126)))%N.

Definition hexdigit (d : N) : pychar :=
  (if d <? 10 then 48 + d else 87 + d)%N.

(** ['{0:04x}'.format(n)] for [n < 0x10000]. *)
Definition hex4 (n : N) : pystr :=
  [hexdigit ((n / 4096) mod 16); hexdigit ((n / 256) mod 16);
   hexdigit ((n / 16) mod 16); hexdigit (n mod 16)]%N.

(** ['\\u{0:04x}'.format(n)] *)
Definition u_escape (n : N) : pystr := 92%N :: 117%N :: hex4 n.

(** [ESCAPE_DCT]: the seven short escapes, and [\u00XX] for every other
    control character below 0x20. *)
Definition ESCAPE_DCT (c : pychar) : option pystr :=
  if (c =? 92)%N then Some [92; 92]%N
  else if (c =? 34)%N then Some [92; 34]%N
  else if (c =? 8)%N then Some [92; 98]%N
  else if (c =? 12)%N then Some [92; 102]%N
  else if (c =? 10)%N then Some [92; 110]%N
  else if (c =? 13)%N then Some [92; 114]%N
  else if (c =? 9)%N then Some [92; 116]%N
  else if (c <? 32)%N then Some (u_escape c)
  else None.

(** The replacement function of [py_encode_basestring_ascii]. *)
Definition replace (c : pychar) : pystr :=
  match ESCAPE_DCT c with
  | Some r => r
  | None =>
      if (c <? 65536)%N then u_escape c
      else
        let n := (c - 65536)%N in
        let s1 := N.lor 55296 (N.land (N.shiftr n 10) 1023) in
        let s2 := N.lor 56320 (N.land n 1023) in
        u_escape s1 ++ u_escape s2
  end.

(** [ESCAPE_ASCII.sub(replace, s)] *)
Definition escape_sub (s : pystr) : pystr :=
  flat_map (fun c => if ESCAPE_ASCII c then replace c else [c]) s.

(** [py_encode_basestring_ascii(s)] *)
Definition encode_basestring_ascii (s : pystr) : pystr :=
  34%N :: escape_sub s ++ [34%N].

End JsonEncoder.
Export JsonEncoder.

(** ** JsonTruncText *)

Record JsonTruncText := mkJsonTruncText {
  text : pystr;
  truncated : bool;
  _added_bytes : Z
}.

(** [JsonTruncText.__init__] *)
Definition JsonTruncText_init (text : pystr) (truncated : bool)
    (added_bytes : Z) : JsonTruncText :=
  mkJsonTruncText text truncated (Z.max 0 added_bytes).

(** [JsonTruncText.__eq__] compares [(text, truncated)] only. *)
Definition JsonTruncText_eq (a b : JsonTruncText) : bool :=
  pystr_eqb (text a) (text b) && Bool.eqb (truncated a) (truncated b).

(** [JsonTruncText.byte_size] *)
Definition byte_size (t : JsonTruncText) : Z := len (text t) + _added_bytes t.

(** [JsonTruncText.json_char_len] *)
Definition json_char_len (char : pychar) : Z :=
  match ESCAPE_DCT char with
  | Some r => len r
  | None => if (char <? 65536)%N then 6 else 12
  end.

(** One match object of [ESCAPE_ASCII.finditer]: [span(0)] and [group(0)]. *)
Record ReMatch := mkMatch { m_start : Z; m_end : Z; m_group : pychar }.

(** The matches of [ESCAPE_ASCII.finditer] on a string whose first character
    sits at index [pos]. *)
Fixpoint finditer_from (pos : Z) (s : pystr) : list ReMatch :=
  match s with
  | [] => []
  | c :: s' =>
      if ESCAPE_ASCII c
      then mkMatch pos (pos + 1) c :: finditer_from (pos + 1) s'
      else finditer_from (pos + 1) s'
  end.

Definition finditer (s : pystr) : list ReMatch := finditer_from 0 s.

(** The [for match in ...] loop of [truncate]; falling out of the loop is the
    final [return]. *)
Fixpoint truncate_loop (ms : list ReMatch) (s : pystr)
    (s_init_len limit added_bytes : Z) : JsonTruncText :=
  match ms with
  | [] => JsonTruncText_init s (len s <? s_init_len) added_bytes
  | m :: ms' =>
      let markup := json_char_len (m_group m) - 1 in
      let added_bytes := added_bytes + markup in
      if m_end m + added_bytes >? limit then
        JsonTruncText_init (slice_to s (m_start m)) true (added_bytes - markup)
      else if m_end m + added_bytes =? limit then
        let s := slice_to s (m_end m) in
        JsonTruncText_init s (len s <? s_init_len) added_bytes
      else truncate_loop ms' s s_init_len limit added_bytes
  end.

(** [JsonTruncText.truncate] *)
Definition truncate (s : pystr) (limit : Z) : JsonTruncText :=
  let limit := Z.max limit 0 in
  let s_init_len := len s in
  let s := slice_to s limit in
  truncate_loop (finditer s) s s_init_len limit 0.

(** ** Exceptions *)

Inductive message :=
| NoMessage
| PayloadTooBig (bytes_limit : Z)
| NotAssignedToDelivery (attempt_id : Z)
| NoPayloadOrWebhook (delivery_id : Z)
| InvalidLiteral (s : pystr).

(** The exception classes the two modules raise or meet.  [JSONDecodeError]
    is a subclass of [ValueError]. *)
Inductive exn :=
| ValueError (msg : message)
| JSONDecodeError
| UnicodeEncodeError
| AttributeError
| ConnectionError.

Definition is_ValueError (e : exn) : bool :=
  match e with
  | ValueError _ | JSONDecodeError => true
  | _ => false
  end.

Inductive res (A : Type) :=
| Ok (a : A)
| Raise (e : exn).
Arguments Ok {A} a.
Arguments Raise {A} e.

Definition bind {A B} (m : res A) (k : A -> res B) : res B :=
  match m with
  | Ok a => k a
  | Raise e => Raise e
  end.

Notation "x <- m ;; k" := (bind m (fun x => k))
  (at level 100, m at next level, right associativity).

Definition raised {A} (m : res A) : bool :=
  match m with
  | Ok _ => false
  | Raise _ => true
  end.

(** ** JSON values and [json.dumps] *)

(** The values the payloads hold.  A float is kept as the token that
    [float.__repr__] renders; a datetime as the ISO string that
    [DjangoJSONEncoder.default] renders. *)
#[local] Set Warnings "-register-all".

Inductive json :=
| JNull
| JBool (b : bool)
| JInt (z : Z)
| JFloat (repr : pystr)
| JStr (s : pystr)
| JDatetime (iso : pystr)
| JTrunc (t : JsonTruncText)
| JList (l : list json)
| JDict (d : list (pystr * json)).

(** A dictionary keeps insertion order; assigning to a present key keeps its
    position. *)
Definition dict := list (pystr * json).

Fixpoint dict_get (d : dict) (k : pystr) : option json :=
  match d with
  | [] => None
  | (k', v) :: d' => if pystr_eqb k' k then Some v else dict_get d' k
  end.

Fixpoint dict_set (d : dict) (k : pystr) (v : json) : dict :=
  match d with
  | [] => [(k, v)]
  | (k', v') :: d' =>
      if pystr_eqb k' k then (k', v) :: d' else (k', v') :: dict_set d' k v
  end.

(** [j[k]] and [j[k] = v] on a dictionary value; the keys the code reads are
    the ones it has just written. *)
Definition get_item (j : json) (k : pystr) : json :=
  match j with
  | JDict d => default JNull (dict_get d k)
  | _ => JNull
  end.

Definition set_item (j : json) (k : pystr) (v : json) : json :=
  match j with
  | JDict d => JDict (dict_set d k v)
  | _ => j
  end.

(** [j[k1][k2]...[kn] = v] *)
Fixpoint set_path (j : json) (path : list pystr) (v : json) : json :=
  match path with
  | [] => v
  | k :: path' => set_item j k (set_path (get_item j k) path' v)
  end.

(** A mapping from header names to header values as a dictionary. *)
Definition headers_dict (h : list (pystr * pystr)) : json :=
  JDict (fold_left (fun d kv => dict_set d (fst kv) (JStr (snd kv))) h []).

Fixpoint headers_get (h : list (pystr * pystr)) (k : pystr) : option pystr :=
  match h with
  | [] => None
  | (k', v) :: h' => if pystr_eqb k' k then Some v else headers_get h' k
  end.

Definition json_of_option {A} (f : A -> json) (o : option A) : json :=
  match o with
  | Some a => f a
  | None => JNull
  end.

(** Truthiness of a value ([if operation.result:]).  A float is kept as its
    [repr], and the two zeros print as [0.0] and [-0.0]. *)
Definition truthy (j : json) : bool :=
  match j with
  | JNull => false
  | JBool b => b
  | JInt z => negb (z =? 0)
  | JFloat r => negb (pystr_eqb r (str "0.0") || pystr_eqb r (str "-0.0"))
  | JStr [] => false
  | JList [] => false
  | JDict [] => false
  | _ => true
  end.

(** Newline and indentation of the pretty printer. *)
Definition newline_indent (indent : option nat) (level : nat) : pystr :=
  match indent with
  | None => []
  | Some n => 10%N :: repeat 32%N (n * level)
  end.

Definition item_separator (indent : option nat) (level : nat) : pystr :=
  match indent with
  | None => str ", "
  | Some _ => 44%N :: newline_indent indent level
  end.

(** [json.dumps(obj, indent=indent, ensure_ascii=True, cls=CustomJsonEncoder)]
    with the encoder at nesting depth [level].  [CustomJsonEncoder.default]
    turns a [JsonTruncText] into the dictionary of its [text] and
    [truncated]. *)
Fixpoint encode (indent : option nat) (level : nat) (j : json) {struct j} : pystr :=
  match j with
  | JNull => str "null"
  | JBool true => str "true"
  | JBool false => str "false"
  | JInt z => str_of_int z
  | JFloat r => r
  | JStr s => encode_basestring_ascii s
  | JDatetime iso => encode_basestring_ascii iso
  | JTrunc t =>
      str "{" ++ newline_indent indent (S level)
      ++ encode_basestring_ascii (str "text") ++ str ": "
      ++ encode_basestring_ascii (text t)
      ++ item_separator indent (S level)
      ++ encode_basestring_ascii (str "truncated") ++ str ": "
      ++ (if truncated t then str "true" else str "false")
      ++ newline_indent indent level ++ str "}"
  | JList l =>
      match l with
      | [] => str "[]"
      | _ =>
          str "[" ++ newline_indent indent (S level)
          ++ (fix items (l : list json) : pystr :=
                match l with
                | [] => []
                | x :: l' =>
                    encode indent (S level) x
                    ++ match l' with
                       | [] => []
                       | _ => item_separator indent (S level) ++ items l'
                       end
                end) l
          ++ newline_indent indent level ++ str "]"
      end
  | JDict d =>
      match d with
      | [] => str "{}"
      | _ =>
          str "{" ++ newline_indent indent (S level)
          ++ (fix items (d : list (pystr * json)) : pystr :=
                match d with
                | [] => []
                | (k, v) :: d' =>
                    encode_basestring_ascii k ++ str ": "
                    ++ encode indent (S level) v
                    ++ match d' with
                       | [] => []
                       | _ => item_separator indent (S level) ++ items d'
                       end
                end) d
          ++ newline_indent indent level ++ str "}"
      end
  end.

(** [_json_serialize] *)
Definition _json_serialize (obj : json) (pretty : bool) : pystr :=
  if pretty then encode (Some 2%nat) 0 obj else encode None 0 obj.

Definition TRUNC_PLACEHOLDER : JsonTruncText := JsonTruncText_init [] false 0.
Definition EMPTY_TRUNC : JsonTruncText := JsonTruncText_init [] true 0.

Definition GQL_OPERATION_PLACEHOLDER : json :=
  JDict [ (str "name", JTrunc TRUNC_PLACEHOLDER);
          (str "operation_type", JStr (str "subscription"));
          (str "query", JTrunc TRUNC_PLACEHOLDER);
          (str "result", JTrunc TRUNC_PLACEHOLDER);
          (str "result_invalid", JBool false) ].

Definition GQL_OPERATION_PLACEHOLDER_SIZE : Z :=
  Eval vm_compute in len (_json_serialize GQL_OPERATION_PLACEHOLDER false).

(** ** External collaborators *)

(** A parsed GraphQL document, as far as [get_operation_ast] looks at it. *)
Module Ast.
Record OperationDefinition := mkOperationDefinition {
  operation : pystr;
  name : option pystr
}.
End Ast.

Record GraphQLDocument := mkGraphQLDocument {
  document_string : pystr;
  document_ast : list Ast.OperationDefinition
}.

(** [utils.GraphQLOperationResponse] *)
Record GraphQLOperationResponse := mkGraphQLOperationResponse {
  name : option pystr;
  query : option GraphQLDocument;
  variables : option json;
  result : option json;
  result_invalid : bool
}.

(** The Django objects, as far as the two modules read them. *)
Module App.
Record t := mk { id : Z; name : pystr }.
End App.

Module HttpRequest.
Record t := mk {
  method : option pystr;
  (** [build_absolute_uri(get_full_path())] *)
  absolute_uri : pystr;
  (** the [request_time] attribute, when set, as its [timestamp()] *)
  request_time : option pystr;
  headers : list (pystr * pystr);
  app : option App.t
}.
End HttpRequest.

Module HttpResponse.
Record t := mk {
  headers : list (pystr * pystr);
  status_code : Z;
  content : list N
}.
End HttpResponse.

Module EventPayload.
Record t := mk { payload : pystr }.
End EventPayload.

Module Webhook.
Record t := mk {
  pk : Z;
  name : option pystr;
  target_url : pystr;
  secret_key : option pystr;
  subscription_query : option pystr;
  app : App.t
}.
End Webhook.

Module EventDelivery.
Record t := mk {
  pk : Z;
  status : pystr;
  event_type : pystr;
  payload : option EventPayload.t;
  webhook : option Webhook.t
}.
End EventDelivery.

(** [id] and [pk] of a model instance are the same value. *)
Module EventDeliveryAttempt.
Record t := mk {
  pk : Z;
  delivery : option EventDelivery.t;
  response : option pystr;
  created_at : pystr;
  duration : option pystr;
  status : pystr;
  request_headers : option pystr;
  response_headers : option pystr;
  response_status_code : option Z
}.
End EventDeliveryAttempt.

(** What the builders read from their surroundings: [uuid.uuid4()] and
    [timezone.now().timestamp()]. *)
Record Ambient := mkAmbient {
  uuid4 : pystr;
  timezone_now : pystr
}.

(** Functions of other modules and libraries that the payload builders call.
    They are taken as given: redaction ([obfuscation.py] with
    [SENSITIVE_GQL_FIELDS]), header masking, global identifiers (graphene),
    operation lookup (graphql-core), [json.loads], [int] on a string, and
    membership in [WebhookEventSyncType.ALL]. *)
Class Collaborators := {
  get_operation_ast :
    list Ast.OperationDefinition -> option pystr -> option Ast.OperationDefinition;
  anonymize_gql_operation_response : GraphQLOperationResponse -> GraphQLOperationResponse;
  hide_sensitive_headers : list (pystr * pystr) -> list (pystr * pystr);
  anonymize_event_payload : option pystr -> pystr -> json -> json;
  to_global_id : pystr -> Z -> pystr;
  json_loads : pystr -> res json;
  int_of_str : pystr -> res Z;
  is_sync_event : pystr -> bool
}.

(** ** graphene.utils.str_converters.to_camel_case

    Case mapping is modelled on ASCII letters, which is what the keys of the
    payloads are made of. *)

(** [s.split(sep)] for a one-character separator. *)
Fixpoint split_on (sep : pychar) (s : pystr) : list pystr :=
  match s with
  | [] => [[]]
  | c :: s' =>
      if (c =? sep)%N then [] :: split_on sep s'
      else match split_on sep s' with
           | [] => [[c]]
           | w :: ws => (c :: w) :: ws
           end
  end.

Definition ascii_upper (c : pychar) : pychar :=
  (if (97 <=? c) && (c <=? 122) then c - 32 else c)%N.

Definition ascii_lower (c : pychar) : pychar :=
  (if (65 <=? c) && (c <=? 90) then c + 32 else c)%N.

(** [x.capitalize()] *)
Definition capitalize (x : pystr) : pystr :=
  match x with
  | [] => []
  | c :: x' => ascii_upper c :: map ascii_lower x'
  end.

Definition to_camel_case (snake_str : pystr) : pystr :=
  match split_on 95%N snake_str with
  | [] => []
  | first :: components =>
      first ++ flat_map (fun x => match x with
                                  | [] => [95%N]
                                  | _ => capitalize x
                                  end) components
  end.

(** [payload_to_camel_case]: only dictionaries have [items]; a list is
    mapped item by item, so each item has to be a dictionary as well. *)
Fixpoint payload_to_camel_case (d : json) {struct d} : res json :=
  match d with
  | JDict items =>
      data <- (fix loop (items : list (pystr * json)) (data : dict) {struct items}
                 : res dict :=
                 match items with
                 | [] => Ok data
                 | (k, v) :: rest =>
                     v' <- match v with
                           | JDict _ => payload_to_camel_case v
                           | JList l =>
                               l' <- (fix each (l : list json) : res (list json) :=
                                        match l with
                                        | [] => Ok []
                                        | i :: l' =>
                                            i' <- payload_to_camel_case i ;;
                                            r <- each l' ;;
                                            Ok (i' :: r)
                                        end) l ;;
                               Ok (JList l')
                           | _ => Ok v
                           end ;;
                     loop rest (dict_set data (to_camel_case k) v')
                 end) items [] ;;
      Ok (JDict data)
  | _ => Raise AttributeError
  end.

(** The three loops of [payload_to_camel_case] on their own: the
    comprehension over a list, the treatment of one value, and the loop over
    the items of a dictionary. *)
Fixpoint camel_each (l : list json) : res (list json) :=
  match l with
  | [] => Ok []
  | i :: l' =>
      i' <- payload_to_camel_case i ;;
      r <- camel_each l' ;;
      Ok (i' :: r)
  end.

Definition camel_value (v : json) : res json :=
  match v with
  | JDict _ => payload_to_camel_case v
  | JList l => l' <- camel_each l ;; Ok (JList l')
  | _ => Ok v
  end.

Fixpoint camel_items (items : list (pystr * json)) (data : dict) : res dict :=
  match items with
  | [] => Ok data
  | (k, v) :: rest =>
      v' <- camel_value v ;;
      camel_items rest (dict_set data (to_camel_case k) v')
  end.

(** A value that is neither a list nor a dictionary, and a dictionary of such
    values. *)
Definition is_leaf (j : json) : bool :=
  match j with
  | JList _ | JDict _ => false
  | _ => true
  end.

Definition flat_dict (j : json) : Prop :=
  exists d, j = JDict d /\ Forall (fun kv => is_leaf (snd kv) = true) d.

(** ** GraphQL operations under a byte budget *)

Section Payloads.
Context {C : Collaborators}.

(** [serialize_gql_operation_result] *)
Definition serialize_gql_operation_result
    (operation : GraphQLOperationResponse) (bytes_limit : Z) : res (json * Z) :=
  let bytes_limit := bytes_limit - GQL_OPERATION_PLACEHOLDER_SIZE in
  if bytes_limit <? 0 then Raise (ValueError NoMessage)
  else
    let operation := anonymize_gql_operation_response operation in
    let payload :=
      JDict [ (str "name", JNull);
              (str "operation_type", JNull);
              (str "query", JNull);
              (str "result", JNull);
              (str "result_invalid", JBool (result_invalid operation)) ] in
    let '(payload, bytes_limit) :=
      match name operation with
      | Some (c :: n) =>
          let t := truncate (c :: n) (bytes_limit / 3) in
          (set_item payload (str "name") (JTrunc t), bytes_limit - byte_size t)
      | _ => (payload, bytes_limit)
      end in
    let '(payload, bytes_limit) :=
      match query operation with
      | Some q =>
          let t := truncate (document_string q) (bytes_limit / 2) in
          let payload := set_item payload (str "query") (JTrunc t) in
          let bytes_limit := bytes_limit - byte_size t in
          match get_operation_ast (document_ast q) (name operation) with
          | Some definition =>
              (set_item payload (str "operation_type") (JStr (Ast.operation definition)),
               bytes_limit)
          | None => (payload, bytes_limit)
          end
      | None => (payload, bytes_limit)
      end in
    let '(payload, bytes_limit) :=
      match result operation with
      | Some r =>
          if truthy r then
            let t := truncate (_json_serialize r true) bytes_limit in
            (set_item payload (str "result") (JTrunc t), bytes_limit - byte_size t)
          else (payload, bytes_limit)
      | None => (payload, bytes_limit)
      end in
    Ok (payload, Z.max 0 bytes_limit).

(** The [for i, operation in enumerate(operations)] loop of
    [serialize_gql_operation_results]; [count] is [len(operations)]. *)
Fixpoint serialize_gql_operation_results_loop (count i : Z)
    (operations : list GraphQLOperationResponse) (bytes_limit : Z)
    (payloads : list json) : res (list json) :=
  match operations with
  | [] => Ok payloads
  | operation :: rest =>
      let payload_limit := bytes_limit / (count - i) in
      r <- serialize_gql_operation_result operation payload_limit ;;
      let '(payload, left_bytes) := r in
      serialize_gql_operation_results_loop count (i + 1) rest
        (bytes_limit - (payload_limit - left_bytes)) (payloads ++ [payload])
  end.

(** [serialize_gql_operation_results] *)
Definition serialize_gql_operation_results
    (operations : list GraphQLOperationResponse) (bytes_limit : Z)
    : res (list json) :=
  if bytes_limit - len operations * GQL_OPERATION_PLACEHOLDER_SIZE <? 0
  then Raise (ValueError NoMessage)
  else serialize_gql_operation_results_loop (len operations) 0 operations
         bytes_limit [].

(** ** The two payload builders

    [traced_payload_generator] wraps a builder in a tracing span and passes
    its arguments and result through. *)

(** The [payload = ApiCallPayload(...)] value of [generate_api_call_payload],
    with [app] filled in when the request carries one. *)
Definition api_call_payload (amb : Ambient) (request : HttpRequest.t)
    (response : HttpResponse.t) (gql_operations : list GraphQLOperationResponse)
    : res json :=
  content_length <-
    match headers_get (HttpRequest.headers request) (str "Content-Length") with
    | Some (c :: v) => int_of_str (c :: v)
    | _ => Ok 0
    end ;;
  let payload :=
    JDict [
      (str "event_type", JStr (str "observability_api_call"));
      (str "request", JDict [
         (str "id", JStr (uuid4 amb));
         (str "method", JStr (str_or (HttpRequest.method request) []));
         (str "url", JStr (HttpRequest.absolute_uri request));
         (str "time", JFloat (default (timezone_now amb)
                                (HttpRequest.request_time request)));
         (str "headers",
            headers_dict (hide_sensitive_headers (HttpRequest.headers request)));
         (str "content_length", JInt content_length) ]);
      (str "response", JDict [
         (str "headers",
            headers_dict (hide_sensitive_headers (HttpResponse.headers response)));
         (str "status_code", JInt (HttpResponse.status_code response));
         (str "content_length", JInt (len (HttpResponse.content response))) ]);
      (str "app", JNull);
      (str "gql_operations", JDict [
         (str "count", JInt (len gql_operations));
         (str "operations", JList []) ]) ] in
  match HttpRequest.app request with
  | Some app =>
      Ok (set_item payload (str "app")
            (JDict [ (str "id", JStr (to_global_id (str "App") (App.id app)));
                     (str "name", JStr (App.name app)) ]))
  | None => Ok payload
  end.

(** [generate_api_call_payload] up to its last call: the value handed to the
    final [_json_serialize]. *)
Definition generate_api_call_document (amb : Ambient) (request : HttpRequest.t)
    (response : HttpResponse.t) (gql_operations : list GraphQLOperationResponse)
    (bytes_limit : Z) : res json :=
  payload <- api_call_payload amb request response gql_operations ;;
  let initial_dump := _json_serialize payload false in
  let remaining_bytes := bytes_limit - len initial_dump in
  if remaining_bytes <? 0 then Raise (ValueError (PayloadTooBig bytes_limit))
  else
    payload <-
      match serialize_gql_operation_results gql_operations remaining_bytes with
      | Ok operations =>
          Ok (set_path payload [str "gql_operations"; str "operations"]
                (JList operations))
      | Raise e => if is_ValueError e then Ok payload else Raise e
      end ;;
    payload_to_camel_case payload.

(** [generate_api_call_payload] *)
Definition generate_api_call_payload (amb : Ambient) (request : HttpRequest.t)
    (response : HttpResponse.t) (gql_operations : list GraphQLOperationResponse)
    (bytes_limit : Z) : res pystr :=
  document <- generate_api_call_document amb request response gql_operations
                bytes_limit ;;
  Ok (_json_serialize document false).

(** [len(s.encode(utf-8))] *)
Fixpoint utf8_len (s : pystr) : res Z :=
  match s with
  | [] => Ok 0
  | c :: s' =>
      match utf8_char_len c with
      | Some n => r <- utf8_len s' ;; Ok (n + r)
      | None => Raise UnicodeEncodeError
      end
  end.

(** The [data = EventDeliveryAttemptPayload(...)] value of
    [generate_event_delivery_attempt_payload], for an attempt whose delivery,
    payload and webhook are set. *)
Definition event_delivery_attempt_data (attempt : EventDeliveryAttempt.t)
    (delivery : EventDelivery.t) (payload : EventPayload.t)
    (webhook : Webhook.t) (next_retry : option pystr) : res json :=
  let response_body := str_or (EventDeliveryAttempt.response attempt) [] in
  request_headers <-
    json_loads (str_or (EventDeliveryAttempt.request_headers attempt) (str "{}")) ;;
  response_headers <-
    json_loads (str_or (EventDeliveryAttempt.response_headers attempt) (str "{}")) ;;
  content_length <- utf8_len response_body ;;
  Ok (JDict [
    (str "event_type", JStr (str "observability_event_delivery_attempt"));
    (str "event_delivery_attempt", JDict [
       (str "id", JStr (to_global_id (str "EventDeliveryAttempt")
                          (EventDeliveryAttempt.pk attempt)));
       (str "time", JDatetime (EventDeliveryAttempt.created_at attempt));
       (str "duration", json_of_option JFloat (EventDeliveryAttempt.duration attempt));
       (str "status", JStr (EventDeliveryAttempt.status attempt));
       (str "next_retry", json_of_option JDatetime next_retry) ]);
    (str "request", JDict [ (str "headers", request_headers) ]);
    (str "response", JDict [
       (str "headers", response_headers);
       (str "content_length", JInt content_length);
       (str "body", JTrunc TRUNC_PLACEHOLDER);
       (str "status_code",
          json_of_option JInt (EventDeliveryAttempt.response_status_code attempt)) ]);
    (str "event_delivery", JDict [
       (str "id", JStr (to_global_id (str "EventDelivery") (EventDelivery.pk delivery)));
       (str "status", JStr (EventDelivery.status delivery));
       (str "event_type", JStr (EventDelivery.event_type delivery));
       (str "event_sync", JBool (is_sync_event (EventDelivery.event_type delivery)));
       (str "payload", JDict [
          (str "content_length", JInt (len (EventPayload.payload payload)));
          (str "body", JTrunc TRUNC_PLACEHOLDER) ]) ]);
    (str "webhook", JDict [
       (str "id", JStr (to_global_id (str "Webhook") (Webhook.pk webhook)));
       (str "name", JStr (str_or (Webhook.name webhook) []));
       (str "target_url", JStr (Webhook.target_url webhook));
       (str "subscription_query", JTrunc TRUNC_PLACEHOLDER) ]);
    (str "app", JDict [
       (str "id", JStr (to_global_id (str "App") (App.id (Webhook.app webhook))));
       (str "name", JStr (App.name (Webhook.app webhook))) ]) ]).

(** [generate_event_delivery_attempt_payload] up to its last call. *)
Definition generate_event_delivery_attempt_document
    (attempt : EventDeliveryAttempt.t) (next_retry : option pystr)
    (bytes_limit : Z) : res json :=
  match EventDeliveryAttempt.delivery attempt with
  | None =>
      Raise (ValueError (NotAssignedToDelivery (EventDeliveryAttempt.pk attempt)))
  | Some delivery =>
      match EventDelivery.payload delivery, EventDelivery.webhook delivery with
      | Some payload, Some webhook =>
          let response_body := str_or (EventDeliveryAttempt.response attempt) [] in
          data <- event_delivery_attempt_data attempt delivery payload webhook
                    next_retry ;;
          let initial_dump := _json_serialize data false in
          let remaining_bytes := bytes_limit - len initial_dump in
          if remaining_bytes <? 0
          then Raise (ValueError (PayloadTooBig bytes_limit))
          else
            let trunc_resp_body := truncate response_body (remaining_bytes / 3) in
            let remaining_bytes := remaining_bytes - byte_size trunc_resp_body in
            let data :=
              set_path data [str "response"; str "body"] (JTrunc trunc_resp_body) in
            let subscription_query := Webhook.subscription_query webhook in
            let data :=
              set_path data [str "webhook"; str "subscription_query"] JNull in
            let '(data, remaining_bytes) :=
              match subscription_query with
              | Some (c :: q) =>
                  let trunc_subscription_query :=
                    truncate (c :: q) (remaining_bytes / 2) in
                  (set_path data [str "webhook"; str "subscription_query"]
                     (JTrunc trunc_subscription_query),
                   remaining_bytes - byte_size trunc_subscription_query)
              | _ => (data, remaining_bytes)
              end in
            loaded <- json_loads (EventPayload.payload payload) ;;
            let payload :=
              anonymize_event_payload subscription_query
                (EventDelivery.event_type delivery) loaded in
            let trunc_payload :=
              truncate (_json_serialize payload true) remaining_bytes in
            let data :=
              set_path data [str "event_delivery"; str "payload"; str "body"]
                (JTrunc trunc_payload) in
            payload_to_camel_case data
      | _, _ =>
          Raise (ValueError (NoPayloadOrWebhook (EventDelivery.pk delivery)))
      end
  end.

(** [generate_event_delivery_attempt_payload] *)
Definition generate_event_delivery_attempt_payload
    (attempt : EventDeliveryAttempt.t) (next_retry : option pystr)
    (bytes_limit : Z) : res pystr :=
  document <- generate_event_delivery_attempt_document attempt next_retry
                bytes_limit ;;
  Ok (_json_serialize document false).

End Payloads.

(** ** utils.py: settings, caches, the buffer and the context *)

Record Settings := mkSettings {
  OBSERVABILITY_ACTIVE : bool;
  OBSERVABILITY_REPORT_ALL_API_CALLS : bool;
  OBSERVABILITY_MAX_PAYLOAD_SIZE : Z
}.

Module WebhookData.
Record t := mk {
  id : Z;
  saleor_domain : pystr;
  target_url : pystr;
  secret_key : option pystr
}.
End WebhookData.

(** [ApiCall]; the operations are references to the objects that the
    operation scopes yielded. *)
Module ApiCall.
Record t := mk {
  gql_operations : list nat;
  response : option HttpResponse.t;
  _reported : bool;
  request : HttpRequest.t
}.
(** [ApiCall.__init__] *)
Definition init (request : HttpRequest.t) : t := mk [] None false request.
End ApiCall.

(** [parse(2 minutes)], in seconds.  Clock readings are taken on the grid of
    whole seconds. *)
Definition CACHE_TIMEOUT : Z := 120.
Definition BUFFER_KEY : string := "observability_buffer".
Definition WEBHOOKS_KEY : string := "observability_webhooks".

Inductive LogRecord :=
| EventDropped (e : exn)
| HttpResponseNotProvided
| NotAssignedToDeliveryDropped (attempt : Z).

(** What a run leaves behind, newest first: log records, calls of
    [ApiCall.report], answers of the gate, calls of a payload builder, pushes
    to the buffer, scope entries and appended operations. *)
Inductive Event :=
| Logged (r : LogRecord)
| ReportCalled (self : nat)
| GateChecked (is_active : bool)
| PayloadGenerated (outcome : res pystr)
| BufferPut (payload : pystr)
| Yielded (api_call_scope : bool) (ref : nat) (root : bool)
| Appended (api_call operation : nat).

(** The state the module works on.
    - [cache_webhooks]: the entry of the shared Django cache under
      [WEBHOOKS_KEY], with the clock reading at which its timeout runs out
      ([None]: no entry);
    - [webhooks_for_event]: what [get_webhooks_for_event] finds for the
      observability event, [site_domain] the current site's domain;
    - [_active_webhooks_exists_cache]: the module-level dictionary;
    - [monotonic]: the reading of the monotonic clock; time passes at the
      same rate for the shared cache, whose timeouts are counted on it;
    - [buffer]: the events put to the buffer named [get_buffer_name()],
      [buffer_available] whether a put succeeds;
    - [api_calls], [operations], [next_ref]: the objects the scopes created;
    - [_context_api_call], [_context_gql_operation]: the attributes of the
      context-local [_context]. *)
Record World := mkWorld {
  settings : Settings;
  key_prefix : string;
  ambient : Ambient;
  webhooks_for_event : list Webhook.t;
  site_domain : pystr;
  monotonic : Z;
  buffer_available : bool;
  cache_webhooks : option (list WebhookData.t * Z);
  _active_webhooks_exists_cache : gmap string (bool * Z);
  buffer : list pystr;
  events : list Event;
  api_calls : gmap nat ApiCall.t;
  operations : gmap nat GraphQLOperationResponse;
  next_ref : nat;
  _context_api_call : option nat;
  _context_gql_operation : option nat
}.

Definition set_webhooks_for_event (v : list Webhook.t) (w : World) : World :=
  mkWorld (settings w) (key_prefix w) (ambient w) v (site_domain w)
    (monotonic w) (buffer_available w) (cache_webhooks w)
    (_active_webhooks_exists_cache w) (buffer w) (events w) (api_calls w)
    (operations w) (next_ref w) (_context_api_call w) (_context_gql_operation w).

Definition set_monotonic (v : Z) (w : World) : World :=
  mkWorld (settings w) (key_prefix w) (ambient w) (webhooks_for_event w)
    (site_domain w) v (buffer_available w) (cache_webhooks w)
    (_active_webhooks_exists_cache w) (buffer w) (events w) (api_calls w)
    (operations w) (next_ref w) (_context_api_call w) (_context_gql_operation w).

Definition set_cache_webhooks (v : option (list WebhookData.t * Z)) (w : World)
    : World :=
  mkWorld (settings w) (key_prefix w) (ambient w) (webhooks_for_event w)
    (site_domain w) (monotonic w) (buffer_available w) v
    (_active_webhooks_exists_cache w) (buffer w) (events w) (api_calls w)
    (operations w) (next_ref w) (_context_api_call w) (_context_gql_operation w).

Definition set_active_webhooks_exists_cache (v : gmap string (bool * Z))
    (w : World) : World :=
  mkWorld (settings w) (key_prefix w) (ambient w) (webhooks_for_event w)
    (site_domain w) (monotonic w) (buffer_available w) (cache_webhooks w)
    v (buffer w) (events w) (api_calls w)
    (operations w) (next_ref w) (_context_api_call w) (_context_gql_operation w).

Definition set_buffer (v : list pystr) (w : World) : World :=
  mkWorld (settings w) (key_prefix w) (ambient w) (webhooks_for_event w)
    (site_domain w) (monotonic w) (buffer_available w) (cache_webhooks w)
    (_active_webhooks_exists_cache w) v (events w) (api_calls w)
    (operations w) (next_ref w) (_context_api_call w) (_context_gql_operation w).

Definition emit (e : Event) (w : World) : World :=
  mkWorld (settings w) (key_prefix w) (ambient w) (webhooks_for_event w)
    (site_domain w) (monotonic w) (buffer_available w) (cache_webhooks w)
    (_active_webhooks_exists_cache w) (buffer w) (e :: events w) (api_calls w)
    (operations w) (next_ref w) (_context_api_call w) (_context_gql_operation w).

Definition set_api_calls (v : gmap nat ApiCall.t) (w : World) : World :=
  mkWorld (settings w) (key_prefix w) (ambient w) (webhooks_for_event w)
    (site_domain w) (monotonic w) (buffer_available w) (cache_webhooks w)
    (_active_webhooks_exists_cache w) (buffer w) (events w) v
    (operations w) (next_ref w) (_context_api_call w) (_context_gql_operation w).

Definition set_operations (v : gmap nat GraphQLOperationResponse) (w : World)
    : World :=
  mkWorld (settings w) (key_prefix w) (ambient w) (webhooks_for_event w)
    (site_domain w) (monotonic w) (buffer_available w) (cache_webhooks w)
    (_active_webhooks_exists_cache w) (buffer w) (events w) (api_calls w)
    v (next_ref w) (_context_api_call w) (_context_gql_operation w).

Definition set_next_ref (v : nat) (w : World) : World :=
  mkWorld (settings w) (key_prefix w) (ambient w) (webhooks_for_event w)
    (site_domain w) (monotonic w) (buffer_available w) (cache_webhooks w)
    (_active_webhooks_exists_cache w) (buffer w) (events w) (api_calls w)
    (operations w) v (_context_api_call w) (_context_gql_operation w).

Definition set_context_api_call (v : option nat) (w : World) : World :=
  mkWorld (settings w) (key_prefix w) (ambient w) (webhooks_for_event w)
    (site_domain w) (monotonic w) (buffer_available w) (cache_webhooks w)
    (_active_webhooks_exists_cache w) (buffer w) (events w) (api_calls w)
    (operations w) (next_ref w) v (_context_gql_operation w).

Definition set_context_gql_operation (v : option nat) (w : World) : World :=
  mkWorld (settings w) (key_prefix w) (ambient w) (webhooks_for_event w)
    (site_domain w) (monotonic w) (buffer_available w) (cache_webhooks w)
    (_active_webhooks_exists_cache w) (buffer w) (events w) (api_calls w)
    (operations w) (next_ref w) (_context_api_call w) v.

(** [logger.error] *)
Definition logger_error (r : LogRecord) (w : World) : World :=
  emit (Logged r) w.

(** [cache.make_key(BUFFER_KEY)], hence [get_buffer_name()] *)
Definition get_buffer_name (w : World) : string :=
  (key_prefix w ++ BUFFER_KEY)%string.

(** [cache.get(WEBHOOKS_KEY)]: the stored list, as long as the timeout it was
    stored with has not run out. *)
Definition cache_get (w : World) : option (list WebhookData.t) :=
  match cache_webhooks w with
  | Some (webhooks_data, expires) =>
      if monotonic w <? expires then Some webhooks_data else None
  | None => None
  end.

(** [cache.set(WEBHOOKS_KEY, webhooks_data, timeout=timeout)] *)
Definition cache_set (webhooks_data : list WebhookData.t) (timeout : Z)
    (w : World) : World :=
  set_cache_webhooks (Some (webhooks_data, monotonic w + timeout)) w.

(** [get_observability_webhooks]; the tracing span has no part in the
    result. *)
Definition get_observability_webhooks (w : World)
    : list WebhookData.t * World :=
  match cache_get w with
  | Some webhooks_data => (webhooks_data, w)
  | None =>
      let webhooks_data :=
        match webhooks_for_event w with
        | [] => []
        | webhooks =>
            let domain := site_domain w in
            map (fun webhook =>
                   WebhookData.mk (Webhook.pk webhook) domain
                     (Webhook.target_url webhook) (Webhook.secret_key webhook))
                webhooks
        end in
      (webhooks_data, cache_set webhooks_data CACHE_TIMEOUT w)
  end.

(** [active_webhooks_exists_clear_cache] *)
Definition active_webhooks_exists_clear_cache (w : World) : World :=
  set_active_webhooks_exists_cache ∅ w.

(** [o is None] *)
Definition is_None {A} (o : option A) : bool :=
  match o with
  | None => true
  | Some _ => false
  end.

(** [bool(l)] for a list *)
Definition list_truthy {A} (l : list A) : bool :=
  match l with
  | [] => false
  | _ => true
  end.

(** [active_webhooks_exists] *)
Definition active_webhooks_exists (timeout : Z) (w : World) : bool * World :=
  let key := get_buffer_name w in
  let refresh :=
    let '(webhooks, w) := get_observability_webhooks w in
    let is_active := list_truthy webhooks in
    (is_active,
     set_active_webhooks_exists_cache
       (<[key := (is_active, monotonic w)]> (_active_webhooks_exists_cache w)) w) in
  match _active_webhooks_exists_cache w !! key with
  | Some (is_active, check_time) =>
      if monotonic w - check_time <=? timeout then (is_active, w) else refresh
  | None => refresh
  end.

(** [put_to_buffer]: whatever the builder or the buffer raises is logged. *)
Definition put_to_buffer (generate_payload : unit -> res pystr) (w : World)
    : World :=
  let outcome := generate_payload tt in
  let w := emit (PayloadGenerated outcome) w in
  match outcome with
  | Ok payload =>
      if buffer_available w
      then emit (BufferPut payload) (set_buffer (buffer w ++ [payload]) w)
      else logger_error (EventDropped ConnectionError) w
  | Raise e => logger_error (EventDropped e) w
  end.

Section Reporting.
Context {C : Collaborators}.

(** The operations an [ApiCall] refers to. *)
Definition deref_operations (w : World) (refs : list nat)
    : list GraphQLOperationResponse :=
  omap (fun r => operations w !! r) refs.

(** [ApiCall.report]; [self] is the reference of the object. *)
Definition ApiCall_report (self : nat) (w : World) : World :=
  let w := emit (ReportCalled self) w in
  match api_calls w !! self with
  | None => w
  | Some api_call =>
      if ApiCall._reported api_call || negb (OBSERVABILITY_ACTIVE (settings w))
      then w
      else
        let only_app_api_call :=
          negb (OBSERVABILITY_REPORT_ALL_API_CALLS (settings w)) in
        if only_app_api_call
           && is_None (HttpRequest.app (ApiCall.request api_call))
        then w
        else
          match ApiCall.response api_call with
          | None => logger_error HttpResponseNotProvided w
          | Some response =>
              let w :=
                set_api_calls
                  (<[self := ApiCall.mk (ApiCall.gql_operations api_call)
                               (Some response) true (ApiCall.request api_call)]>
                     (api_calls w)) w in
              let '(is_active, w) := active_webhooks_exists CACHE_TIMEOUT w in
              let w := emit (GateChecked is_active) w in
              if is_active then
                put_to_buffer
                  (fun _ =>
                     generate_api_call_payload (ambient w)
                       (ApiCall.request api_call) response
                       (deref_operations w (ApiCall.gql_operations api_call))
                       (OBSERVABILITY_MAX_PAYLOAD_SIZE (settings w)))
                  w
              else w
          end
  end.

(** [report_event_delivery_attempt] *)
Definition report_event_delivery_attempt (attempt : EventDeliveryAttempt.t)
    (next_retry : option pystr) (w : World) : World :=
  if negb (OBSERVABILITY_ACTIVE (settings w)) then w
  else
    let w :=
      match EventDeliveryAttempt.delivery attempt with
      | None =>
          logger_error
            (NotAssignedToDeliveryDropped (EventDeliveryAttempt.pk attempt)) w
      | Some _ => w
      end in
    let '(is_active, w) := active_webhooks_exists CACHE_TIMEOUT w in
    let w := emit (GateChecked is_active) w in
    if is_active then
      put_to_buffer
        (fun _ =>
           generate_event_delivery_attempt_payload attempt next_retry
             (OBSERVABILITY_MAX_PAYLOAD_SIZE (settings w)))
        w
    else w.

(** *** The two scopes

    A context manager is its code up to the [yield] (enter) and the code
    after it (exit); [root] is the local variable that lives across the
    [yield]. *)

(** [report_api_call], up to the [yield] *)
Definition report_api_call_enter (request : HttpRequest.t) (w : World)
    : (nat * bool) * World :=
  let '(root, w) :=
    match _context_api_call w with
    | None =>
        let ref := next_ref w in
        (true,
         set_context_api_call (Some ref)
           (set_next_ref (S ref)
              (set_api_calls (<[ref := ApiCall.init request]> (api_calls w)) w)))
    | Some _ => (false, w)
    end in
  match _context_api_call w with
  | Some ref => ((ref, root), emit (Yielded true ref root) w)
  | None => ((0%nat, root), w)
  end.

(** [report_api_call], after the [yield] *)
Definition report_api_call_exit (root : bool) (w : World) : World :=
  if root then
    match _context_api_call w with
    | Some ref => set_context_api_call None (ApiCall_report ref w)
    | None => w
    end
  else w.

(** [GraphQLOperationResponse()] *)
Definition GraphQLOperationResponse_init : GraphQLOperationResponse :=
  mkGraphQLOperationResponse None None None None false.

(** [report_gql_operation], up to the [yield] *)
Definition report_gql_operation_enter (w : World) : (nat * bool) * World :=
  let '(root, w) :=
    match _context_gql_operation w with
    | None =>
        let ref := next_ref w in
        (true,
         set_context_gql_operation (Some ref)
           (set_next_ref (S ref)
              (set_operations
                 (<[ref := GraphQLOperationResponse_init]> (operations w)) w)))
    | Some _ => (false, w)
    end in
  match _context_gql_operation w with
  | Some ref => ((ref, root), emit (Yielded false ref root) w)
  | None => ((0%nat, root), w)
  end.

(** [api_call.gql_operations.append(operation)] *)
Definition append_operation (api_call operation : nat) (w : World) : World :=
  match api_calls w !! api_call with
  | Some a =>
      emit (Appended api_call operation)
        (set_api_calls
           (<[api_call := ApiCall.mk (ApiCall.gql_operations a ++ [operation])
                            (ApiCall.response a) (ApiCall._reported a)
                            (ApiCall.request a)]> (api_calls w)) w)
  | None => w
  end.

(** [report_gql_operation], after the [yield] *)
Definition report_gql_operation_exit (root : bool) (w : World) : World :=
  if root then
    match _context_gql_operation w with
    | Some operation =>
        let w :=
          match _context_api_call w with
          | Some api_call => append_operation api_call operation w
          | None => w
          end in
        set_context_gql_operation None w
    | None => w
    end
  else w.

(** [api_call.response = response] on the accumulator of the scope the
    statement runs in. *)
Definition attach_response (response : HttpResponse.t) (w : World) : World :=
  match _context_api_call w with
  | Some ref =>
      match api_calls w !! ref with
      | Some a =>
          set_api_calls
            (<[ref := ApiCall.mk (ApiCall.gql_operations a) (Some response)
                        (ApiCall._reported a) (ApiCall.request a)]>
               (api_calls w)) w
      | None => w
      end
  | None => w
  end.

(** An assignment to attributes of the operation the scope yielded. *)
Definition update_operation
    (f : GraphQLOperationResponse -> GraphQLOperationResponse) (w : World)
    : World :=
  match _context_gql_operation w with
  | Some ref =>
      match operations w !! ref with
      | Some o => set_operations (<[ref := f o]> (operations w)) w
      | None => w
      end
  | None => w
  end.

(** Code that runs under the scopes: [with report_api_call(request):] and
    [with report_gql_operation():] blocks, arbitrarily nested, the
    assignments instrumented code makes to what a scope yields, a statement
    that raises, and [try: body except Exception: handler]. *)
Inductive stmt :=
| with_report_api_call (request : HttpRequest.t) (body : list stmt)
| with_report_gql_operation (body : list stmt)
| assign_response (response : HttpResponse.t)
| assign_operation (f : GraphQLOperationResponse -> GraphQLOperationResponse)
| raise_ (e : exn)
| try_except (body handler : list stmt).

(** Running a statement gives the state it leaves and the exception that
    left it, if one did.  Both scopes are generators under [@contextmanager]:
    an exception that leaves the body is thrown into the generator at its
    [yield]; neither generator catches it, so the code after the [yield] does
    not run and the exception goes on to the caller. *)
Fixpoint exec (s : stmt) (w : World) {struct s} : World * option exn :=
  match s with
  | with_report_api_call request body =>
      let '((_, root), w) := report_api_call_enter request w in
      match (fix block (body : list stmt) (w : World) : World * option exn :=
               match body with
               | [] => (w, None)
               | s :: body' =>
                   match exec s w with
                   | (w, None) => block body' w
                   | (w, Some e) => (w, Some e)
                   end
               end) body w with
      | (w, None) => (report_api_call_exit root w, None)
      | (w, Some e) => (w, Some e)
      end
  | with_report_gql_operation body =>
      let '((_, root), w) := report_gql_operation_enter w in
      match (fix block (body : list stmt) (w : World) : World * option exn :=
               match body with
               | [] => (w, None)
               | s :: body' =>
                   match exec s w with
                   | (w, None) => block body' w
                   | (w, Some e) => (w, Some e)
                   end
               end) body w with
      | (w, None) => (report_gql_operation_exit root w, None)
      | (w, Some e) => (w, Some e)
      end
  | assign_response response => (attach_response response w, None)
  | assign_operation f => (update_operation f w, None)
  | raise_ e => (w, Some e)
  | try_except body handler =>
      match (fix block (body : list stmt) (w : World) : World * option exn :=
               match body with
               | [] => (w, None)
               | s :: body' =>
                   match exec s w with
                   | (w, None) => block body' w
                   | (w, Some e) => (w, Some e)
                   end
               end) body w with
      | (w, None) => (w, None)
      | (w, Some _) =>
          (fix block (body : list stmt) (w : World) : World * option exn :=
             match body with
             | [] => (w, None)
             | s :: body' =>
                 match exec s w with
                 | (w, None) => block body' w
                 | (w, Some e) => (w, Some e)
                 end
             end) handler w
      end
  end.

(** A block of statements: the first exception ends it. *)
Fixpoint exec_block (body : list stmt) (w : World) : World * option exn :=
  match body with
  | [] => (w, None)
  | s :: body' =>
      match exec s w with
      | (w, None) => exec_block body' w
      | (w, Some e) => (w, Some e)
      end
  end.

(** [report_view]: the wrapped view method runs inside the scope and its
    response is attached before the scope is left; when the method raises,
    nothing is attached. *)
Definition report_view (request : HttpRequest.t) (method : list stmt)
    (response : HttpResponse.t) : stmt :=
  with_report_api_call request (method ++ [assign_response response]).

(** What happens to the module between two calls: a reported event, a
    request served, time passing, the shared cache losing its entry before
    its timeout, the registry of webhooks changing, the local gate cache
    being cleared.  An exception that leaves the code of a request is the
    caller's to handle: the module stays as the code left it. *)
Inductive action :=
| call_report (self : nat)
| call_report_event_delivery_attempt (attempt : EventDeliveryAttempt.t)
    (next_retry : option pystr)
| serve (s : stmt)
| tick (seconds : N)
| shared_cache_expires
| registry_becomes (webhooks : list Webhook.t)
| clear_gate_cache.

Definition step (a : action) (w : World) : World :=
  match a with
  | call_report self => ApiCall_report self w
  | call_report_event_delivery_attempt attempt next_retry =>
      report_event_delivery_attempt attempt next_retry w
  | serve s => fst (exec s w)
  | tick seconds => set_monotonic (monotonic w + Z.of_N seconds) w
  | shared_cache_expires => set_cache_webhooks None w
  | registry_becomes webhooks => set_webhooks_for_event webhooks w
  | clear_gate_cache => active_webhooks_exists_clear_cache w
  end.

Definition run (actions : list action) (w : World) : World :=
  fold_left (fun w a => step a w) actions w.

End Reporting.

(** Counting events of one kind. *)
Definition is_PayloadGenerated (e : Event) : bool :=
  match e with PayloadGenerated _ => true | _ => false end.
Definition is_BufferPut (e : Event) : bool :=
  match e with BufferPut _ => true | _ => false end.
Definition is_GateChecked (e : Event) : bool :=
  match e with GateChecked _ => true | _ => false end.
Definition is_ReportCalled (e : Event) : bool :=
  match e with ReportCalled _ => true | _ => false end.
Definition is_Appended (e : Event) : bool :=
  match e with Appended _ _ => true | _ => false end.

Definition count (p : Event -> bool) (w : World) : nat :=
  length (List.filter p (events w)).

(** ** Conditions on a state and on what happens to it *)

(** No endpoint is registered: the registry finds no webhook, and the shared
    cache misses or holds the empty list. *)
Definition endpoints_empty (w : World) : Prop :=
  webhooks_for_event w = [] /\
  (cache_get w = None \/ cache_get w = Some []).

(** The local gate cache holds no entry that is both fresh and active. *)
Definition no_fresh_active_entry (w : World) : Prop :=
  forall check_time,
    _active_webhooks_exists_cache w !! get_buffer_name w = Some (true, check_time) ->
    CACHE_TIMEOUT < monotonic w - check_time.

(** The registry stays empty under an action. *)
Definition keeps_registry_empty (a : action) : Prop :=
  match a with
  | registry_becomes webhooks => webhooks = []
  | _ => True
  end.

(** What may happen while the API-call scope of accumulator [r] is open and
    its owner has not left: entries of the API-call scope yield [r] and do
    not own it, and [report] is not called. *)
Definition inside_api_call (r : nat) (e : Event) : Prop :=
  match e with
  | Yielded true r' root => r' = r /\ root = false
  | ReportCalled _ => False
  | _ => True
  end.


(** The events of one call of [report]: nothing is yielded or appended, and
    [report] is not called again. *)
Definition report_event (e : Event) : Prop :=
  match e with
  | Yielded _ _ _ | Appended _ _ | ReportCalled _ => False
  | _ => True
  end.

(** The gate is closed and stays closed: no endpoint, and no fresh active
    entry in the local gate cache. *)
Definition gate_closed (w : World) : Prop :=
  endpoints_empty w /\ no_fresh_active_entry w.

(** From [w] to [w'] no payload was built and nothing was pushed. *)
Definition nothing_built (w w' : World) : Prop :=
  buffer w' = buffer w /\
  count is_PayloadGenerated w' = count is_PayloadGenerated w /\
  count is_BufferPut w' = count is_BufferPut w.


(** ** Data to run examples on *)

(** graphql-core's [get_operation_ast]: without a name, the only operation of
    the document; with a name, the operation of this name. *)
Fixpoint get_operation_ast_loop (definitions : list Ast.OperationDefinition)
    (operation_name : option pystr) (operation : option Ast.OperationDefinition)
    : option Ast.OperationDefinition :=
  match definitions with
  | [] => operation
  | definition :: rest =>
      match operation_name with
      | Some (c :: n) =>
          match Ast.name definition with
          | Some v =>
              if pystr_eqb v (c :: n) then Some definition
              else get_operation_ast_loop rest operation_name operation
          | None => get_operation_ast_loop rest operation_name operation
          end
      | _ =>
          match operation with
          | Some _ => None
          | None => get_operation_ast_loop rest operation_name (Some definition)
          end
      end
  end.

Definition is_digit (c : pychar) : bool := ((48 <=? c) && (c <=? 57))%N.

(** Collaborators that redact and mask nothing, keep identifiers readable,
    read decimal digits, and load only the two empty JSON documents. *)
Definition plain_collaborators : Collaborators := {|
  get_operation_ast := fun definitions operation_name =>
    get_operation_ast_loop definitions operation_name None;
  anonymize_gql_operation_response := fun operation => operation;
  hide_sensitive_headers := fun headers => headers;
  anonymize_event_payload := fun _ _ payload => payload;
  to_global_id := fun type_ id_ => type_ ++ 58%N :: str_of_int id_;
  json_loads := fun s =>
    if pystr_eqb s (str "{}") then Ok (JDict [])
    else if pystr_eqb s (str "[]") then Ok (JList [])
    else Raise JSONDecodeError;
  int_of_str := fun s =>
    if forallb is_digit s
    then Ok (fold_left (fun acc c => 10 * acc + (Z.of_N c - 48)) s 0)
    else Raise (ValueError (InvalidLiteral s));
  is_sync_event := fun _ => false
|}.

Definition sample_app : App.t := App.mk 1 (str "app").

Definition sample_webhook : Webhook.t :=
  Webhook.mk 7 (Some (str "hook")) (str "https://example.com/hook") None None
    sample_app.

Definition sample_delivery : EventDelivery.t :=
  EventDelivery.mk 3 (str "pending") (str "order_created")
    (Some (EventPayload.mk (str "[]"))) (Some sample_webhook).

Definition sample_attempt : EventDeliveryAttempt.t :=
  EventDeliveryAttempt.mk 5 (Some sample_delivery) (Some (str "ok"))
    (str "2022-05-01T10:00:00Z") None (str "success") None None (Some 200).

(** An attempt that is not assigned to a delivery. *)
Definition orphan_attempt : EventDeliveryAttempt.t :=
  EventDeliveryAttempt.mk 6 None None (str "2022-05-01T10:00:00Z") None
    (str "failed") None None None.

Definition sample_request : HttpRequest.t :=
  HttpRequest.mk (Some (str "POST")) (str "http://testserver/graphql")
    (Some (str "1651399200.0")) [] (Some sample_app).

Definition sample_response : HttpResponse.t :=
  HttpResponse.mk [] 200 [123; 125]%N.

(** One named query with a small result. *)
Definition sample_operation : GraphQLOperationResponse :=
  mkGraphQLOperationResponse (Some (str "orders"))
    (Some (mkGraphQLDocument (str "query orders { orders { id } }")
             [Ast.mkOperationDefinition (str "query") (Some (str "orders"))]))
    None (Some (JDict [(str "data", JDict [(str "orders", JList [])])])) false.

(** A process that has just started: observability is on for calls of apps,
    one webhook is registered, both caches and the buffer are empty, no scope
    is open. *)
Definition initial_world : World :=
  mkWorld (mkSettings true false 25000) "" (mkAmbient (str "uuid") (str "0.0"))
    [sample_webhook] (str "example.com") 0 true None ∅ [] [] ∅ ∅ 0 None None.

(** The same process with no webhook registered. *)
Definition idle_world : World := set_webhooks_for_event [] initial_world.

(** The same process when the shared cache has just been given the list of
    endpoints. *)
Definition warm_world : World :=
  cache_set
    [ WebhookData.mk 7 (str "example.com") (str "https://example.com/hook") None ]
    CACHE_TIMEOUT initial_world.

(** ** The budgeting of sub-operations, as the specification words it *)

Section Budgeting.
Context {C : Collaborators}.

Definition trunc_size (j : json) : Z :=
  match j with
  | JTrunc t => byte_size t
  | _ => 0
  end.

(** What a serialised operation consumes: the placeholder and the encoded
    size of every text it holds. *)
Definition payload_cost (payload : json) : Z :=
  GQL_OPERATION_PLACEHOLDER_SIZE
  + trunc_size (get_item payload (str "name"))
  + trunc_size (get_item payload (str "query"))
  + trunc_size (get_item payload (str "result")).

(** [budgeted unprocessed remaining payloads]: the operations still to be
    processed are served left to right; the first of them receives
    [remaining // len(unprocessed)] bytes, and what it does not consume of
    this slice goes back into [remaining] for the operations after it. *)
Inductive budgeted : list GraphQLOperationResponse -> Z -> list json -> Prop :=
| budgeted_done (remaining : Z) : budgeted [] remaining []
| budgeted_next (operation : GraphQLOperationResponse)
    (rest : list GraphQLOperationResponse) (remaining slice unused : Z)
    (payload : json) (payloads : list json) :
    slice = remaining / len (operation :: rest) ->
    serialize_gql_operation_result operation slice = Ok (payload, unused) ->
    unused = Z.max 0 (slice - payload_cost payload) ->
    budgeted rest (remaining - slice + unused) payloads ->
    budgeted (operation :: rest) remaining (payload :: payloads).

End Budgeting.

(** The escape overhead of a text: what its JSON encoding adds to its
    length. *)
Definition markup_sum (s : pystr) : Z :=
  fold_right (fun c acc =>
                (if ESCAPE_ASCII c then json_char_len c - 1 else 0) + acc) 0 s.

(** One row of the parameters of [test_json_truncate_text_to_byte_limit]:
    text, truncated flag, byte size, and the size of [json.dumps] of the
    text. *)
Definition test_case (t : pystr) (limit size : Z) (out : pystr) (tr : bool) : bool :=
  let r := truncate t limit in
  pystr_eqb (text r) out && (byte_size r =? size) && Bool.eqb (truncated r) tr
  && (len (encode_basestring_ascii (text r)) =? size + 2).

(** ** Further conditions used in the properties *)

(** No plain character follows a character that needs escaping. *)
Fixpoint escapes_last (s : pystr) : bool :=
  match s with
  | [] => true
  | c :: s' => if ESCAPE_ASCII c then forallb ESCAPE_ASCII s' else escapes_last s'
  end.


(** What [payload_to_camel_case] can walk: a dictionary whose values are
    dictionaries of this kind, lists holding only such dictionaries, or
    anything that is neither a dictionary nor a list. *)
Fixpoint camel_ok (j : json) : bool :=
  match j with
  | JDict items =>
      forallb (fun kv : pystr * json =>
                 let '(_, v) := kv in
                 match v with
                 | JDict _ => camel_ok v
                 | JList l => forallb camel_ok l
                 | _ => true
                 end) items
  | _ => false
  end.

Definition camel_value_ok (v : json) : bool :=
  match v with
  | JDict _ => camel_ok v
  | JList l => forallb camel_ok l
  | _ => true
  end.

(** How each of the three loops ends: with a value when the data can be
    walked, with [AttributeError] otherwise. *)
Definition camel_outcome {A} (r : res A) (ok : bool) : Prop :=
  match r with
  | Ok _ => ok = true
  | Raise e => e = AttributeError /\ ok = false
  end.

Definition is_Logged (e : Event) : bool :=
  match e with Logged _ => true | _ => false end.

(** From [w] to [w'] the module stayed silent: same settings, same buffer,
    and no gate check, build, push or log record was added. *)
Definition silent (w w' : World) : Prop :=
  settings w' = settings w /\
  buffer w' = buffer w /\
  count is_GateChecked w' = count is_GateChecked w /\
  count is_PayloadGenerated w' = count is_PayloadGenerated w /\
  count is_BufferPut w' = count is_BufferPut w /\
  count is_Logged w' = count is_Logged w.

(** A process like [warm_world] with observability switched off. *)
Definition switched_off_world : World :=
  mkWorld (mkSettings false true 25000) "" (mkAmbient (str "uuid") (str "0.0"))
    [sample_webhook] (str "example.com") 0 true
    (Some ([ WebhookData.mk 7 (str "example.com")
               (str "https://example.com/hook") None ], CACHE_TIMEOUT))
    ∅ [] [] ∅ ∅ 0 None None.

(** [w'] differs from [w] at most in the objects of the scopes, the context
    and the events: settings, clock, registry, both caches and the buffer
    are the same. *)
Definition same_environment (w w' : World) : Prop :=
  settings w' = settings w /\ key_prefix w' = key_prefix w /\
  ambient w' = ambient w /\ webhooks_for_event w' = webhooks_for_event w /\
  site_domain w' = site_domain w /\ monotonic w' = monotonic w /\
  buffer_available w' = buffer_available w /\
  cache_webhooks w' = cache_webhooks w /\
  _active_webhooks_exists_cache w' = _active_webhooks_exists_cache w /\
  buffer w' = buffer w.

(** A GraphQL operation run under its scope: [with report_gql_operation() as
    operation:] with the assignments [f] to what the scope yields. *)
Definition operation_scope
    (f : GraphQLOperationResponse -> GraphQLOperationResponse) : stmt :=
  with_report_gql_operation [assign_operation f].

(** An action that is a call of [report] on the accumulator [self], or
    leaves every accumulator alone: time passing, a cache losing its entry
    or being cleared, the registry changing. *)
Definition reports_only (self : nat) (a : action) : Prop :=
  match a with
  | call_report self' => self' = self
  | call_report_event_delivery_attempt _ _ | serve _ => False
  | _ => True
  end.

(** * Properties *)

(** Key literals are brought to their code points before dictionaries are
    looked up. *)
Ltac norm_str :=
  repeat match goal with
         | |- context [str ?s] =>
             let v := eval vm_compute in (str s) in change (str s) with v
         end.

(** ** Truncation *)

(** The rows of [test_json_truncate_text_to_byte_limit]. *)
Example truncate_test_cases :
  test_case (str "abcde") 5 5 (str "abcde") false
  && test_case [97; 98; 243]%N 3 2 (str "ab") true
  && test_case [97; 98; 243]%N 8 8 [97; 98; 243]%N false
  && test_case [97; 98; 243]%N 12 8 [97; 98; 243]%N false
  && test_case [97; 10; 99; 65537; 100]%N 17 17 [97; 10; 99; 65537; 100]%N false
  && test_case [97; 10; 99; 65537; 100]%N 10 4 [97; 10; 99]%N true
  && test_case [97; 10; 99; 65537; 100]%N 16 16 [97; 10; 99; 65537]%N true
  && test_case (str "abcd") 0 0 [] true = true.
Proof. vm_compute. reflexivity. Qed.


Lemma len_nonneg {A} (s : list A) : 0 <= len s.
Proof. unfold len. lia. Qed.

Lemma len_app {A} (a b : list A) : len (a ++ b) = len a + len b.
Proof. unfold len. rewrite length_app. lia. Qed.

Lemma len_cons {A} (c : A) (s : list A) : len (c :: s) = len s + 1.
Proof. unfold len. simpl. lia. Qed.

Lemma slice_to_prefix {A} (pre r : list A) :
  slice_to (pre ++ r) (len pre) = pre.
Proof.
  unfold slice_to. pose proof (len_nonneg pre) as H.
  destruct (Z.ltb_spec (len pre) 0) as [Hlt | _]; [lia |].
  unfold len. rewrite Nat2Z.id.
  rewrite firstn_app, Nat.sub_diag, firstn_all. simpl. apply app_nil_r.
Qed.

Lemma slice_to_all {A} (s : list A) (k : Z) : len s <= k -> slice_to s k = s.
Proof.
  intros H. unfold slice_to. pose proof (len_nonneg s) as H0.
  destruct (Z.ltb_spec k 0) as [Hlt | _]; [lia |].
  apply firstn_all2. unfold len in H. lia.
Qed.

Lemma slice_to_split {A} (s : list A) (k : Z) :
  0 <= k -> exists r2, s = slice_to s k ++ r2 /\ len (slice_to s k) <= k.
Proof.
  intros H. unfold slice_to.
  destruct (Z.ltb_spec k 0) as [Hlt | _]; [lia |].
  exists (skipn (Z.to_nat k) s). split.
  - symmetry. apply firstn_skipn.
  - unfold len. rewrite length_firstn. lia.
Qed.

(** Scanning the text that a scan returned returns this text again, and never
    shortens it.  [pre] is the part of the string before index [len pre], [r]
    the part the scan still has to visit. *)
Lemma truncate_loop_rescan (r pre : pystr) (a i i' limit : Z) :
  exists r1 r2,
    r = r1 ++ r2 /\
    text (truncate_loop (finditer_from (len pre) r) (pre ++ r) i limit a)
      = pre ++ r1 /\
    text (truncate_loop (finditer_from (len pre) r1) (pre ++ r1) i' limit a)
      = pre ++ r1 /\
    truncated (truncate_loop (finditer_from (len pre) r1) (pre ++ r1) i' limit a)
      = (len (pre ++ r1) <? i') /\
    _added_bytes (truncate_loop (finditer_from (len pre) r) (pre ++ r) i limit a)
      = Z.max 0 (a + markup_sum r1).
Proof.
  revert pre a. induction r as [| c r IH]; intros pre a.
  - exists [], []. simpl. rewrite app_nil_r, Z.add_0_r. auto.
  - assert (Hstep : forall a',
      exists r1 r2,
        r = r1 ++ r2 /\
        text (truncate_loop (finditer_from (len pre + 1) r) (pre ++ c :: r) i limit a')
          = pre ++ c :: r1 /\
        text (truncate_loop (finditer_from (len pre + 1) r1) (pre ++ c :: r1) i' limit a')
          = pre ++ c :: r1 /\
        truncated (truncate_loop (finditer_from (len pre + 1) r1) (pre ++ c :: r1) i' limit a')
          = (len (pre ++ c :: r1) <? i') /\
        _added_bytes (truncate_loop (finditer_from (len pre + 1) r) (pre ++ c :: r) i limit a')
          = Z.max 0 (a' + markup_sum r1)).
    { intros a'. destruct (IH (pre ++ [c]) a') as (r1 & r2 & E & T1 & T2 & T3 & T4).
      rewrite len_app in T1, T2, T3, T4. change (len [c]) with 1 in *.
      rewrite <- !app_assoc in *. simpl in *.
      exists r1, r2. auto. }
    simpl finditer_from. destruct (ESCAPE_ASCII c) eqn:Hc.
    + cbn [truncate_loop m_start m_end m_group].
      destruct (Z.gtb_spec (len pre + 1 + (a + (json_char_len c - 1))) limit) as [Hgt | Hle].
      * exists [], (c :: r). simpl. rewrite slice_to_prefix, app_nil_r.
        repeat split; auto. f_equal. lia.
      * destruct (Z.eqb_spec (len pre + 1 + (a + (json_char_len c - 1))) limit) as [Heq | Hne].
        -- exists [c], r. simpl. rewrite Hc.
           cbn [truncate_loop m_start m_end m_group].
           destruct (Z.gtb_spec (len pre + 1 + (a + (json_char_len c - 1))) limit); [lia |].
           destruct (Z.eqb_spec (len pre + 1 + (a + (json_char_len c - 1))) limit); [| lia].
           assert (Hs1 : slice_to (pre ++ c :: r) (len pre + 1) = pre ++ [c]).
           { replace (pre ++ c :: r) with ((pre ++ [c]) ++ r) by (rewrite <- app_assoc; reflexivity).
             replace (len pre + 1) with (len (pre ++ [c])) by (rewrite len_app; reflexivity).
             apply slice_to_prefix. }
           assert (Hs2 : slice_to (pre ++ [c]) (len pre + 1) = pre ++ [c]).
           { apply slice_to_all. rewrite len_app. change (len [c]) with 1. lia. }
           rewrite Hs1, Hs2. simpl.
           repeat split; auto. f_equal. lia.
        -- destruct (Hstep (a + (json_char_len c - 1))) as (r1 & r2 & E & T1 & T2 & T3 & T4).
           exists (c :: r1), r2. simpl. rewrite Hc.
           cbn [truncate_loop m_start m_end m_group].
           destruct (Z.gtb_spec (len pre + 1 + (a + (json_char_len c - 1))) limit); [lia |].
           destruct (Z.eqb_spec (len pre + 1 + (a + (json_char_len c - 1))) limit); [lia |].
           rewrite E at 1. repeat split; auto.
           rewrite T4. f_equal. lia.
    + destruct (Hstep a) as (r1 & r2 & E & T1 & T2 & T3 & T4).
      exists (c :: r1), r2. simpl. rewrite Hc.
      rewrite E at 1. repeat split; auto.
Qed.

(** The text [truncate] returns is a prefix of the first [max(limit, 0)]
    characters, and [_added_bytes] is the escape overhead of that text. *)
Lemma truncate_text_prefix (s : pystr) (limit : Z) :
  exists r2,
    slice_to s (Z.max limit 0) = text (truncate s limit) ++ r2 /\
    _added_bytes (truncate s limit)
      = Z.max 0 (markup_sum (text (truncate s limit))).
Proof.
  unfold truncate, finditer.
  destruct (truncate_loop_rescan (slice_to s (Z.max limit 0)) [] 0 (len s) 0
              (Z.max limit 0)) as (r1 & r2 & E & T1 & _ & _ & T4).
  simpl in T1, T4. change (len []) with 0 in *.
  exists r2. rewrite T1, T4. auto.
Qed.

Lemma json_char_len_replace (c : pychar) : json_char_len c = len (replace c).
Proof.
  unfold json_char_len, replace.
  destruct (ESCAPE_DCT c); [reflexivity |].
  destruct (c <? 65536)%N; reflexivity.
Qed.

Lemma json_char_len_escaped (c : pychar) :
  ESCAPE_ASCII c = true -> 2 <= json_char_len c.
Proof.
  intros _. unfold json_char_len, ESCAPE_DCT.
  repeat match goal with
         | |- context [if ?b then _ else _] => destruct b
         end; cbv; discriminate.
Qed.

Lemma markup_sum_nonneg (s : pystr) : 0 <= markup_sum s.
Proof.
  induction s as [| c s IH]; simpl; [lia |].
  destruct (ESCAPE_ASCII c) eqn:Hc; [| lia].
  pose proof (json_char_len_escaped c Hc). lia.
Qed.

Lemma escape_sub_len (s : pystr) : len (escape_sub s) = len s + markup_sum s.
Proof.
  induction s as [| c s IH]; [reflexivity |].
  unfold escape_sub in *. simpl flat_map. rewrite len_app, len_cons, IH. simpl.
  destruct (ESCAPE_ASCII c).
  - rewrite json_char_len_replace. lia.
  - change (len [c]) with 1. lia.
Qed.

(** [byte_size] is exact: it is the size of the JSON encoding of the returned
    text without its two quotes, as the test asserts with [json.dumps]. *)
Lemma byte_size_is_encoded_size (s : pystr) (limit : Z) :
  len (encode_basestring_ascii (text (truncate s limit)))
    = byte_size (truncate s limit) + 2.
Proof.
  destruct (truncate_text_prefix s limit) as (r2 & _ & Ha).
  unfold byte_size, encode_basestring_ascii. rewrite Ha.
  rewrite len_cons, len_app, escape_sub_len. change (len [34%N]) with 1.
  pose proof (markup_sum_nonneg (text (truncate s limit))). lia.
Qed.

(** The returned text never has more characters than the clamped limit. *)
Lemma truncate_text_len (s : pystr) (limit : Z) :
  len (text (truncate s limit)) <= Z.max limit 0.
Proof.
  destruct (truncate_text_prefix s limit) as (r2 & E & _).
  destruct (slice_to_split s (Z.max limit 0)) as (r3 & _ & Hl); [lia |].
  rewrite E, len_app in Hl. pose proof (len_nonneg r2). lia.
Qed.

(** C1 (the code departs from it).  Truncate is to keep [byte_size] within
    the limit.  The scan compares against the limit only at characters that
    need escaping, so plain characters that follow an escaped one are never
    weighed: a newline and four letters under a limit of 5 come back whole,
    with [byte_size] 6 and a JSON encoding of 6 bytes between the quotes. *)
Theorem truncate_byte_size_exceeds_limit :
  let t := truncate [10; 97; 97; 97; 97]%N 5 in
  text t = [10; 97; 97; 97; 97]%N /\ truncated t = false /\
  byte_size t = 6 /\ len (encode_basestring_ascii (text t)) = 6 + 2.
Proof. vm_compute. repeat split; reflexivity. Qed.

(** C3, as stated, fails on the flag: truncating four letters to 0 bytes sets
    [truncated]; truncating the empty result again does not. *)
Lemma truncate_twice_flag_differs :
  let first := truncate (str "abcd") 0 in
  let second := truncate (text first) 0 in
  text second = text first /\ truncated first = true /\ truncated second = false.
Proof. vm_compute. repeat split; reflexivity. Qed.

(** C3 (amended).  Truncating the returned text again under the same limit
    returns the same text; the second call finds nothing to cut, so its flag
    is [false] whatever the first flag was. *)
Theorem truncate_idempotent_text (s : pystr) (limit : Z) :
  let first := truncate s limit in
  let second := truncate (text first) limit in
  text second = text first /\ truncated second = false.
Proof.
  cbv zeta. pose proof (truncate_text_len s limit) as Hlen.
  destruct (truncate_loop_rescan (slice_to s (Z.max limit 0)) [] 0 (len s)
              (len (text (truncate s limit))) (Z.max limit 0))
    as (r1 & r2 & E & T1 & T2 & T3 & _).
  change (len []) with 0 in *. simpl app in *.
  assert (HT : text (truncate s limit) = r1) by exact T1.
  rewrite HT in *.
  assert (H2 : truncate r1 limit
               = truncate_loop (finditer_from 0 r1) r1 (len r1) (Z.max limit 0) 0).
  { unfold truncate, finditer. rewrite slice_to_all by exact Hlen. reflexivity. }
  rewrite H2, T2, T3. split; [reflexivity | apply Z.ltb_irrefl].
Qed.

(** ** Budgeting of sub-operations *)

Section BudgetingProperties.
Context {C : Collaborators}.

(** Once the placeholder fits, an operation is serialised without an error,
    and what it hands back is the part of its slice that it did not
    consume. *)
Lemma serialize_gql_operation_result_ok (operation : GraphQLOperationResponse)
    (bytes_limit : Z) :
  GQL_OPERATION_PLACEHOLDER_SIZE <= bytes_limit ->
  exists payload,
    serialize_gql_operation_result operation bytes_limit
      = Ok (payload, Z.max 0 (bytes_limit - payload_cost payload)).
Proof.
  intros Hfit. unfold serialize_gql_operation_result.
  destruct (Z.ltb_spec (bytes_limit - GQL_OPERATION_PLACEHOLDER_SIZE) 0) as [Hlt | _];
    [lia |].
  set (op := anonymize_gql_operation_response operation).
  set (L := bytes_limit - GQL_OPERATION_PLACEHOLDER_SIZE).
  destruct (name op) as [[| c n] |];
    (destruct (query op) as [q |];
     [destruct (get_operation_ast (document_ast q) _) as [d |] |]);
    (destruct (result op) as [r |]; [destruct (truthy r) |]);
    eexists; (f_equal; f_equal; unfold payload_cost; norm_str; cbn; subst L;
              f_equal; lia).
Qed.

(** Below the placeholder cost an operation is not serialised at all. *)
Lemma serialize_gql_operation_result_raises (operation : GraphQLOperationResponse)
    (bytes_limit : Z) :
  bytes_limit < GQL_OPERATION_PLACEHOLDER_SIZE ->
  serialize_gql_operation_result operation bytes_limit
    = Raise (ValueError NoMessage).
Proof.
  intros H. unfold serialize_gql_operation_result.
  destruct (Z.ltb_spec (bytes_limit - GQL_OPERATION_PLACEHOLDER_SIZE) 0); [reflexivity | lia].
Qed.

(** A slice of a budget that covers every placeholder covers one, and the
    rest still covers the others. *)
Lemma slice_covers_placeholder (remaining k : Z) :
  1 <= k -> k * GQL_OPERATION_PLACEHOLDER_SIZE <= remaining ->
  GQL_OPERATION_PLACEHOLDER_SIZE <= remaining / k /\
  (k - 1) * GQL_OPERATION_PLACEHOLDER_SIZE <= remaining - remaining / k.
Proof.
  intros Hk Hfit.
  assert (Hq : GQL_OPERATION_PLACEHOLDER_SIZE <= remaining / k)
    by (apply Z.div_le_lower_bound; lia).
  split; [exact Hq |].
  pose proof (Z.mul_div_le remaining k ltac:(lia)). nia.
Qed.

(** The loop, entered with enough budget for the placeholders of the
    operations still to come, raises nothing and follows the budgeting. *)
Lemma serialize_gql_operation_results_loop_budgeted
    (operations : list GraphQLOperationResponse) :
  forall (count i bytes_limit : Z) (acc : list json),
    count - i = len operations ->
    len operations * GQL_OPERATION_PLACEHOLDER_SIZE <= bytes_limit ->
    exists payloads,
      serialize_gql_operation_results_loop count i operations bytes_limit acc
        = Ok (acc ++ payloads) /\
      budgeted operations bytes_limit payloads.
Proof.
  induction operations as [| operation rest IH]; intros count i bytes_limit acc Hi Hfit.
  - exists []. simpl. rewrite app_nil_r. split; [reflexivity | constructor].
  - pose proof (len_nonneg rest) as Hrest. rewrite len_cons in Hi, Hfit.
    destruct (slice_covers_placeholder bytes_limit (len rest + 1) ltac:(lia) Hfit)
      as [Hslice Hleft].
    destruct (serialize_gql_operation_result_ok operation
                (bytes_limit / (len rest + 1)) Hslice) as [payload Hp].
    simpl. rewrite Hi, Hp. simpl.
    set (slice := bytes_limit / (len rest + 1)) in *.
    set (unused := Z.max 0 (slice - payload_cost payload)) in *.
    destruct (IH count (i + 1) (bytes_limit - (slice - unused)) (acc ++ [payload]))
      as [payloads [Hloop Hb]]; [lia | lia |].
    exists (payload :: payloads). split.
    + rewrite Hloop, <- app_assoc. reflexivity.
    + apply budgeted_next with (slice := slice) (unused := unused).
      * rewrite len_cons. reflexivity.
      * exact Hp.
      * reflexivity.
      * replace (bytes_limit - slice + unused)
          with (bytes_limit - (slice - unused)) by lia.
        exact Hb.
Qed.

(** The two outcomes of [serialize_gql_operation_results]. *)
Lemma serialize_gql_operation_results_cases
    (operations : list GraphQLOperationResponse) (remaining : Z) :
  match serialize_gql_operation_results operations remaining with
  | Raise e =>
      e = ValueError NoMessage /\
      remaining < len operations * GQL_OPERATION_PLACEHOLDER_SIZE
  | Ok payloads =>
      len operations * GQL_OPERATION_PLACEHOLDER_SIZE <= remaining /\
      budgeted operations remaining payloads
  end.
Proof.
  unfold serialize_gql_operation_results.
  destruct (Z.ltb_spec (remaining - len operations * GQL_OPERATION_PLACEHOLDER_SIZE) 0)
    as [Hlt | Hge].
  - split; [reflexivity | lia].
  - destruct (serialize_gql_operation_results_loop_budgeted operations
                (len operations) 0 remaining []) as [payloads [Hloop Hb]];
      [lia | lia |].
    rewrite Hloop. simpl. split; [lia | exact Hb].
Qed.

(** C2.  Serialising the list of sub-operations raises exactly when the
    budget is below one placeholder per operation; otherwise nothing is
    raised and the payloads follow the budgeting: left to right, each
    operation receives the remaining budget divided by the number of
    operations not yet processed, and the unconsumed part of its slice is
    added back to the remaining budget. *)
Theorem serialize_gql_operation_results_budgeting
    (operations : list GraphQLOperationResponse) (remaining : Z) :
  match serialize_gql_operation_results operations remaining with
  | Raise e =>
      e = ValueError NoMessage /\
      remaining < len operations * GQL_OPERATION_PLACEHOLDER_SIZE
  | Ok payloads =>
      len operations * GQL_OPERATION_PLACEHOLDER_SIZE <= remaining /\
      budgeted operations remaining payloads
  end.
Proof. apply serialize_gql_operation_results_cases. Qed.

End BudgetingProperties.

(** Two operations need 376 bytes for their placeholders: one byte less and
    nothing is serialised. *)
Example serialize_gql_operation_results_too_small :
  serialize_gql_operation_results (C := plain_collaborators)
    [sample_operation; sample_operation] 375
  = Raise (ValueError NoMessage)
  /\ raised (serialize_gql_operation_results (C := plain_collaborators)
               [sample_operation; sample_operation] 376) = false.
Proof. vm_compute. split; reflexivity. Qed.

(** Under 420 bytes each of the two operations receives 210.  The result
    text is pretty-printed, so escaped newlines and quotes are followed by
    plain characters, and [truncate] hands back 10 bytes for a limit of 8:
    each operation costs 212 bytes, the two together 424. *)
Example serialize_gql_operation_results_overrun :
  match serialize_gql_operation_results (C := plain_collaborators)
          [sample_operation; sample_operation] 420 with
  | Ok payloads => map payload_cost payloads = [212; 212]
  | Raise _ => False
  end.
Proof. vm_compute. reflexivity. Qed.

(** ** The payload builders *)

Lemma payload_to_camel_case_dict (items : list (pystr * json)) :
  payload_to_camel_case (JDict items)
    = (data <- camel_items items [] ;; Ok (JDict data)).
Proof.
  reflexivity.
Qed.

Lemma camel_items_flat (d : list (pystr * json)) :
  Forall (fun kv => is_leaf (snd kv) = true) d ->
  forall data,
    camel_items d data
      = Ok (fold_left (fun data kv => dict_set data (to_camel_case (fst kv)) (snd kv))
              d data).
Proof.
  induction 1 as [| [k v] d Hv _ IH]; intros data; [reflexivity |].
  simpl in *. destruct v; try discriminate; simpl; apply IH.
Qed.

Lemma camel_flat_dict (j : json) :
  flat_dict j -> exists d', payload_to_camel_case j = Ok (JDict d').
Proof.
  intros (d & -> & Hd). rewrite payload_to_camel_case_dict.
  rewrite (camel_items_flat d Hd). simpl. eauto.
Qed.

Lemma camel_each_flat (l : list json) :
  Forall flat_dict l -> exists l', camel_each l = Ok l' /\ length l' = length l.
Proof.
  induction 1 as [| j l Hj _ (l' & IH & Hl)]; [exists []; auto |].
  destruct (camel_flat_dict j Hj) as [d' Hd'].
  exists (JDict d' :: l'). simpl. rewrite Hd', IH. simpl. auto.
Qed.

Lemma dict_set_leaves (d : dict) (k : pystr) (v : json) :
  is_leaf v = true ->
  Forall (fun kv => is_leaf (snd kv) = true) d ->
  Forall (fun kv => is_leaf (snd kv) = true) (dict_set d k v).
Proof.
  intros Hv. induction 1 as [| [k' v'] d Hv' Hd IH]; simpl.
  - repeat constructor. exact Hv.
  - destruct (pystr_eqb k' k); constructor; auto.
Qed.

Lemma headers_dict_flat (h : list (pystr * pystr)) : flat_dict (headers_dict h).
Proof.
  unfold headers_dict. eexists; split; [reflexivity |].
  assert (H : forall d : dict,
             Forall (fun kv => is_leaf (snd kv) = true) d ->
             Forall (fun kv => is_leaf (snd kv) = true)
               (fold_left (fun d kv => dict_set d (fst kv) (JStr (snd kv))) h d)).
  { induction h as [| [k v] h IH]; intros d Hd; [exact Hd |].
    simpl. apply IH. apply dict_set_leaves; auto. }
  apply H. constructor.
Qed.

Section BuilderProperties.
Context {C : Collaborators}.

Lemma serialize_gql_operation_result_flat (operation : GraphQLOperationResponse)
    (bytes_limit left_bytes : Z) (payload : json) :
  serialize_gql_operation_result operation bytes_limit = Ok (payload, left_bytes) ->
  flat_dict payload.
Proof.
  unfold serialize_gql_operation_result.
  destruct (bytes_limit - GQL_OPERATION_PLACEHOLDER_SIZE <? 0); [discriminate |].
  set (op := anonymize_gql_operation_response operation).
  destruct (name op) as [[| c n] |];
    (destruct (query op) as [q |];
     [destruct (get_operation_ast (document_ast q) _) as [d |] |]);
    (destruct (result op) as [r |]; [destruct (truthy r) |]);
    norm_str; cbn; intros [= <- _];
    (eexists; split; [reflexivity | repeat constructor]).
Qed.

Lemma budgeted_flat (operations : list GraphQLOperationResponse) (remaining : Z)
    (payloads : list json) :
  budgeted operations remaining payloads ->
  Forall flat_dict payloads /\ length payloads = length operations.
Proof.
  induction 1 as [| operation rest remaining slice unused payload payloads
                     _ Hp _ _ [IH Hl]]; [auto |].
  split; [| simpl; congruence].
  constructor; [| exact IH].
  eapply serialize_gql_operation_result_flat; eauto.
Qed.

End BuilderProperties.

Ltac norm_keys :=
  repeat match goal with
         | |- context [to_camel_case (str ?s)] =>
             let v := eval vm_compute in (to_camel_case (str s)) in
             change (to_camel_case (str s)) with v
         end;
  norm_str.

Section ApiCallProperties.
Context {C : Collaborators}.

Lemma camel_value_headers (h : list (pystr * pystr)) :
  exists d', camel_value (headers_dict h) = Ok (JDict d').
Proof.
  destruct (camel_flat_dict _ (headers_dict_flat h)) as [d' Hd'].
  exists d'. unfold headers_dict in *. exact Hd'.
Qed.

Lemma api_call_payload_shape (amb : Ambient) (request : HttpRequest.t)
    (response : HttpResponse.t) (gql_operations : list GraphQLOperationResponse)
    (payload : json) :
  api_call_payload amb request response gql_operations = Ok payload ->
  exists rq rs a,
    payload = JDict [ (str "event_type", JStr (str "observability_api_call"));
                      (str "request", rq);
                      (str "response", rs);
                      (str "app", a);
                      (str "gql_operations",
                         JDict [ (str "count", JInt (len gql_operations));
                                 (str "operations", JList []) ]) ]
    /\ (exists rq', camel_value rq = Ok rq')
    /\ (exists rs', camel_value rs = Ok rs')
    /\ (exists a', camel_value a = Ok a').
Proof.
  unfold api_call_payload.
  destruct (match headers_get (HttpRequest.headers request) (str "Content-Length") with
            | Some (c :: v) => int_of_str (c :: v)
            | _ => Ok 0
            end) as [content_length | e]; [| discriminate].
  cbn [bind].
  destruct (camel_value_headers (hide_sensitive_headers (HttpRequest.headers request)))
    as [hq Hq].
  destruct (camel_value_headers (hide_sensitive_headers (HttpResponse.headers response)))
    as [hs Hs].
  assert (Hrq : exists rq', camel_value (JDict [
         (str "id", JStr (uuid4 amb));
         (str "method", JStr (str_or (HttpRequest.method request) []));
         (str "url", JStr (HttpRequest.absolute_uri request));
         (str "time", JFloat (default (timezone_now amb)
                                (HttpRequest.request_time request)));
         (str "headers",
            headers_dict (hide_sensitive_headers (HttpRequest.headers request)));
         (str "content_length", JInt content_length) ]) = Ok rq').
  { cbn [camel_value]. rewrite payload_to_camel_case_dict. cbn [camel_items bind].
    rewrite Hq. cbn [camel_value bind]. eauto. }
  assert (Hrs : exists rs', camel_value (JDict [
         (str "headers",
            headers_dict (hide_sensitive_headers (HttpResponse.headers response)));
         (str "status_code", JInt (HttpResponse.status_code response));
         (str "content_length", JInt (len (HttpResponse.content response))) ]) = Ok rs').
  { cbn [camel_value]. rewrite payload_to_camel_case_dict. cbn [camel_items bind].
    rewrite Hs. cbn [camel_value bind]. eauto. }
  destruct (HttpRequest.app request) as [app |]; intros [= <-].
  - norm_str. cbn [set_item dict_set pystr_eqb N.eqb Pos.eqb andb].
    do 3 eexists. split; [reflexivity |]. norm_str. 
    split; [exact Hrq |]. split; [exact Hrs |].
    cbn [camel_value]. rewrite payload_to_camel_case_dict.
    cbn [camel_items camel_value bind]. eauto.
  - do 3 eexists. split; [reflexivity |].
    split; [exact Hrq |]. split; [exact Hrs |].
    cbn [camel_value]. eauto.
Qed.

(** Camel-casing the payload once the list of operations is in place. *)
Lemma camel_api_call_payload (rq rs a rq' rs' a' : json) (n : Z)
    (l l' : list json) :
  camel_value rq = Ok rq' -> camel_value rs = Ok rs' -> camel_value a = Ok a' ->
  camel_each l = Ok l' ->
  payload_to_camel_case
    (JDict [ (str "event_type", JStr (str "observability_api_call"));
             (str "request", rq);
             (str "response", rs);
             (str "app", a);
             (str "gql_operations",
                JDict [ (str "count", JInt n); (str "operations", JList l) ]) ])
  = Ok (JDict [ (str "eventType", JStr (str "observability_api_call"));
                (str "request", rq');
                (str "response", rs');
                (str "app", a');
                (str "gqlOperations",
                   JDict [ (str "count", JInt n); (str "operations", JList l') ]) ]).
Proof.
  intros Hrq Hrs Ha Hl.
  rewrite payload_to_camel_case_dict. cbn [camel_items bind].
  rewrite Hrq, Hrs, Ha. cbn [camel_value bind].
  rewrite payload_to_camel_case_dict. cbn [camel_items camel_value bind].
  rewrite Hl. cbn [bind].
  norm_keys. cbn [dict_set pystr_eqb N.eqb Pos.eqb andb]. reflexivity.
Qed.

(** The outcomes of [generate_api_call_document], once the fixed part of the
    payload is assembled. *)
Lemma generate_api_call_document_cases (amb : Ambient) (request : HttpRequest.t)
    (response : HttpResponse.t) (gql_operations : list GraphQLOperationResponse)
    (bytes_limit : Z) (payload : json) :
  api_call_payload amb request response gql_operations = Ok payload ->
  let remaining := bytes_limit - len (_json_serialize payload false) in
  if remaining <? 0 then
    generate_api_call_document amb request response gql_operations bytes_limit
      = Raise (ValueError (PayloadTooBig bytes_limit))
  else
    exists rq' rs' a' l',
      generate_api_call_document amb request response gql_operations bytes_limit
        = Ok (JDict [ (str "eventType", JStr (str "observability_api_call"));
                      (str "request", rq');
                      (str "response", rs');
                      (str "app", a');
                      (str "gqlOperations",
                         JDict [ (str "count", JInt (len gql_operations));
                                 (str "operations", JList l') ]) ])
      /\ match serialize_gql_operation_results gql_operations remaining with
         | Ok payloads => camel_each payloads = Ok l'
         | Raise _ =>
             l' = [] /\
             payload_to_camel_case payload
               = generate_api_call_document amb request response gql_operations
                   bytes_limit
         end.
Proof.
  intros Hp remaining. unfold generate_api_call_document. rewrite Hp. cbn [bind].
  fold remaining. destruct (remaining <? 0); [reflexivity |].
  destruct (api_call_payload_shape _ _ _ _ _ Hp)
    as (rq & rs & a & -> & [rq' Hrq] & [rs' Hrs] & [a' Ha]).
  pose proof (serialize_gql_operation_results_cases gql_operations remaining) as Hb.
  destruct (serialize_gql_operation_results gql_operations remaining) as [payloads | e].
  - destruct Hb as [_ Hb]. destruct (budgeted_flat _ _ _ Hb) as [Hflat _].
    destruct (camel_each_flat _ Hflat) as (l' & Hl' & _).
    exists rq', rs', a', l'. split; [| exact Hl'].
    cbn [bind]. norm_str.
    cbn [set_path set_item get_item dict_get dict_set default from_option id
         pystr_eqb N.eqb Pos.eqb andb].
    pose proof (camel_api_call_payload rq rs a rq' rs' a' (len gql_operations)
                  payloads l' Hrq Hrs Ha Hl') as Hc.
    revert Hc. norm_str. intros ->. reflexivity.
  - destruct Hb as [-> _]. cbn [is_ValueError bind].
    exists rq', rs', a', []. 
    pose proof (camel_api_call_payload rq rs a rq' rs' a' (len gql_operations)
                  [] [] Hrq Hrs Ha eq_refl) as Hc.
    rewrite Hc. auto.
Qed.

(** C7.  Once the fixed part is assembled, the builder raises only when this
    part alone exceeds the limit.  Otherwise it returns a document, and when
    filling the sub-operations raises, this document is the fixed payload
    with its empty list of operations. *)
Theorem generate_api_call_payload_degrades (amb : Ambient)
    (request : HttpRequest.t) (response : HttpResponse.t)
    (gql_operations : list GraphQLOperationResponse) (bytes_limit : Z) :
  match api_call_payload amb request response gql_operations with
  | Raise e =>
      generate_api_call_payload amb request response gql_operations bytes_limit
        = Raise e
  | Ok payload =>
      let remaining := bytes_limit - len (_json_serialize payload false) in
      if remaining <? 0 then
        generate_api_call_payload amb request response gql_operations bytes_limit
          = Raise (ValueError (PayloadTooBig bytes_limit))
      else
        exists document,
          generate_api_call_payload amb request response gql_operations bytes_limit
            = Ok (_json_serialize document false) /\
          match serialize_gql_operation_results gql_operations remaining with
          | Raise _ =>
              payload_to_camel_case payload = Ok document /\
              get_item (get_item document (str "gqlOperations")) (str "operations")
                = JList []
          | Ok _ => True
          end
  end.
Proof.
  destruct (api_call_payload amb request response gql_operations) as [payload | e] eqn:Hp.
  - pose proof (generate_api_call_document_cases amb request response
                  gql_operations bytes_limit payload Hp) as H.
    cbv zeta in *. unfold generate_api_call_payload.
    destruct (bytes_limit - len (_json_serialize payload false) <? 0).
    + rewrite H. reflexivity.
    + destruct H as (rq' & rs' & a' & l' & Hd & Hs). rewrite Hd. cbn [bind].
      eexists. split; [reflexivity |].
      destruct (serialize_gql_operation_results _ _); [exact I |].
      destruct Hs as [-> Hs]. split; [congruence |].
      norm_str. reflexivity.
  - unfold generate_api_call_payload, generate_api_call_document. rewrite Hp.
    reflexivity.
Qed.

(** C9.  In every document the builder returns, [gqlOperations.count] is the
    number of operations it was given, whether or not the list of operations
    was filled. *)
Theorem generate_api_call_document_count (amb : Ambient)
    (request : HttpRequest.t) (response : HttpResponse.t)
    (gql_operations : list GraphQLOperationResponse) (bytes_limit : Z) :
  match generate_api_call_document amb request response gql_operations
          bytes_limit with
  | Ok document =>
      get_item (get_item document (str "gqlOperations")) (str "count")
        = JInt (len gql_operations)
  | Raise _ => True
  end.
Proof.
  destruct (api_call_payload amb request response gql_operations) as [payload | e] eqn:Hp.
  - pose proof (generate_api_call_document_cases amb request response
                  gql_operations bytes_limit payload Hp) as H.
    cbv zeta in H.
    destruct (bytes_limit - len (_json_serialize payload false) <? 0).
    + rewrite H. exact I.
    + destruct H as (rq' & rs' & a' & l' & -> & _). norm_str. reflexivity.
  - unfold generate_api_call_document. rewrite Hp. exact I.
Qed.

End ApiCallProperties.

(** The fixed part of the sample call takes 338 bytes.  Below that the
    builder raises; with 100 bytes more, which is less than the two
    placeholders need, it returns the document without operations and with a
    count of 2. *)
Example generate_api_call_payload_sample :
  generate_api_call_payload (C := plain_collaborators) (ambient initial_world)
    sample_request sample_response [sample_operation; sample_operation] 337
  = Raise (ValueError (PayloadTooBig 337))
  /\ match generate_api_call_document (C := plain_collaborators)
            (ambient initial_world) sample_request sample_response
            [sample_operation; sample_operation] 438 with
     | Ok document =>
         get_item document (str "gqlOperations")
         = JDict [ (str "count", JInt 2); (str "operations", JList []) ]
     | Raise _ => False
     end.
Proof. vm_compute. split; reflexivity. Qed.

(** ** Delivery attempts *)

Section DeliveryAttemptProperties.
Context {C : Collaborators}.

(** C6.  Building the payload of a delivery attempt raises the error about
    missing records when the attempt has no delivery, or its delivery has no
    payload or no webhook; and when these are set and the fixed data is
    assembled, it raises the size error whenever the limit is below the size
    of the serialised fixed data. *)
Theorem generate_event_delivery_attempt_payload_errors
    (attempt : EventDeliveryAttempt.t) (next_retry : option pystr)
    (bytes_limit : Z) :
  match EventDeliveryAttempt.delivery attempt with
  | None =>
      generate_event_delivery_attempt_payload attempt next_retry bytes_limit
        = Raise (ValueError (NotAssignedToDelivery (EventDeliveryAttempt.pk attempt)))
  | Some delivery =>
      match EventDelivery.payload delivery, EventDelivery.webhook delivery with
      | Some payload, Some webhook =>
          match event_delivery_attempt_data attempt delivery payload webhook
                  next_retry with
          | Ok data =>
              bytes_limit < len (_json_serialize data false) ->
              generate_event_delivery_attempt_payload attempt next_retry bytes_limit
                = Raise (ValueError (PayloadTooBig bytes_limit))
          | Raise e =>
              generate_event_delivery_attempt_payload attempt next_retry bytes_limit
                = Raise e
          end
      | _, _ =>
          generate_event_delivery_attempt_payload attempt next_retry bytes_limit
            = Raise (ValueError (NoPayloadOrWebhook (EventDelivery.pk delivery)))
      end
  end.
Proof.
  unfold generate_event_delivery_attempt_payload,
    generate_event_delivery_attempt_document.
  destruct (EventDeliveryAttempt.delivery attempt) as [delivery |]; [| reflexivity].
  destruct (EventDelivery.payload delivery) as [payload |];
    destruct (EventDelivery.webhook delivery) as [webhook |]; try reflexivity.
  destruct (event_delivery_attempt_data attempt delivery payload webhook next_retry)
    as [data | e]; [| reflexivity].
  intros Hsmall. cbn [bind].
  destruct (Z.ltb_spec (bytes_limit - len (_json_serialize data false)) 0);
    [reflexivity | lia].
Qed.

End DeliveryAttemptProperties.

(** Under a limit of 100 bytes the fixed data of the sample attempt does not
    fit. *)
Lemma generate_event_delivery_attempt_payload_errors_witness :
  generate_event_delivery_attempt_payload (C := plain_collaborators)
    sample_attempt None 100
  = Raise (ValueError (PayloadTooBig 100)).
Proof.
  pose proof (generate_event_delivery_attempt_payload_errors
                (C := plain_collaborators) sample_attempt None 100) as H.
  cbn [EventDeliveryAttempt.delivery sample_attempt EventDelivery.payload
         EventDelivery.webhook sample_delivery] in H.
  destruct (event_delivery_attempt_data sample_attempt sample_delivery
              (EventPayload.mk (str "[]")) sample_webhook None) as [data | e] eqn:E.
  - apply H. vm_compute in E. injection E as <-. vm_compute. reflexivity.
  - vm_compute in E. discriminate E.
Defined.

Example generate_event_delivery_attempt_payload_fits :
  raised (generate_event_delivery_attempt_payload (C := plain_collaborators)
            sample_attempt None 25000) = false
  /\ generate_event_delivery_attempt_payload (C := plain_collaborators)
       orphan_attempt None 25000
     = Raise (ValueError (NotAssignedToDelivery 6)).
Proof. vm_compute. split; reflexivity. Qed.

(** ** The gate and the reports *)

Lemma stmt_nested_ind (P : stmt -> Prop) :
  (forall request body, Forall P body -> P (with_report_api_call request body)) ->
  (forall body, Forall P body -> P (with_report_gql_operation body)) ->
  (forall response, P (assign_response response)) ->
  (forall f, P (assign_operation f)) ->
  (forall e, P (raise_ e)) ->
  (forall body handler, Forall P body -> Forall P handler ->
                        P (try_except body handler)) ->
  forall s, P s.
Proof.
  intros Hapi Hgql Hresp Hop Hraise Htry. fix IH 1.
  intros [request body | body | response | f | e | body handler].
  - apply Hapi. induction body as [| s body IHb]; constructor; [apply IH | exact IHb].
  - apply Hgql. induction body as [| s body IHb]; constructor; [apply IH | exact IHb].
  - apply Hresp.
  - apply Hop.
  - apply Hraise.
  - apply Htry.
    + induction body as [| s body IHb]; constructor; [apply IH | exact IHb].
    + induction handler as [| s handler IHb]; constructor; [apply IH | exact IHb].
Qed.

(** Steps that leave the caches, the clock and the buffer alone, and add at
    most events other than builds and pushes. *)
Ltac frame_step :=
  unfold gate_closed, endpoints_empty, no_fresh_active_entry, get_buffer_name,
    nothing_built, count in *;
  cbn in *; auto.

Section ReportingProperties.
Context {C : Collaborators}.

Lemma exec_with_report_api_call (request : HttpRequest.t) (body : list stmt)
    (w : World) :
  exec (with_report_api_call request body) w
  = match exec_block body (snd (report_api_call_enter request w)) with
    | (w2, None) =>
        (report_api_call_exit (snd (fst (report_api_call_enter request w))) w2, None)
    | (w2, Some e) => (w2, Some e)
    end.
Proof.
  cbn [exec]. destruct (report_api_call_enter request w) as [[r root] w1].
  reflexivity.
Qed.

Lemma exec_with_report_gql_operation (body : list stmt) (w : World) :
  exec (with_report_gql_operation body) w
  = match exec_block body (snd (report_gql_operation_enter w)) with
    | (w2, None) =>
        (report_gql_operation_exit (snd (fst (report_gql_operation_enter w))) w2, None)
    | (w2, Some e) => (w2, Some e)
    end.
Proof.
  cbn [exec]. destruct (report_gql_operation_enter w) as [[r root] w1].
  reflexivity.
Qed.

Lemma exec_try_except (body handler : list stmt) (w : World) :
  exec (try_except body handler) w
  = match exec_block body w with
    | (w1, None) => (w1, None)
    | (w1, Some _) => exec_block handler w1
    end.
Proof. reflexivity. Qed.

Lemma exec_block_cons (s : stmt) (body : list stmt) (w : World) :
  exec_block (s :: body) w
  = match exec s w with
    | (w1, None) => exec_block body w1
    | (w1, Some e) => (w1, Some e)
    end.
Proof. reflexivity. Qed.

Lemma exec_block_app (body rest : list stmt) (w : World) :
  exec_block (body ++ rest) w
  = match exec_block body w with
    | (w1, None) => exec_block rest w1
    | (w1, Some e) => (w1, Some e)
    end.
Proof.
  revert w. induction body as [| s body IH]; intros w; [reflexivity |].
  cbn [app]. rewrite !exec_block_cons.
  destruct (exec s w) as [w1 [e |]]; [reflexivity | apply IH].
Qed.

Lemma report_api_call_enter_root (request : HttpRequest.t) (w : World) :
  _context_api_call w = None ->
  report_api_call_enter request w
  = ((next_ref w, true),
     emit (Yielded true (next_ref w) true)
       (set_context_api_call (Some (next_ref w))
          (set_next_ref (S (next_ref w))
             (set_api_calls (<[next_ref w := ApiCall.init request]> (api_calls w))
                w)))).
Proof. intros H. unfold report_api_call_enter. rewrite H. reflexivity. Qed.

Lemma report_api_call_enter_nested (request : HttpRequest.t) (w : World) (r : nat) :
  _context_api_call w = Some r ->
  report_api_call_enter request w = ((r, false), emit (Yielded true r false) w).
Proof. intros H. unfold report_api_call_enter. rewrite H. rewrite H. reflexivity. Qed.

Lemma report_gql_operation_enter_root (w : World) :
  _context_gql_operation w = None ->
  report_gql_operation_enter w
  = ((next_ref w, true),
     emit (Yielded false (next_ref w) true)
       (set_context_gql_operation (Some (next_ref w))
          (set_next_ref (S (next_ref w))
             (set_operations
                (<[next_ref w := GraphQLOperationResponse_init]> (operations w))
                w)))).
Proof. intros H. unfold report_gql_operation_enter. rewrite H. reflexivity. Qed.

Lemma report_gql_operation_enter_nested (w : World) (o : nat) :
  _context_gql_operation w = Some o ->
  report_gql_operation_enter w = ((o, false), emit (Yielded false o false) w).
Proof. intros H. unfold report_gql_operation_enter. rewrite H. rewrite H. reflexivity. Qed.

(** The gate touches the two caches and nothing else. *)
Lemma active_webhooks_exists_frame (timeout : Z) (w : World) :
  let w' := snd (active_webhooks_exists timeout w) in
  settings w' = settings w /\ key_prefix w' = key_prefix w /\
  ambient w' = ambient w /\ webhooks_for_event w' = webhooks_for_event w /\
  monotonic w' = monotonic w /\ buffer_available w' = buffer_available w /\
  buffer w' = buffer w /\ events w' = events w /\ api_calls w' = api_calls w /\
  operations w' = operations w /\ next_ref w' = next_ref w /\
  _context_api_call w' = _context_api_call w /\
  _context_gql_operation w' = _context_gql_operation w.
Proof.
  unfold active_webhooks_exists, get_observability_webhooks.
  destruct (_active_webhooks_exists_cache w !! get_buffer_name w) as [[b t] |];
    [destruct (monotonic w - t <=? timeout) |];
    destruct (cache_get w); cbn; repeat split; reflexivity.
Qed.

(** With no endpoint and no fresh active entry the gate answers no, and
    leaves a state of the same kind. *)
Lemma active_webhooks_exists_closed (w : World) :
  endpoints_empty w -> no_fresh_active_entry w ->
  fst (active_webhooks_exists CACHE_TIMEOUT w) = false /\
  endpoints_empty (snd (active_webhooks_exists CACHE_TIMEOUT w)) /\
  no_fresh_active_entry (snd (active_webhooks_exists CACHE_TIMEOUT w)).
Proof.
  intros [Hreg Hcache] Hgate.
  assert (Hrefresh :
    forall cw, cache_get w = cw -> cw = None \/ cw = Some [] ->
    let r := (let '(webhooks, w0) := get_observability_webhooks w in
              (list_truthy webhooks,
               set_active_webhooks_exists_cache
                 (<[get_buffer_name w := (list_truthy webhooks, monotonic w0)]>
                    (_active_webhooks_exists_cache w0)) w0)) in
    fst r = false /\ endpoints_empty (snd r) /\ no_fresh_active_entry (snd r)).
  { intros cw Hcw Hor. unfold get_observability_webhooks. rewrite Hcw.
    destruct Hor as [-> | ->]; rewrite ?Hreg; cbn.
    - split; [reflexivity |]. split.
      + split; [exact Hreg |]. right. unfold cache_get, CACHE_TIMEOUT. cbn.
        destruct (Z.ltb_spec (monotonic w) (monotonic w + 120)); [reflexivity | lia].
      + intros ct. unfold get_buffer_name. cbn.
        rewrite lookup_insert_eq. discriminate.
    - split; [reflexivity |]. split.
      + split; [exact Hreg | right; exact Hcw].
      + intros ct. unfold get_buffer_name. cbn.
        rewrite lookup_insert_eq. discriminate. }
  unfold active_webhooks_exists.
  destruct (_active_webhooks_exists_cache w !! get_buffer_name w) as [[b t] |] eqn:E.
  - destruct (Z.leb_spec (monotonic w - t) CACHE_TIMEOUT) as [Hfresh | Hstale].
    + cbn. destruct b.
      * specialize (Hgate t E). lia.
      * split; [reflexivity |]. split; [split; assumption | exact Hgate].
    + apply (Hrefresh (cache_get w) eq_refl Hcache).
  - apply (Hrefresh (cache_get w) eq_refl Hcache).
Qed.

Lemma nothing_built_refl (w : World) : nothing_built w w.
Proof. repeat split. Qed.

Lemma nothing_built_trans (w1 w2 w3 : World) :
  nothing_built w1 w2 -> nothing_built w2 w3 -> nothing_built w1 w3.
Proof.
  intros (A1 & A2 & A3) (B1 & B2 & B3). repeat split; congruence.
Qed.

Lemma ApiCall_report_closed (self : nat) (w : World) :
  gate_closed w ->
  gate_closed (ApiCall_report self w) /\ nothing_built w (ApiCall_report self w).
Proof.
  intros Hc. unfold ApiCall_report.
  assert (H0 : gate_closed (emit (ReportCalled self) w)
               /\ nothing_built w (emit (ReportCalled self) w)) by frame_step.
  destruct H0 as [Hc0 Hn0].
  set (w0 := emit (ReportCalled self) w) in *.
  destruct (api_calls w0 !! self) as [api_call |]; [| auto].
  destruct (ApiCall._reported api_call || negb (OBSERVABILITY_ACTIVE (settings w0)));
    [auto |].
  destruct (negb (OBSERVABILITY_REPORT_ALL_API_CALLS (settings w0))
            && is_None (HttpRequest.app (ApiCall.request api_call))); [auto |].
  destruct (ApiCall.response api_call) as [response |].
  - set (w1 := set_api_calls _ w0).
    assert (H1 : gate_closed w1 /\ nothing_built w0 w1) by (subst w1; frame_step).
    destruct H1 as [[He1 Hg1] Hn1].
    destruct (active_webhooks_exists_closed w1 He1 Hg1) as (Hb & He2 & Hg2).
    pose proof (active_webhooks_exists_frame CACHE_TIMEOUT w1) as Hf.
    destruct (active_webhooks_exists CACHE_TIMEOUT w1) as [b w2].
    cbn [fst snd] in *. subst b.
    destruct Hf as (_ & Hk & _ & _ & _ & _ & Hbuf & Hev & _).
    split; [frame_step |].
    eapply nothing_built_trans; [exact Hn0 |].
    eapply nothing_built_trans; [exact Hn1 |].
    unfold nothing_built, count. cbn. rewrite Hbuf, Hev. auto.
  - split; [frame_step |].
    eapply nothing_built_trans; [exact Hn0 |]. frame_step.
Qed.

Lemma report_event_delivery_attempt_closed (attempt : EventDeliveryAttempt.t)
    (next_retry : option pystr) (w : World) :
  gate_closed w ->
  gate_closed (report_event_delivery_attempt attempt next_retry w) /\
  nothing_built w (report_event_delivery_attempt attempt next_retry w).
Proof.
  intros Hc. unfold report_event_delivery_attempt.
  destruct (negb (OBSERVABILITY_ACTIVE (settings w)));
    [split; [exact Hc | apply nothing_built_refl] |].
  set (w1 := match EventDeliveryAttempt.delivery attempt with
             | Some _ => w
             | None => logger_error _ w
             end).
  assert (H1 : gate_closed w1 /\ nothing_built w w1).
  { subst w1. destruct (EventDeliveryAttempt.delivery attempt); frame_step. }
  destruct H1 as [[He1 Hg1] Hn1].
  destruct (active_webhooks_exists_closed w1 He1 Hg1) as (Hb & He2 & Hg2).
  pose proof (active_webhooks_exists_frame CACHE_TIMEOUT w1) as Hf.
  destruct (active_webhooks_exists CACHE_TIMEOUT w1) as [b w2].
  cbn [fst snd] in *. subst b.
  destruct Hf as (_ & Hk & _ & _ & _ & _ & Hbuf & Hev & _).
  split; [frame_step |].
  eapply nothing_built_trans; [exact Hn1 |].
  unfold nothing_built, count. cbn. rewrite Hbuf, Hev. auto.
Qed.

Lemma exec_block_closed (body : list stmt) :
  Forall (fun s => forall w, gate_closed w ->
                     gate_closed (fst (exec s w))
                     /\ nothing_built w (fst (exec s w))) body ->
  forall w, gate_closed w ->
    gate_closed (fst (exec_block body w))
    /\ nothing_built w (fst (exec_block body w)).
Proof.
  induction 1 as [| s body Hs _ IH]; intros w Hc.
  - split; [exact Hc | apply nothing_built_refl].
  - rewrite exec_block_cons. destruct (Hs w Hc) as [Hc1 Hn1].
    destruct (exec s w) as [w1 [e |]]; cbn [fst] in *.
    + split; [exact Hc1 | exact Hn1].
    + destruct (IH _ Hc1) as [Hc2 Hn2].
      split; [exact Hc2 |]. eapply nothing_built_trans; eassumption.
Qed.

Lemma exec_closed (s : stmt) (w : World) :
  gate_closed w ->
  gate_closed (fst (exec s w)) /\ nothing_built w (fst (exec s w)).
Proof.
  revert w.
  induction s as [request body IH | body IH | response | f | e | body handler IHb IHh]
    using stmt_nested_ind; intros w Hc.
  - rewrite exec_with_report_api_call.
    assert (H1 : gate_closed (snd (report_api_call_enter request w))
                 /\ nothing_built w (snd (report_api_call_enter request w))).
    { clear IH. destruct (_context_api_call w) as [r |] eqn:E.
      - rewrite (report_api_call_enter_nested request w r E). frame_step.
      - rewrite (report_api_call_enter_root request w E). frame_step. }
    destruct H1 as [Hc1 Hn1].
    destruct (exec_block_closed body IH _ Hc1) as [Hc2 Hn2].
    destruct (exec_block body _) as [w2 [e |]]; cbn [fst] in *;
      [split; [exact Hc2 | eapply nothing_built_trans; eassumption] |].
    unfold report_api_call_exit.
    destruct (snd (fst (report_api_call_enter request w)));
      [| split; [exact Hc2 | eapply nothing_built_trans; eassumption]].
    destruct (_context_api_call w2) as [ref |];
      [| split; [exact Hc2 | eapply nothing_built_trans; eassumption]].
    destruct (ApiCall_report_closed ref w2 Hc2) as [Hc3 Hn3].
    split; [clear IH; frame_step |].
    eapply nothing_built_trans; [exact Hn1 |].
    eapply nothing_built_trans; [exact Hn2 |].
    eapply nothing_built_trans; [exact Hn3 |]. clear IH. frame_step.
  - rewrite exec_with_report_gql_operation.
    assert (H1 : gate_closed (snd (report_gql_operation_enter w))
                 /\ nothing_built w (snd (report_gql_operation_enter w))).
    { clear IH. destruct (_context_gql_operation w) as [o |] eqn:E.
      - rewrite (report_gql_operation_enter_nested w o E). frame_step.
      - rewrite (report_gql_operation_enter_root w E). frame_step. }
    destruct H1 as [Hc1 Hn1].
    destruct (exec_block_closed body IH _ Hc1) as [Hc2 Hn2].
    destruct (exec_block body _) as [w2 [e |]]; cbn [fst] in *;
      [split; [exact Hc2 | eapply nothing_built_trans; eassumption] |].
    assert (H3 : forall root, gate_closed (report_gql_operation_exit root w2)
                 /\ nothing_built w2 (report_gql_operation_exit root w2)).
    { clear IH Hn2 Hn1 Hc1 Hc. intros root.
      unfold report_gql_operation_exit, append_operation.
      destruct root; [| frame_step].
      destruct (_context_gql_operation w2); [| frame_step].
      destruct (_context_api_call w2) as [a |]; [| frame_step].
      destruct (api_calls w2 !! a); frame_step. }
    destruct (H3 (snd (fst (report_gql_operation_enter w)))) as [Hc3 Hn3].
    split; [exact Hc3 |].
    eapply nothing_built_trans; [exact Hn1 |].
    eapply nothing_built_trans; eassumption.
  - cbn [exec fst]. unfold attach_response.
    destruct (_context_api_call w) as [ref |]; [| frame_step].
    destruct (api_calls w !! ref); frame_step.
  - cbn [exec fst]. unfold update_operation.
    destruct (_context_gql_operation w) as [ref |]; [| frame_step].
    destruct (operations w !! ref); frame_step.
  - cbn [exec fst]. split; [exact Hc | apply nothing_built_refl].
  - rewrite exec_try_except.
    destruct (exec_block_closed body IHb w Hc) as [Hc1 Hn1].
    destruct (exec_block body w) as [w1 [e |]]; cbn [fst] in *;
      [| split; [exact Hc1 | exact Hn1]].
    destruct (exec_block_closed handler IHh w1 Hc1) as [Hc2 Hn2].
    split; [exact Hc2 |]. eapply nothing_built_trans; eassumption.
Qed.

(** Time passing leaves a shared cache that misses or holds the empty list
    in this condition: an entry can only run out. *)
Lemma endpoints_empty_tick (seconds : N) (w : World) :
  endpoints_empty w ->
  endpoints_empty (set_monotonic (monotonic w + Z.of_N seconds) w).
Proof.
  unfold endpoints_empty, cache_get. cbn. intros [Hr Hc]. split; [exact Hr |].
  destruct (cache_webhooks w) as [[l e] |]; [| left; reflexivity].
  destruct (Z.ltb_spec (monotonic w) e), (Z.ltb_spec (monotonic w + Z.of_N seconds) e);
    auto; lia.
Qed.

Lemma step_closed (a : action) (w : World) :
  keeps_registry_empty a -> gate_closed w ->
  gate_closed (step a w) /\ nothing_built w (step a w).
Proof.
  intros Ha Hc. destruct a as [self | attempt next_retry | s | seconds | | webhooks |];
    cbn [step].
  - apply ApiCall_report_closed, Hc.
  - apply report_event_delivery_attempt_closed, Hc.
  - apply exec_closed, Hc.
  - destruct Hc as [He Hg]. split; [| repeat split].
    split; [apply endpoints_empty_tick, He |].
    intros ct Hct. specialize (Hg ct Hct). cbn. lia.
  - destruct Hc as [[Hr _] Hg]. split; [| repeat split].
    split; [split; [exact Hr | left; reflexivity] | exact Hg].
  - cbn in Ha. subst webhooks. destruct Hc as [[_ Hcw] Hg].
    split; [| repeat split]. split; [split; [reflexivity | exact Hcw] | exact Hg].
  - destruct Hc as [He _]. split; [| repeat split]. split; [exact He |].
    intros ct Hct. cbn in Hct. rewrite lookup_empty in Hct. discriminate.
Qed.

(** C4 (amended).  With no endpoint registered or cached, and no fresh
    active entry left in the local gate cache, nothing is built and nothing
    is pushed, whatever is reported and however often, while time passes,
    the shared cache expires or the local gate cache is cleared. *)
Theorem gate_short_circuit (actions : list action) (w : World) :
  endpoints_empty w -> no_fresh_active_entry w ->
  Forall keeps_registry_empty actions ->
  buffer (run actions w) = buffer w /\
  count is_PayloadGenerated (run actions w) = count is_PayloadGenerated w /\
  count is_BufferPut (run actions w) = count is_BufferPut w.
Proof.
  intros He Hg Hk. change (nothing_built w (run actions w)).
  assert (Hc : gate_closed w) by (split; assumption). clear He Hg.
  revert w Hc. induction Hk as [| a actions Ha _ IH]; intros w Hc.
  - apply nothing_built_refl.
  - destruct (step_closed a w Ha Hc) as [Hc1 Hn1].
    eapply nothing_built_trans; [exact Hn1 |]. apply IH, Hc1.
Qed.

End ReportingProperties.

Lemma gate_short_circuit_witness :
  let actions :=
    [ call_report_event_delivery_attempt sample_attempt None;
      tick 200;
      serve (report_view sample_request [] sample_response);
      shared_cache_expires;
      clear_gate_cache;
      call_report_event_delivery_attempt sample_attempt None ] in
  buffer (run (C := plain_collaborators) actions idle_world) = buffer idle_world /\
  count is_PayloadGenerated (run (C := plain_collaborators) actions idle_world)
    = count is_PayloadGenerated idle_world /\
  count is_BufferPut (run (C := plain_collaborators) actions idle_world)
    = count is_BufferPut idle_world.
Proof.
  apply (gate_short_circuit (C := plain_collaborators)).
  - split; [reflexivity | left; reflexivity].
  - intros ct H. cbn in H. rewrite lookup_empty in H. discriminate H.
  - repeat constructor.
Defined.

(** C4, as stated, fails while a fresh entry of the local gate cache still
    says active.  The shared cache holds the list with one endpoint.  After
    100 seconds an attempt is reported: the gate reads the shared list and
    records itself as active.  Twenty seconds later the webhook is removed
    and the shared entry expires, so that no endpoint is registered or
    cached.  Thirty seconds after that the local entry is 50 seconds old,
    and a second attempt is still built and pushed. *)
Lemma stale_gate_still_builds :
  let w1 :=
    run (C := plain_collaborators)
      [ tick 100;
        call_report_event_delivery_attempt sample_attempt None;
        tick 20;
        registry_becomes [];
        shared_cache_expires;
        tick 30 ] warm_world in
  let w2 :=
    run (C := plain_collaborators)
      [ call_report_event_delivery_attempt sample_attempt None ] w1 in
  webhooks_for_event w1 = [] /\ cache_webhooks w1 = None /\
  count is_PayloadGenerated w2 = S (count is_PayloadGenerated w1) /\
  length (buffer w2) = S (length (buffer w1)).
Proof. vm_compute. repeat split; reflexivity. Qed.

(** ** Reporting once *)

Section ReportOnce.
Context {C : Collaborators}.

(** The answer of the gate does not depend on the events recorded or on the
    accumulators. *)
Lemma active_webhooks_exists_emit (timeout : Z) (e : Event) (w : World) :
  active_webhooks_exists timeout (emit e w)
  = (fst (active_webhooks_exists timeout w),
     emit e (snd (active_webhooks_exists timeout w))).
Proof.
  unfold active_webhooks_exists, get_observability_webhooks, get_buffer_name,
    cache_get.
  cbn.
  destruct (_active_webhooks_exists_cache w !! _) as [[b t] |];
    [destruct (monotonic w - t <=? timeout) |];
    (destruct (cache_webhooks w) as [[l x] |]; [destruct (monotonic w <? x) |]);
    reflexivity.
Qed.

Lemma active_webhooks_exists_set_api_calls (timeout : Z)
    (m : gmap nat ApiCall.t) (w : World) :
  active_webhooks_exists timeout (set_api_calls m w)
  = (fst (active_webhooks_exists timeout w),
     set_api_calls m (snd (active_webhooks_exists timeout w))).
Proof.
  unfold active_webhooks_exists, get_observability_webhooks, get_buffer_name,
    cache_get.
  cbn.
  destruct (_active_webhooks_exists_cache w !! _) as [[b t] |];
    [destruct (monotonic w - t <=? timeout) |];
    (destruct (cache_webhooks w) as [[l x] |]; [destruct (monotonic w <? x) |]);
    reflexivity.
Qed.

Lemma count_emit (p : Event -> bool) (e : Event) (w : World) :
  count p (emit e w) = ((if p e then 1 else 0) + count p w)%nat.
Proof. unfold count. cbn. destruct (p e); reflexivity. Qed.

(** The call of [report] that goes through: the accumulator is marked, the
    gate is asked once, and if it is open the payload is built and put. *)
Lemma ApiCall_report_finalize (self : nat) (api_call : ApiCall.t)
    (response : HttpResponse.t) (w : World) :
  api_calls w !! self = Some api_call ->
  ApiCall._reported api_call = false ->
  ApiCall.response api_call = Some response ->
  OBSERVABILITY_ACTIVE (settings w) = true ->
  OBSERVABILITY_REPORT_ALL_API_CALLS (settings w) = true
  \/ is_None (HttpRequest.app (ApiCall.request api_call)) = false ->
  let is_active := fst (active_webhooks_exists CACHE_TIMEOUT w) in
  let w' := ApiCall_report self w in
  let outcome :=
    generate_api_call_payload (ambient w) (ApiCall.request api_call) response
      (deref_operations w (ApiCall.gql_operations api_call))
      (OBSERVABILITY_MAX_PAYLOAD_SIZE (settings w)) in
  api_calls w'
    = <[self := ApiCall.mk (ApiCall.gql_operations api_call) (Some response) true
                  (ApiCall.request api_call)]> (api_calls w) /\
  settings w' = settings w /\
  count is_ReportCalled w' = S (count is_ReportCalled w) /\
  count is_GateChecked w' = S (count is_GateChecked w) /\
  count is_PayloadGenerated w'
    = ((if is_active then 1 else 0) + count is_PayloadGenerated w)%nat /\
  buffer w'
    = buffer w ++ (if is_active && buffer_available w
                   then match outcome with Ok payload => [payload] | Raise _ => [] end
                   else []).
Proof.
  intros Hself Hrep Hresp Hact Happ. cbv zeta.
  unfold ApiCall_report. cbn [api_calls settings emit].
  rewrite Hself, Hrep, Hact, Hresp. cbn [orb negb].
  assert (Hgo : negb (OBSERVABILITY_REPORT_ALL_API_CALLS (settings w))
                && is_None (HttpRequest.app (ApiCall.request api_call)) = false).
  { destruct Happ as [-> | ->]; [reflexivity | apply andb_false_r]. }
  rewrite Hgo.
  rewrite active_webhooks_exists_set_api_calls, active_webhooks_exists_emit.
  pose proof (active_webhooks_exists_frame CACHE_TIMEOUT w) as Hf.
  cbv zeta in Hf.
  destruct (active_webhooks_exists CACHE_TIMEOUT w) as [b w1]. cbn [fst snd] in *.
  destruct Hf as (Hset & _ & Hamb & _ & _ & Hav & Hbuf & Hev & Hapi & Hops & _).
  unfold deref_operations, put_to_buffer, logger_error, count.
  cbn [ambient settings operations buffer_available buffer events api_calls
         emit set_api_calls set_buffer].
  rewrite Hset, Hamb, Hops, Hav.
  destruct b; cbn [andb].
  - destruct (generate_api_call_payload _ _ _ _ _) as [payload | e];
      [destruct (buffer_available w) |];
      cbn [ambient settings operations buffer_available buffer events api_calls
             emit set_api_calls set_buffer];
      rewrite ?Hbuf, ?Hev, ?app_nil_r; cbn;
      repeat split; auto; destruct (buffer_available w); rewrite ?app_nil_r;
      reflexivity.
  - cbn [ambient settings operations buffer_available buffer events api_calls
           emit set_api_calls set_buffer].
    rewrite ?Hbuf, ?Hev, ?app_nil_r; cbn; repeat split; auto.
Qed.

(** A call of [report] on a reported accumulator does nothing but be
    called. *)
Lemma ApiCall_report_reported (self : nat) (api_call : ApiCall.t) (w : World) :
  api_calls w !! self = Some api_call ->
  ApiCall._reported api_call = true ->
  ApiCall_report self w = emit (ReportCalled self) w.
Proof.
  intros Hself Hrep. unfold ApiCall_report. cbn [api_calls emit].
  rewrite Hself, Hrep. reflexivity.
Qed.

(** C10.  A call of [report] that returns because no response is attached
    logs this and leaves the accumulator unreported.  Once a response is
    attached, the next call asks the gate once and, if the gate is open,
    builds the payload once and puts it to the buffer; the call after that
    does nothing more. *)
Theorem report_without_response_is_not_consumed (self : nat)
    (api_call : ApiCall.t) (response : HttpResponse.t) (w : World) :
  api_calls w !! self = Some api_call ->
  ApiCall.response api_call = None ->
  ApiCall._reported api_call = false ->
  OBSERVABILITY_ACTIVE (settings w) = true ->
  OBSERVABILITY_REPORT_ALL_API_CALLS (settings w) = true
  \/ is_None (HttpRequest.app (ApiCall.request api_call)) = false ->
  let w1 := ApiCall_report self w in
  let attached :=
    ApiCall.mk (ApiCall.gql_operations api_call) (Some response) false
      (ApiCall.request api_call) in
  let w2 := set_api_calls (<[self := attached]> (api_calls w1)) w1 in
  let w3 := ApiCall_report self w2 in
  let w4 := ApiCall_report self w3 in
  let is_active := fst (active_webhooks_exists CACHE_TIMEOUT w) in
  let outcome :=
    generate_api_call_payload (ambient w) (ApiCall.request api_call) response
      (deref_operations w (ApiCall.gql_operations api_call))
      (OBSERVABILITY_MAX_PAYLOAD_SIZE (settings w)) in
  (api_calls w1 = api_calls w /\ buffer w1 = buffer w /\
   events w1 = Logged HttpResponseNotProvided :: ReportCalled self :: events w)
  /\
  (count is_GateChecked w3 = S (count is_GateChecked w) /\
   count is_PayloadGenerated w3
     = ((if is_active then 1 else 0) + count is_PayloadGenerated w)%nat /\
   buffer w3
     = buffer w ++ (if is_active && buffer_available w
                    then match outcome with Ok payload => [payload] | Raise _ => [] end
                    else []))
  /\
  (count is_GateChecked w4 = count is_GateChecked w3 /\
   count is_PayloadGenerated w4 = count is_PayloadGenerated w3 /\
   buffer w4 = buffer w3).
Proof.
  intros Hself Hresp Hrep Hact Happ. cbv zeta.
  assert (Hgo : negb (OBSERVABILITY_REPORT_ALL_API_CALLS (settings w))
                && is_None (HttpRequest.app (ApiCall.request api_call)) = false).
  { destruct Happ as [-> | ->]; [reflexivity | apply andb_false_r]. }
  assert (H1 : ApiCall_report self w
               = logger_error HttpResponseNotProvided (emit (ReportCalled self) w)).
  { unfold ApiCall_report. cbn [api_calls settings emit].
    rewrite Hself, Hrep, Hact, Hresp, Hgo. reflexivity. }
  rewrite H1.
  set (w1 := logger_error HttpResponseNotProvided (emit (ReportCalled self) w)).
  set (attached := ApiCall.mk (ApiCall.gql_operations api_call) (Some response)
                     false (ApiCall.request api_call)).
  set (w2 := set_api_calls (<[self := attached]> (api_calls w1)) w1).
  split; [repeat split |].
  destruct (ApiCall_report_finalize self attached response w2)
    as (Hapi3 & Hset3 & _ & Hg3 & Hb3 & Hbuf3);
    [apply lookup_insert_eq | reflexivity | reflexivity | exact Hact | exact Happ |].
  assert (Hgate : fst (active_webhooks_exists CACHE_TIMEOUT w2)
                  = fst (active_webhooks_exists CACHE_TIMEOUT w)).
  { subst w2 w1. unfold logger_error.
    rewrite active_webhooks_exists_set_api_calls, !active_webhooks_exists_emit.
    reflexivity. }
  rewrite Hgate in Hb3, Hbuf3.
  split.
  - split; [exact Hg3 |]. split; [exact Hb3 | exact Hbuf3].
  - rewrite (ApiCall_report_reported self
               (ApiCall.mk (ApiCall.gql_operations attached) (Some response) true
                  (ApiCall.request attached)) (ApiCall_report self w2)).
    + repeat split.
    + rewrite Hapi3. apply lookup_insert_eq.
    + reflexivity.
Qed.

End ReportOnce.

Lemma report_without_response_is_not_consumed_witness :
  let w :=
    set_api_calls (<[0%nat := ApiCall.init sample_request]> ∅) initial_world in
  let w1 := ApiCall_report (C := plain_collaborators) 0 w in
  let w2 :=
    set_api_calls
      (<[0%nat := ApiCall.mk [] (Some sample_response) false sample_request]>
         (api_calls w1)) w1 in
  let w3 := ApiCall_report (C := plain_collaborators) 0 w2 in
  let w4 := ApiCall_report (C := plain_collaborators) 0 w3 in
  events w1 = [Logged HttpResponseNotProvided; ReportCalled 0] /\
  buffer w1 = [] /\
  count is_GateChecked w3 = 1%nat /\ count is_PayloadGenerated w3 = 1%nat /\
  length (buffer w3) = 1%nat /\ buffer w4 = buffer w3.
Proof.
  cbv zeta.
  destruct (report_without_response_is_not_consumed (C := plain_collaborators)
              0%nat (ApiCall.init sample_request) sample_response
              (set_api_calls (<[0%nat := ApiCall.init sample_request]> ∅)
                 initial_world))
    as ((_ & Hb1 & He1) & (Hg3 & Hp3 & Hb3) & (_ & _ & Hb4)).
  - apply lookup_insert_eq.
  - reflexivity.
  - reflexivity.
  - reflexivity.
  - right. reflexivity.
  - cbn [ApiCall.gql_operations ApiCall.request ApiCall.init] in *.
    split; [exact He1 |]. split; [exact Hb1 |].
    split; [exact Hg3 |]. split; [exact Hp3 |].
    split; [rewrite Hb3; vm_compute; reflexivity | exact Hb4].
Defined.

(** ** An attempt without a delivery *)

Section OrphanAttempt.
Context {C : Collaborators}.

(** After logging that the attempt is not assigned to a delivery, the
    function goes on: the gate is asked, and behind an open gate the builder
    is called, raises, and the event is logged as dropped a second time. *)
Lemma report_event_delivery_attempt_without_delivery
    (attempt : EventDeliveryAttempt.t) (next_retry : option pystr) (w : World) :
  EventDeliveryAttempt.delivery attempt = None ->
  OBSERVABILITY_ACTIVE (settings w) = true ->
  let pk := EventDeliveryAttempt.pk attempt in
  let is_active := fst (active_webhooks_exists CACHE_TIMEOUT w) in
  let w' := report_event_delivery_attempt attempt next_retry w in
  events w'
  = (if is_active
     then [ Logged (EventDropped (ValueError (NotAssignedToDelivery pk)));
            PayloadGenerated (Raise (ValueError (NotAssignedToDelivery pk))) ]
     else [])
    ++ GateChecked is_active :: Logged (NotAssignedToDeliveryDropped pk) :: events w
  /\ buffer w' = buffer w.
Proof.
  intros Hd Hact. cbv zeta. unfold report_event_delivery_attempt.
  rewrite Hact, Hd. cbn [negb]. unfold logger_error.
  rewrite active_webhooks_exists_emit.
  pose proof (active_webhooks_exists_frame CACHE_TIMEOUT w) as Hf. cbv zeta in Hf.
  destruct (active_webhooks_exists CACHE_TIMEOUT w) as [b w1]. cbn [fst snd] in *.
  destruct Hf as (_ & _ & _ & _ & _ & _ & Hbuf & Hev & _).
  destruct b.
  - unfold put_to_buffer, generate_event_delivery_attempt_payload,
      generate_event_delivery_attempt_document.
    rewrite Hd. cbn. rewrite Hbuf, Hev. split; reflexivity.
  - cbn. rewrite Hbuf, Hev. split; reflexivity.
Qed.

End OrphanAttempt.

(** C8 (the code departs from it).  Reporting an attempt that has no delivery
    logs the drop and raises nothing, but does not stop there: with a webhook
    registered the gate is asked and answers yes, the payload builder is
    called and raises, and the drop is logged once more. *)
Theorem report_event_delivery_attempt_orphan_goes_on :
  let w :=
    report_event_delivery_attempt (C := plain_collaborators) orphan_attempt None
      initial_world in
  events w
  = [ Logged (EventDropped (ValueError (NotAssignedToDelivery 6)));
      PayloadGenerated (Raise (ValueError (NotAssignedToDelivery 6)));
      GateChecked true;
      Logged (NotAssignedToDeliveryDropped 6) ]
  /\ count is_GateChecked w = 1%nat /\ count is_PayloadGenerated w = 1%nat
  /\ buffer w = [].
Proof. vm_compute. repeat split; reflexivity. Qed.

(** ** Scopes *)

Section ScopeProperties.
Context {C : Collaborators}.


Lemma report_event_inside_api_call (r : nat) (d : list Event) :
  Forall report_event d -> Forall (inside_api_call r) d.
Proof.
  intros H. eapply Forall_impl; [exact H |]. intros []; cbn; tauto.
Qed.


















End ScopeProperties.



(** It fails as well when an exception leaves the body of the owner.  A view
    raises under [report_view]: [report] is not called and the accumulator
    stays in the context.  The next request of the same context is served
    with this accumulator: its entry does not own it, its operation is
    appended to it, and it is never reported. *)
Example raising_body_leaves_stale_accumulator :
  let w1 :=
    run (C := plain_collaborators)
      [ serve (report_view sample_request [raise_ AttributeError] sample_response) ]
      warm_world in
  let w2 :=
    run (C := plain_collaborators)
      [ serve (report_view sample_request [with_report_gql_operation []]
                 sample_response) ] w1 in
  snd (exec (C := plain_collaborators)
         (report_view sample_request [raise_ AttributeError] sample_response)
         warm_world) = Some AttributeError /\
  count is_ReportCalled w1 = 0%nat /\ _context_api_call w1 = Some 0%nat /\
  fst (report_api_call_enter sample_request w1) = (0%nat, false) /\
  (ApiCall.gql_operations <$> api_calls w2 !! 0%nat) = Some [1%nat] /\
  count is_ReportCalled w2 = 0%nat /\ buffer w2 = [] /\
  _context_api_call w2 = Some 0%nat.
Proof. vm_compute. repeat split; reflexivity. Qed.

(** [test_report_gql_operation_scope]: two operation scopes in a row inside
    one API-call scope, the first entered twice, append two operations in
    the order of entry. *)
Example report_gql_operation_scope_test :
  let w :=
    fst (exec (C := plain_collaborators)
           (with_report_api_call sample_request
              [ with_report_gql_operation [ with_report_gql_operation [] ];
                with_report_gql_operation [] ])
           initial_world) in
  (ApiCall.gql_operations <$> api_calls w !! 0%nat) = Some [1%nat; 2%nat] /\
  count is_Appended w = 2%nat /\ count is_ReportCalled w = 1%nat.
Proof. vm_compute. repeat split; reflexivity. Qed.

(** [test_api_call_report]: two calls of [report] on an accumulator with a
    response put one event to the buffer. *)
Example api_call_report_test :
  let w :=
    set_api_calls
      (<[0%nat := ApiCall.mk [] (Some sample_response) false sample_request]> ∅)
      initial_world in
  let w' :=
    run (C := plain_collaborators) [call_report 0%nat; call_report 0%nat] w in
  count is_BufferPut w' = 1%nat /\ length (buffer w') = 1%nat.
Proof. vm_compute. split; reflexivity. Qed.

(** * Further properties *)

(** ** Truncation: what the scan returns and where it stops *)

Lemma markup_sum_app (a b : pystr) :
  markup_sum (a ++ b) = markup_sum a + markup_sum b.
Proof.
  induction a as [| c a IH]; simpl; [reflexivity |]. rewrite IH. lia.
Qed.

(** The scan from index [len pre] with [a] bytes added so far: the text it
    returns, its flag, the bytes it adds, why it stopped, and what it checked
    at every escaped character it kept. *)
Lemma truncate_loop_stop (r pre : pystr) (a i limit : Z) :
  0 <= a -> len (pre ++ r) <= i ->
  exists r1 r2,
    r = r1 ++ r2 /\
    truncate_loop (finditer_from (len pre) r) (pre ++ r) i limit a
      = mkJsonTruncText (pre ++ r1) (len (pre ++ r1) <? i) (a + markup_sum r1) /\
    (r2 = []
     \/ len pre + len r1 + (a + markup_sum r1) = limit
     \/ exists c r2', r2 = c :: r2' /\ ESCAPE_ASCII c = true /\
          limit < len pre + len r1 + 1 + (a + markup_sum r1 + (json_char_len c - 1)))
    /\
    (forall u c v, r1 = u ++ c :: v -> ESCAPE_ASCII c = true ->
       len pre + len u + 1 + (a + markup_sum (u ++ [c])) <= limit /\
       (v <> [] -> len pre + len u + 1 + (a + markup_sum (u ++ [c])) < limit)).
Proof.
  revert pre a. induction r as [| c r IH]; intros pre a Ha Hi.
  - exists [], []. simpl. rewrite app_nil_r, Z.add_0_r.
    unfold JsonTruncText_init. rewrite Z.max_r by lia.
    split; [reflexivity |]. split; [reflexivity |]. split; [left; reflexivity |].
    intros u c v E; destruct u; discriminate E.
  - assert (Hstep : forall a', 0 <= a' ->
      exists r1 r2,
        r = r1 ++ r2 /\
        truncate_loop (finditer_from (len pre + 1) r) (pre ++ c :: r) i limit a'
          = mkJsonTruncText (pre ++ c :: r1) (len (pre ++ c :: r1) <? i)
              (a' + markup_sum r1) /\
        (r2 = []
         \/ len pre + 1 + len r1 + (a' + markup_sum r1) = limit
         \/ exists c' r2', r2 = c' :: r2' /\ ESCAPE_ASCII c' = true /\
              limit < len pre + 1 + len r1 + 1
                      + (a' + markup_sum r1 + (json_char_len c' - 1)))
        /\
        (forall u c' v, r1 = u ++ c' :: v -> ESCAPE_ASCII c' = true ->
           len pre + 1 + len u + 1 + (a' + markup_sum (u ++ [c'])) <= limit /\
           (v <> [] ->
            len pre + 1 + len u + 1 + (a' + markup_sum (u ++ [c'])) < limit))).
    { intros a' Ha'.
      destruct (IH (pre ++ [c]) a' Ha') as (r1 & r2 & E & T & S & I).
      { rewrite <- app_assoc. exact Hi. }
      rewrite len_app in T, S, I. change (len [c]) with 1 in *.
      rewrite <- !app_assoc in T. simpl in T.
      exists r1, r2. auto. }
    simpl finditer_from. destruct (ESCAPE_ASCII c) eqn:Hc.
    + pose proof (json_char_len_escaped c Hc) as Hj.
      cbn [truncate_loop m_start m_end m_group].
      destruct (Z.gtb_spec (len pre + 1 + (a + (json_char_len c - 1))) limit)
        as [Hgt | Hle].
      * exists [], (c :: r). simpl. rewrite slice_to_prefix, app_nil_r.
        unfold JsonTruncText_init. rewrite Z.max_r by lia.
        assert (Hlt : (len pre <? i) = true).
        { apply Z.ltb_lt. rewrite len_app, len_cons in Hi.
          pose proof (len_nonneg r). lia. }
        rewrite Hlt. change (len []) with 0.
        split; [reflexivity |]. split; [f_equal; lia |]. split.
        -- right. right. exists c, r. repeat split; auto. lia.
        -- intros u c' v E; destruct u; discriminate E.
      * destruct (Z.eqb_spec (len pre + 1 + (a + (json_char_len c - 1))) limit)
          as [Heq | Hne].
        -- exists [c], r. simpl. rewrite Hc.
           assert (Hs1 : slice_to (pre ++ c :: r) (len pre + 1) = pre ++ [c]).
           { replace (pre ++ c :: r) with ((pre ++ [c]) ++ r)
               by (rewrite <- app_assoc; reflexivity).
             replace (len pre + 1) with (len (pre ++ [c]))
               by (rewrite len_app; reflexivity).
             apply slice_to_prefix. }
           rewrite Hs1. unfold JsonTruncText_init. rewrite Z.max_r by lia.
           change (len [c]) with 1.
           split; [reflexivity |]. split; [f_equal; lia |]. split.
           ++ right. left. lia.
           ++ intros u c' v E Hc'. destruct u as [| x u].
              ** injection E as <- <-. simpl. rewrite Hc.
                 change (len []) with 0. split; [lia | congruence].
              ** injection E as _ E. destruct u; discriminate E.
        -- destruct (Hstep (a + (json_char_len c - 1)) ltac:(lia))
             as (r1 & r2 & E & T & S & I).
           exists (c :: r1), r2. simpl. rewrite Hc.
           split; [rewrite E; reflexivity |].
           split; [rewrite T; f_equal; lia |].
           rewrite len_cons. split.
           ++ destruct S as [S | [S | (c' & r2' & S1 & S2 & S3)]].
              ** left. exact S.
              ** right. left. lia.
              ** right. right. exists c', r2'. repeat split; auto. lia.
           ++ intros u c' v Eu Hc'. destruct u as [| x u].
              ** injection Eu as <- <-. simpl. rewrite Hc.
                 change (len []) with 0. split; [lia | intros _; lia].
              ** injection Eu as <- Eu. specialize (I u c' v Eu Hc').
                 rewrite len_cons. simpl markup_sum. rewrite Hc.
                 destruct I as [I1 I2].
                 split; [lia | intros Hv; specialize (I2 Hv); lia].
    + destruct (Hstep a Ha) as (r1 & r2 & E & T & S & I).
      exists (c :: r1), r2. simpl. rewrite Hc.
      split; [rewrite E; reflexivity |].
      split; [rewrite T; f_equal; lia |].
      rewrite len_cons. split.
      * destruct S as [S | [S | (c' & r2' & S1 & S2 & S3)]].
        -- left. exact S.
        -- right. left. lia.
        -- right. right. exists c', r2'. repeat split; auto. lia.
      * intros u c' v Eu Hc'. destruct u as [| x u].
        -- injection Eu as <- <-. congruence.
        -- injection Eu as <- Eu. specialize (I u c' v Eu Hc').
           rewrite len_cons. simpl markup_sum. rewrite Hc.
                 destruct I as [I1 I2].
                 split; [lia | intros Hv; specialize (I2 Hv); lia].
Qed.

Lemma slice_to_len {A} (s : list A) (k : Z) :
  0 <= k -> len (slice_to s k) = Z.min k (len s).
Proof.
  intros H. unfold slice_to. destruct (Z.ltb_spec k 0); [lia |].
  unfold len. rewrite length_firstn. lia.
Qed.

(** [truncate] as a whole: with [n] the clamped limit, the text is a prefix
    [r1] of the first [n] characters, the flag says whether it is shorter
    than the source, and the added bytes are its escape overhead. *)
Lemma truncate_stop (s : pystr) (limit : Z) :
  let n := Z.max limit 0 in
  exists r1 r2,
    slice_to s n = r1 ++ r2 /\
    truncate s limit = mkJsonTruncText r1 (len r1 <? len s) (markup_sum r1) /\
    (r2 = []
     \/ len r1 + markup_sum r1 = n
     \/ exists c r2', r2 = c :: r2' /\ ESCAPE_ASCII c = true /\
          n < len r1 + 1 + (markup_sum r1 + (json_char_len c - 1)))
    /\
    (forall u c v, r1 = u ++ c :: v -> ESCAPE_ASCII c = true ->
       len u + 1 + markup_sum (u ++ [c]) <= n /\
       (v <> [] -> len u + 1 + markup_sum (u ++ [c]) < n)).
Proof.
  cbv zeta. unfold truncate, finditer.
  pose proof (slice_to_len s (Z.max limit 0) ltac:(lia)) as Hl.
  destruct (truncate_loop_stop (slice_to s (Z.max limit 0)) [] 0 (len s)
              (Z.max limit 0)) as (r1 & r2 & E & T & S & I); [lia | simpl; lia |].
  change (len []) with 0 in *. simpl app in *.
  exists r1, r2. split; [exact E |]. split; [rewrite T; f_equal |]. split.
  - destruct S as [S | [S | (c & r2' & S1 & S2 & S3)]]; [auto | right; left; lia |].
    right. right. exists c, r2'. repeat split; auto; lia.
  - intros u c v Eu Hc. specialize (I u c v Eu Hc). destruct I as [I1 I2].
    split; [lia | intros Hv; specialize (I2 Hv); lia].
Qed.

(** A text has no escaped character, or a last one. *)
Lemma last_escape (t : pystr) :
  markup_sum t = 0 \/
  exists u c v, t = u ++ c :: v /\ ESCAPE_ASCII c = true /\ markup_sum v = 0.
Proof.
  induction t as [| c t [IH | (u & c' & v & E & Hc' & Hv)]].
  - left. reflexivity.
  - destruct (ESCAPE_ASCII c) eqn:Hc.
    + right. exists [], c, t. auto.
    + left. simpl. rewrite Hc. lia.
  - right. exists (c :: u), c', v. rewrite E. auto.
Qed.

Lemma markup_sum_zero_plain (v : pystr) :
  markup_sum v = 0 -> forallb ESCAPE_ASCII v = true -> v = [].
Proof.
  destruct v as [| x v]; [reflexivity |]. simpl.
  destruct (ESCAPE_ASCII x) eqn:Hx; [| discriminate].
  pose proof (json_char_len_escaped x Hx). pose proof (markup_sum_nonneg v). lia.
Qed.

Lemma escapes_last_after (u v : pystr) (c : pychar) :
  escapes_last (u ++ c :: v) = true -> ESCAPE_ASCII c = true ->
  forallb ESCAPE_ASCII v = true.
Proof.
  induction u as [| x u IH]; simpl; intros H Hc.
  - rewrite Hc in H. exact H.
  - destruct (ESCAPE_ASCII x); [| auto].
    rewrite forallb_app in H. simpl in H. rewrite Hc in H.
    apply andb_true_iff in H. apply H.
Qed.

Lemma escapes_last_prefix (a b : pystr) :
  escapes_last (a ++ b) = true -> escapes_last a = true.
Proof.
  induction a as [| x a IH]; simpl; [reflexivity |].
  destruct (ESCAPE_ASCII x); [| exact IH].
  rewrite forallb_app. intros H. apply andb_true_iff in H. apply H.
Qed.

(** X1.  [byte_size] is the size of the text once JSON-encoded, without the
    two quotes: what the test compares with [json.dumps]. *)
Theorem truncate_byte_size_exact (s : pystr) (limit : Z) :
  byte_size (truncate s limit)
  = len (encode_basestring_ascii (text (truncate s limit))) - 2.
Proof. rewrite byte_size_is_encoded_size. lia. Qed.

(** X2.  The text [truncate] returns is a prefix of the source and has at
    most [max(limit, 0)] characters. *)
Theorem truncate_text_is_prefix (s : pystr) (limit : Z) :
  exists rest,
    s = text (truncate s limit) ++ rest /\
    len (text (truncate s limit)) <= Z.max limit 0.
Proof.
  destruct (truncate_stop s limit) as (r1 & r2 & E & T & _).
  destruct (slice_to_split s (Z.max limit 0)) as (r3 & Es & Hl); [lia |].
  rewrite T. simpl. exists (r2 ++ r3). split.
  - rewrite app_assoc, <- E. exact Es.
  - rewrite E, len_app in Hl. pose proof (len_nonneg r2). lia.
Qed.

(** X3.  [truncated] is set exactly when the returned text is shorter than
    the source; a result that is not truncated carries the source
    unchanged. *)
Theorem truncated_iff_shorter (s : pystr) (limit : Z) :
  truncated (truncate s limit) = (len (text (truncate s limit)) <? len s) /\
  (truncated (truncate s limit) = false -> text (truncate s limit) = s).
Proof.
  destruct (truncate_stop s limit) as (r1 & r2 & E & T & _).
  destruct (slice_to_split s (Z.max limit 0)) as (r3 & Es & _); [lia |].
  rewrite T. simpl. split; [reflexivity |].
  intros H. apply Z.ltb_ge in H.
  rewrite E in Es. rewrite Es, !len_app in H.
  pose proof (len_nonneg r2). pose proof (len_nonneg r3).
  assert (H2 : len r2 = 0) by lia. assert (H3 : len r3 = 0) by lia.
  destruct r2; [| rewrite len_cons in H2; pose proof (len_nonneg r2); lia].
  destruct r3; [| rewrite len_cons in H3; pose proof (len_nonneg r3); lia].
  rewrite Es, !app_nil_r. reflexivity.
Qed.

(** X4.  When no plain character follows an escaped one in the source (a
    text of plain ASCII, or a text that is escaped throughout), [byte_size]
    is within the limit. *)
Theorem truncate_within_limit (s : pystr) (limit : Z) :
  escapes_last s = true ->
  byte_size (truncate s limit) <= Z.max limit 0.
Proof.
  intros Hs.
  destruct (truncate_stop s limit) as (r1 & r2 & E & T & _ & I).
  destruct (slice_to_split s (Z.max limit 0)) as (r3 & Es & Hl); [lia |].
  rewrite T. unfold byte_size. simpl.
  rewrite E, len_app in Hl. pose proof (len_nonneg r2).
  destruct (last_escape r1) as [H0 | (u & c & v & Er & Hc & Hv)]; [lia |].
  assert (Hlast : escapes_last r1 = true).
  { rewrite Es, E, <- app_assoc in Hs. apply (escapes_last_prefix _ _ Hs). }
  rewrite Er in Hlast.
  pose proof (markup_sum_zero_plain v Hv (escapes_last_after u v c Hlast Hc)) as ->.
  destruct (I u c [] Er Hc) as [I1 _].
  rewrite Er, len_app. change (len [c]) with 1. lia.
Qed.

Lemma truncate_within_limit_witness :
  byte_size (truncate (str "plain text" ++ [243; 322; 10]%N) 12) <= Z.max 12 0.
Proof. apply truncate_within_limit. reflexivity. Defined.

(** The markup accepted before the scan stops is bounded by the limit, and
    so is the number of characters kept. *)
Lemma byte_size_truncate_bound (s : pystr) (limit : Z) :
  byte_size (truncate s limit)
  <= Z.max (Z.max limit 0) (2 * Z.max limit 0 - 2).
Proof.
  destruct (truncate_stop s limit) as (r1 & r2 & E & T & _ & I).
  destruct (slice_to_split s (Z.max limit 0)) as (r3 & Es & Hl); [lia |].
  rewrite T. unfold byte_size. simpl.
  rewrite E, len_app in Hl. pose proof (len_nonneg r2).
  destruct (last_escape r1) as [H0 | (u & c & v & Er & Hc & Hv)]; [lia |].
  destruct (I u c v Er Hc) as [I1 I2].
  assert (Hms : markup_sum r1 = markup_sum (u ++ [c])).
  { rewrite Er. replace (u ++ c :: v) with ((u ++ [c]) ++ v)
      by (rewrite <- app_assoc; reflexivity).
    rewrite markup_sum_app. lia. }
  assert (Hlen : len r1 = len u + 1 + len v).
  { rewrite Er, len_app, len_cons. lia. }
  pose proof (len_nonneg u). pose proof (len_nonneg v).
  destruct v as [| x v].
  - change (len []) with 0 in Hlen. lia.
  - assert (Hv' : x :: v <> []) by discriminate. specialize (I2 Hv'). lia.
Qed.

(** X5.  However the text is made, [byte_size] stays below twice the
    limit: it is at most the larger of [n] and [2 * n - 2], for [n] the
    clamped limit. *)
Theorem truncate_byte_size_worst_case (s : pystr) (limit : Z) :
  byte_size (truncate s limit)
  <= Z.max (Z.max limit 0) (2 * Z.max limit 0 - 2).
Proof. exact (byte_size_truncate_bound s limit). Qed.

(** The bound of X5 is reached: a newline and two letters under a limit of
    3 come back whole, with 4 bytes. *)
Example truncate_byte_size_worst_case_reached :
  byte_size (truncate [10; 97; 97]%N 3) = 2 * 3 - 2.
Proof. reflexivity. Qed.

Lemma prefix_longer (s p rest t rest' : pystr) :
  s = p ++ rest -> s = t ++ rest' -> len t < len p ->
  exists x q, p = t ++ x :: q /\ rest' = x :: q ++ rest.
Proof.
  revert p s. induction t as [| y t IH]; intros p s Ep Et Hl.
  - destruct p as [| x q]; [change (len []) with 0 in Hl; lia |].
    exists x, q. simpl in *. split; [reflexivity | congruence].
  - destruct p as [| x p].
    + change (len []) with 0 in Hl. pose proof (len_nonneg (y :: t)). lia.
    + subst s. simpl in Et. injection Et as -> Et.
      rewrite !len_cons in Hl.
      destruct (IH p (p ++ rest) eq_refl Et ltac:(lia)) as (x & q & -> & ->).
      exists x, q. split; reflexivity.
Qed.

(** X6.  No longer prefix of the source fits: every prefix with more
    characters than the returned text takes more than the limit once
    encoded. *)
Theorem truncate_text_is_longest (s p rest : pystr) (limit : Z) :
  s = p ++ rest ->
  len (text (truncate s limit)) < len p ->
  Z.max limit 0 < len (escape_sub p).
Proof.
  intros Ep Hlonger.
  destruct (truncate_stop s limit) as (r1 & r2 & E & T & S & _).
  destruct (slice_to_split s (Z.max limit 0)) as (r3 & Es & _); [lia |].
  pose proof (slice_to_len s (Z.max limit 0) ltac:(lia)) as Hmin.
  rewrite T in Hlonger. simpl in Hlonger.
  rewrite escape_sub_len. pose proof (markup_sum_nonneg p) as Hp.
  assert (Et : s = r1 ++ (r2 ++ r3)) by (rewrite app_assoc, <- E; exact Es).
  destruct (prefix_longer s p rest r1 (r2 ++ r3) Ep Et Hlonger)
    as (x & q & Eq & Er).
  assert (Hpl : len p = len r1 + 1 + len q) by (rewrite Eq, len_app, len_cons; lia).
  assert (Hpm : markup_sum p = markup_sum r1 + markup_sum (x :: q))
    by (rewrite Eq, markup_sum_app; reflexivity).
  pose proof (len_nonneg q). pose proof (markup_sum_nonneg (x :: q)).
  destruct S as [-> | [S | (c & r2' & -> & Hc & S)]].
  - rewrite app_nil_r in E. rewrite E in Hmin.
    assert (len r1 < len s).
    { rewrite Ep. rewrite len_app. pose proof (len_nonneg rest). lia. }
    lia.
  - lia.
  - simpl in Er. injection Er as <- _.
    simpl in Hpm. rewrite Hc in Hpm. pose proof (markup_sum_nonneg q). lia.
Qed.

Lemma truncate_text_is_longest_witness :
  Z.max 10 0 < len (escape_sub [97; 10; 99; 65537]%N).
Proof.
  apply (truncate_text_is_longest [97; 10; 99; 65537; 100]%N
           [97; 10; 99; 65537]%N [100%N] 10).
  - reflexivity.
  - vm_compute. reflexivity.
Defined.

(** ** What a serialised text and a serialised operation cost *)

Ltac len_norm :=
  repeat first [rewrite len_app | rewrite len_cons];
  change (@len pychar []) with 0.

Lemma byte_size_truncate_nonneg (s : pystr) (limit : Z) :
  0 <= byte_size (truncate s limit).
Proof.
  destruct (truncate_stop s limit) as (r1 & r2 & _ & T & _).
  rewrite T. unfold byte_size. simpl.
  pose proof (len_nonneg r1). pose proof (markup_sum_nonneg r1). lia.
Qed.

(** The size of a serialised [JsonTruncText]. *)
Lemma json_trunc_size (t : JsonTruncText) :
  len (_json_serialize (JTrunc t) false)
  = 32 + len (escape_sub (text t)) - (if truncated t then 1 else 0).
Proof.
  unfold _json_serialize. cbn [encode newline_indent item_separator].
  unfold encode_basestring_ascii. norm_str. cbn [escape_sub flat_map ESCAPE_ASCII].
  destruct (truncated t); len_norm; cbn; len_norm; lia.
Qed.

(** X7.  Putting the result of [truncate] where a placeholder stood grows
    the serialised payload by [byte_size], less one byte when the text was
    truncated. *)
Theorem truncated_text_costs_byte_size (s : pystr) (limit : Z) :
  let t := truncate s limit in
  len (_json_serialize (JTrunc t) false)
  = len (_json_serialize (JTrunc TRUNC_PLACEHOLDER) false)
    + byte_size t - (if truncated t then 1 else 0).
Proof.
  cbv zeta. rewrite json_trunc_size.
  pose proof (byte_size_is_encoded_size s limit) as H.
  unfold encode_basestring_ascii in H. rewrite len_cons, len_app in H.
  change (len [34%N]) with 1 in H.
  change (len (_json_serialize (JTrunc TRUNC_PLACEHOLDER) false)) with 32. lia.
Qed.

(** ** What a serialised operation costs *)

Lemma byte_size_truncate_escaped (s : pystr) (limit : Z) :
  len (escape_sub (text (truncate s limit))) = byte_size (truncate s limit).
Proof.
  pose proof (byte_size_is_encoded_size s limit) as H.
  unfold encode_basestring_ascii in H. rewrite len_cons, len_app in H.
  change (len [34%N]) with 1 in H. lia.
Qed.

Ltac len_lit :=
  repeat match goal with
         | |- context [len (str ?s)] =>
             let v := eval vm_compute in (len (str s)) in
             change (len (str s)) with v
         | |- context [len (encode_basestring_ascii (str ?s))] =>
             let v := eval vm_compute in (len (encode_basestring_ascii (str s))) in
             change (len (encode_basestring_ascii (str s))) with v
         end.

(** The compact encoding of a [JsonTruncText] has the same size at every
    nesting depth. *)
Lemma json_trunc_size_at (level : nat) (t : JsonTruncText) :
  len (encode None level (JTrunc t))
  = 32 + len (escape_sub (text t)) - (if truncated t then 1 else 0).
Proof. exact (json_trunc_size t). Qed.

(** The compact size of a [GraphQLOperationPayload] in terms of its fields. *)
Lemma operation_payload_size (n k q r : json) (invalid : bool) :
  len (_json_serialize
         (JDict [ (str "name", n); (str "operation_type", k); (str "query", q);
                  (str "result", r); (str "result_invalid", JBool invalid) ]) false)
  = 73 + len (encode None 1 n) + len (encode None 1 k) + len (encode None 1 q)
    + len (encode None 1 r) + (if invalid then 4 else 5).
Proof.
  unfold _json_serialize.
  cbn [encode newline_indent item_separator].
  destruct invalid; len_norm; len_lit; lia.
Qed.

(** A field that is either absent or the result of [truncate] takes no more
    room than a placeholder and the bytes of its text. *)
Lemma trunc_field_size (level : nat) (s : pystr) (limit : Z) :
  len (encode None level (JTrunc (truncate s limit)))
  <= 32 + trunc_size (JTrunc (truncate s limit)).
Proof.
  rewrite json_trunc_size_at, byte_size_truncate_escaped. cbn [trunc_size].
  destruct (truncated _); lia.
Qed.

Section OperationCost.
Context {C : Collaborators}.

(** X8.  The placeholder is a sound price: when the operation kind found in
    the document encodes to no more than the kind of the placeholder, the
    serialised payload of an operation is never larger than the cost the
    budgeting charges for it. *)
Theorem operation_payload_within_cost (operation : GraphQLOperationResponse)
    (bytes_limit left_bytes : Z) (payload : json) :
  serialize_gql_operation_result operation bytes_limit = Ok (payload, left_bytes) ->
  (forall q d,
     query (anonymize_gql_operation_response operation) = Some q ->
     get_operation_ast (document_ast q)
       (name (anonymize_gql_operation_response operation)) = Some d ->
     len (escape_sub (Ast.operation d)) <= len (str "subscription")) ->
  len (_json_serialize payload false) <= payload_cost payload.
Proof.
  unfold serialize_gql_operation_result.
  destruct (bytes_limit - GQL_OPERATION_PLACEHOLDER_SIZE <? 0); [discriminate |].
  set (op := anonymize_gql_operation_response operation).
  set (L := bytes_limit - GQL_OPERATION_PLACEHOLDER_SIZE).
  intros Hres Hkind.
  assert (Hk : forall q d, query op = Some q ->
                 get_operation_ast (document_ast q) (name op) = Some d ->
                 len (encode None 1 (JStr (Ast.operation d))) <= 14).
  { intros q d Hq Hd. specialize (Hkind q d Hq Hd).
    change (len (str "subscription")) with 12 in Hkind.
    cbn [encode]. unfold encode_basestring_ascii. len_norm. lia. }
  clear Hkind. revert Hres.
  destruct (name op) as [[| c n] |];
    (destruct (query op) as [q |];
     [destruct (get_operation_ast (document_ast q) _) as [d |] eqn:Ed |]);
    (destruct (result op) as [r |]; [destruct (truthy r) |]);
    norm_str; cbn; intros [= <- _];
    try (specialize (Hk q d eq_refl Ed));
    (etransitivity; [apply Z.eq_le_incl; apply operation_payload_size |]);
    unfold payload_cost; norm_str;
    cbn [get_item dict_get default from_option id pystr_eqb N.eqb Pos.eqb andb
           trunc_size];
    repeat match goal with
           | |- context [encode None 1 (JTrunc (truncate ?s ?l))] =>
               let H := fresh "T" in
               pose proof (trunc_field_size 1 s l) as H;
               cbn [trunc_size] in H;
               generalize dependent (len (encode None 1 (JTrunc (truncate s l))));
               intros
           end;
    change (len (encode None 1 JNull)) with 4;
    unfold GQL_OPERATION_PLACEHOLDER_SIZE;
    destruct (result_invalid op); lia.
Qed.

End OperationCost.

Section OperationBudget.
Context {C : Collaborators}.

(** What an operation is charged: the placeholder and the bytes of the
    texts [truncate] made for it, each under its share of what is left. *)
Lemma serialize_gql_operation_result_cost (operation : GraphQLOperationResponse)
    (bytes_limit left_bytes : Z) (payload : json) :
  serialize_gql_operation_result operation bytes_limit = Ok (payload, left_bytes) ->
  GQL_OPERATION_PLACEHOLDER_SIZE <= payload_cost payload
    <= Z.max GQL_OPERATION_PLACEHOLDER_SIZE
         (2 * bytes_limit - GQL_OPERATION_PLACEHOLDER_SIZE).
Proof.
  unfold serialize_gql_operation_result.
  destruct (Z.ltb_spec (bytes_limit - GQL_OPERATION_PLACEHOLDER_SIZE) 0) as [| HL];
    [discriminate |].
  set (op := anonymize_gql_operation_response operation).
  set (L := bytes_limit - GQL_OPERATION_PLACEHOLDER_SIZE) in *.
  destruct (name op) as [[| c n] |];
    (destruct (query op) as [q |];
     [destruct (get_operation_ast (document_ast q) _) as [d |] |]);
    (destruct (result op) as [r |]; [destruct (truthy r) |]);
    norm_str; cbn; intros [= <- _];
    unfold payload_cost; norm_str;
    cbn [get_item dict_get default from_option id pystr_eqb N.eqb Pos.eqb andb
           trunc_size];
    repeat match goal with
           | |- context [byte_size (truncate ?s ?l)] =>
               let H := fresh "B" in
               let H' := fresh "P" in
               pose proof (byte_size_truncate_bound s l) as H;
               pose proof (byte_size_truncate_nonneg s l) as H';
               generalize dependent (byte_size (truncate s l));
               intros
           end;
    unfold GQL_OPERATION_PLACEHOLDER_SIZE in *; subst L;
    Z.div_mod_to_equations; lia.
Qed.

(** X9.  One operation is refused exactly below the placeholder size.
    Otherwise it is charged at least the placeholder and at most twice its
    limit less the placeholder, and the bytes it hands back are the limit
    less the charge, never negative. *)
Theorem serialize_gql_operation_result_charge (operation : GraphQLOperationResponse)
    (bytes_limit : Z) :
  match serialize_gql_operation_result operation bytes_limit with
  | Raise e =>
      e = ValueError NoMessage /\ bytes_limit < GQL_OPERATION_PLACEHOLDER_SIZE
  | Ok (payload, left_bytes) =>
      GQL_OPERATION_PLACEHOLDER_SIZE <= payload_cost payload
        <= 2 * bytes_limit - GQL_OPERATION_PLACEHOLDER_SIZE /\
      left_bytes = Z.max 0 (bytes_limit - payload_cost payload) /\
      0 <= left_bytes <= bytes_limit - GQL_OPERATION_PLACEHOLDER_SIZE
  end.
Proof.
  destruct (Z.lt_ge_cases bytes_limit GQL_OPERATION_PLACEHOLDER_SIZE) as [Hlt | Hge].
  - rewrite serialize_gql_operation_result_raises by exact Hlt.
    split; [reflexivity | exact Hlt].
  - destruct (serialize_gql_operation_result_ok operation bytes_limit Hge)
      as [payload Hp].
    rewrite Hp.
    pose proof (serialize_gql_operation_result_cost _ _ _ _ Hp) as Hc.
    repeat split; lia.
Qed.

(** The charges of a budgeted list of operations. *)
Lemma budgeted_cost (operations : list GraphQLOperationResponse)
    (remaining : Z) (payloads : list json) :
  budgeted operations remaining payloads ->
  len operations * GQL_OPERATION_PLACEHOLDER_SIZE <= remaining ->
  length payloads = length operations /\
  fold_right Z.add 0 (map payload_cost payloads)
    <= 2 * remaining - len operations * GQL_OPERATION_PLACEHOLDER_SIZE.
Proof.
  induction 1 as [remaining
                 | operation rest remaining slice unused payload payloads
                     Hs Hp Hu Hb IH]; intros Hfit.
  - change (len []) with 0 in *. simpl. lia.
  - pose proof (len_nonneg rest) as Hrest. rewrite len_cons in Hfit, Hs |- *.
    destruct (slice_covers_placeholder remaining (len rest + 1) ltac:(lia) Hfit)
      as [Hslice Hleft].
    rewrite <- Hs in Hslice, Hleft.
    pose proof (serialize_gql_operation_result_cost _ _ _ _ Hp) as Hc.
    unfold GQL_OPERATION_PLACEHOLDER_SIZE in *.
    destruct IH as [IHl IHc]; [lia |].
    simpl. split; [congruence |]. lia.
Qed.

(** X10.  The payloads of a list of operations come one per operation, and
    whatever the texts contain their charges add up to at most twice the
    budget less one placeholder per operation. *)
Theorem serialize_gql_operation_results_charge
    (operations : list GraphQLOperationResponse) (bytes_limit : Z)
    (payloads : list json) :
  serialize_gql_operation_results operations bytes_limit = Ok payloads ->
  length payloads = length operations /\
  fold_right Z.add 0 (map payload_cost payloads)
    <= 2 * bytes_limit - len operations * GQL_OPERATION_PLACEHOLDER_SIZE.
Proof.
  intros H. pose proof (serialize_gql_operation_results_cases operations bytes_limit) as Hc.
  rewrite H in Hc. destruct Hc as [Hfit Hb].
  exact (budgeted_cost _ _ _ Hb Hfit).
Qed.

End OperationBudget.

Lemma operation_payload_within_cost_witness :
  exists payload left_bytes,
    serialize_gql_operation_result (C := plain_collaborators) sample_operation 400
      = Ok (payload, left_bytes) /\
    len (_json_serialize payload false) <= payload_cost payload.
Proof.
  eexists _, _. split; [vm_compute; reflexivity |].
  eapply (operation_payload_within_cost (C := plain_collaborators)
            sample_operation 400).
  - vm_compute. reflexivity.
  - intros q d Hq Hd. vm_compute in Hq. injection Hq as <-.
    vm_compute in Hd. injection Hd as <-. vm_compute. discriminate.
Defined.

Lemma serialize_gql_operation_results_charge_witness :
  exists payloads,
    serialize_gql_operation_results (C := plain_collaborators)
      [sample_operation; sample_operation] 420 = Ok payloads /\
    length payloads = 2%nat /\
    fold_right Z.add 0 (map payload_cost payloads)
      <= 2 * 420 - 2 * GQL_OPERATION_PLACEHOLDER_SIZE.
Proof.
  eexists. split; [vm_compute; reflexivity |].
  apply (serialize_gql_operation_results_charge (C := plain_collaborators)
           [sample_operation; sample_operation] 420).
  vm_compute. reflexivity.
Defined.

(** ** Camel-casing a payload *)

Lemma json_nested_ind (P : json -> Prop) :
  P JNull -> (forall b, P (JBool b)) -> (forall z, P (JInt z)) ->
  (forall r, P (JFloat r)) -> (forall s, P (JStr s)) ->
  (forall iso, P (JDatetime iso)) -> (forall t, P (JTrunc t)) ->
  (forall l, Forall P l -> P (JList l)) ->
  (forall d, Forall (fun kv => P (snd kv)) d -> P (JDict d)) ->
  forall j, P j.
Proof.
  intros Hn Hb Hz Hf Hs Hd Ht Hl Hdict. fix IH 1.
  intros [| b | z | r | s | iso | t | l | d];
    [apply Hn | apply Hb | apply Hz | apply Hf | apply Hs | apply Hd | apply Ht | |].
  - apply Hl. induction l as [| x l IHl]; constructor; [apply IH | exact IHl].
  - apply Hdict. induction d as [| [k v] d IHd]; constructor; [apply IH | exact IHd].
Qed.

Lemma camel_each_outcome (l : list json) :
  Forall (fun j => camel_outcome (payload_to_camel_case j) (camel_ok j)) l ->
  camel_outcome (camel_each l) (forallb camel_ok l).
Proof.
  induction 1 as [| j l Hj _ IH]; [reflexivity |].
  cbn [camel_each forallb]. unfold camel_outcome in *.
  destruct (payload_to_camel_case j) as [j' | e]; cbn [bind].
  - rewrite Hj. destruct (camel_each l) as [l' | e]; cbn [bind andb]; exact IH.
  - destruct Hj as [-> ->]. split; reflexivity.
Qed.

Lemma camel_items_outcome (d : list (pystr * json)) :
  Forall (fun kv => camel_outcome (camel_value (snd kv)) (camel_value_ok (snd kv))) d ->
  forall data,
    camel_outcome (camel_items d data)
      (forallb (fun kv : pystr * json => let '(_, v) := kv in camel_value_ok v) d).
Proof.
  induction 1 as [| [k v] d Hv _ IH]; intros data; [reflexivity |].
  cbn [camel_items forallb snd] in *. unfold camel_outcome in *.
  destruct (camel_value v) as [v' | e]; cbn [bind].
  - rewrite Hv. cbn [andb]. apply IH.
  - destruct Hv as [-> ->]. split; reflexivity.
Qed.

Lemma camel_walk (j : json) :
  camel_outcome (payload_to_camel_case j) (camel_ok j) /\
  camel_outcome (camel_value j) (camel_value_ok j).
Proof.
  induction j as [| b | z | r | s | iso | t | l IH | d IH] using json_nested_ind;
    try (split; [split |]; reflexivity).
  - split; [split; reflexivity |].
    cbn [camel_value camel_value_ok].
    assert (H : camel_outcome (camel_each l) (forallb camel_ok l)).
    { apply camel_each_outcome. eapply Forall_impl; [exact IH |].
      intros j [Hj _]. exact Hj. }
    unfold camel_outcome in *. destruct (camel_each l); exact H.
  - assert (H : camel_outcome (payload_to_camel_case (JDict d)) (camel_ok (JDict d))).
    { rewrite payload_to_camel_case_dict.
      pose proof (camel_items_outcome d) as Hi.
      assert (Hd : Forall (fun kv => camel_outcome (camel_value (snd kv))
                                       (camel_value_ok (snd kv))) d).
      { eapply Forall_impl; [exact IH |]. intros kv [_ Hv]. exact Hv. }
      specialize (Hi Hd []). unfold camel_outcome in *.
      change (camel_ok (JDict d))
        with (forallb (fun kv : pystr * json =>
                         let '(_, v) := kv in camel_value_ok v) d).
      destruct (camel_items d []); exact Hi. }
    split; exact H.
Qed.

(** X11.  [payload_to_camel_case] returns a dictionary exactly when its
    argument is a dictionary in which every list, at any depth, holds only
    such dictionaries; on anything else it raises, and the error is always
    [AttributeError]. *)
Theorem payload_to_camel_case_outcome (j : json) :
  match payload_to_camel_case j with
  | Ok j' => camel_ok j = true /\ exists data, j' = JDict data
  | Raise e => e = AttributeError /\ camel_ok j = false
  end.
Proof.
  pose proof (proj1 (camel_walk j)) as H. unfold camel_outcome in H.
  destruct j; try exact H.
  rewrite payload_to_camel_case_dict in *.
  destruct (camel_items d []) as [data | e]; cbn [bind] in *; [| exact H].
  split; [exact H | eauto].
Qed.

(** ** The list of operations in the API-call document *)

Lemma camel_each_length (l l' : list json) :
  camel_each l = Ok l' -> length l' = length l.
Proof.
  revert l'. induction l as [| j l IH]; intros l' H; simpl in H.
  - injection H as <-. reflexivity.
  - destruct (payload_to_camel_case j); [| discriminate].
    destruct (camel_each l) as [r |]; [| discriminate].
    simpl in H. injection H as <-. simpl. f_equal. apply IH. reflexivity.
Qed.

Section ApiCallOperations.
Context {C : Collaborators}.

(** X12.  The document lists all operations or none.  When the fixed part
    fits the limit a document is returned, and its [operations] has one
    entry per operation if what is left covers a placeholder for each of
    them, and is empty otherwise. *)
Theorem generate_api_call_document_operations (amb : Ambient)
    (request : HttpRequest.t) (response : HttpResponse.t)
    (gql_operations : list GraphQLOperationResponse) (bytes_limit : Z)
    (payload : json) :
  api_call_payload amb request response gql_operations = Ok payload ->
  len (_json_serialize payload false) <= bytes_limit ->
  exists document l,
    generate_api_call_document amb request response gql_operations bytes_limit
      = Ok document /\
    get_item (get_item document (str "gqlOperations")) (str "operations") = JList l /\
    length l
      = if bytes_limit - len (_json_serialize payload false)
             <? len gql_operations * GQL_OPERATION_PLACEHOLDER_SIZE
        then 0%nat else length gql_operations.
Proof.
  intros Hp Hfit.
  pose proof (generate_api_call_document_cases amb request response
                gql_operations bytes_limit payload Hp) as H.
  cbv zeta in H.
  set (remaining := bytes_limit - len (_json_serialize payload false)) in *.
  destruct (Z.ltb_spec remaining 0) as [Hneg | _]; [lia |].
  destruct H as (rq' & rs' & a' & l' & Hd & Hs).
  exists (JDict [ (str "eventType", JStr (str "observability_api_call"));
                  (str "request", rq'); (str "response", rs'); (str "app", a');
                  (str "gqlOperations",
                     JDict [ (str "count", JInt (len gql_operations));
                             (str "operations", JList l') ]) ]), l'.
  split; [exact Hd |]. split; [norm_str; reflexivity |].
  pose proof (serialize_gql_operation_results_cases gql_operations remaining) as Hc.
  destruct (serialize_gql_operation_results gql_operations remaining)
    as [payloads | e].
  - destruct Hc as [Hcover Hb].
    destruct (Z.ltb_spec remaining (len gql_operations * GQL_OPERATION_PLACEHOLDER_SIZE));
      [lia |].
    rewrite (camel_each_length _ _ Hs).
    exact (proj1 (budgeted_cost _ _ _ Hb Hcover)).
  - destruct Hc as [_ Hlt], Hs as [-> _].
    destruct (Z.ltb_spec remaining (len gql_operations * GQL_OPERATION_PLACEHOLDER_SIZE));
      [reflexivity | lia].
Qed.

End ApiCallOperations.

Lemma generate_api_call_document_operations_witness :
  exists document l,
    generate_api_call_document (C := plain_collaborators)
      (mkAmbient (str "uuid") (str "0.0")) sample_request sample_response
      [sample_operation; sample_operation] 1000 = Ok document /\
    get_item (get_item document (str "gqlOperations")) (str "operations") = JList l /\
    length l = 2%nat.
Proof.
  destruct (api_call_payload (C := plain_collaborators)
              (mkAmbient (str "uuid") (str "0.0")) sample_request
              sample_response [sample_operation; sample_operation])
    as [payload | e] eqn:E; [| vm_compute in E; discriminate E].
  destruct (generate_api_call_document_operations (C := plain_collaborators)
              _ _ _ _ 1000 payload E) as (document & l & Hd & Hl & Hn).
  - vm_compute in E. injection E as <-. vm_compute. discriminate.
  - exists document, l. repeat split; [exact Hd | exact Hl |].
    rewrite Hn. vm_compute in E. injection E as <-. reflexivity.
Defined.

(** ** The two caches in front of the registry *)

(** What a miss of the shared cache does: the registry is read, and the
    list made from it is stored for [CACHE_TIMEOUT] seconds. *)
Lemma get_observability_webhooks_miss (w : World) :
  cache_get w = None ->
  let webhooks_data :=
    map (fun webhook =>
           WebhookData.mk (Webhook.pk webhook) (site_domain w)
             (Webhook.target_url webhook) (Webhook.secret_key webhook))
      (webhooks_for_event w) in
  get_observability_webhooks w
  = (webhooks_data, cache_set webhooks_data CACHE_TIMEOUT w).
Proof.
  intros H. unfold get_observability_webhooks. rewrite H.
  destruct (webhooks_for_event w); reflexivity.
Qed.

(** X13.  [get_observability_webhooks] leaves the list it returns in the
    shared cache, with a timeout that has not run out.  On a miss the list
    has one entry per registered webhook, in order, each with the domain of
    the current site, and is stored for [CACHE_TIMEOUT] seconds.  While the
    entry is there and its timeout has not run out, a later call returns the
    same list and changes nothing, whatever the registry has become; once
    the timeout has run out, a later call reads the registry again and
    stores what it finds for another [CACHE_TIMEOUT] seconds. *)
Theorem get_observability_webhooks_cached (w : World) :
  let '(webhooks_data, w1) := get_observability_webhooks w in
  exists expires,
    cache_webhooks w1 = Some (webhooks_data, expires) /\
    monotonic w < expires /\
    (cache_get w = None ->
     expires = monotonic w + CACHE_TIMEOUT /\
     map WebhookData.id webhooks_data = map Webhook.pk (webhooks_for_event w) /\
     Forall (fun d => WebhookData.saleor_domain d = site_domain w) webhooks_data) /\
    forall w2,
      cache_webhooks w2 = cache_webhooks w1 ->
      if monotonic w2 <? expires
      then get_observability_webhooks w2 = (webhooks_data, w2)
      else
        map WebhookData.id (fst (get_observability_webhooks w2))
          = map Webhook.pk (webhooks_for_event w2) /\
        cache_webhooks (snd (get_observability_webhooks w2))
          = Some (fst (get_observability_webhooks w2), monotonic w2 + CACHE_TIMEOUT).
Proof.
  assert (Hlater : forall l x w1,
            cache_webhooks w1 = Some (l, x) ->
            forall w2,
              cache_webhooks w2 = cache_webhooks w1 ->
              if monotonic w2 <? x
              then get_observability_webhooks w2 = (l, w2)
              else
                map WebhookData.id (fst (get_observability_webhooks w2))
                  = map Webhook.pk (webhooks_for_event w2) /\
                cache_webhooks (snd (get_observability_webhooks w2))
                  = Some (fst (get_observability_webhooks w2),
                          monotonic w2 + CACHE_TIMEOUT)).
  { intros l x w1 H1 w2 H2. rewrite H1 in H2.
    destruct (monotonic w2 <? x) eqn:Ex.
    - unfold get_observability_webhooks, cache_get. rewrite H2, Ex. reflexivity.
    - rewrite get_observability_webhooks_miss
        by (unfold cache_get; rewrite H2, Ex; reflexivity).
      cbn. split; [rewrite map_map |]; reflexivity. }
  destruct (cache_get w) as [l |] eqn:E.
  - unfold get_observability_webhooks. rewrite E.
    assert (Hc : exists x, cache_webhooks w = Some (l, x) /\ monotonic w < x).
    { unfold cache_get in E.
      destruct (cache_webhooks w) as [[l' x] |]; [| discriminate].
      destruct (Z.ltb_spec (monotonic w) x) as [Hlt |]; [| discriminate].
      injection E as ->. exists x. split; [reflexivity | exact Hlt]. }
    destruct Hc as (x & Hc & Hlt). exists x.
    split; [exact Hc |]. split; [exact Hlt |]. split; [discriminate |].
    apply (Hlater l x w Hc).
  - rewrite (get_observability_webhooks_miss w E).
    exists (monotonic w + CACHE_TIMEOUT).
    split; [reflexivity |]. split; [unfold CACHE_TIMEOUT; lia |]. split.
    + intros _. split; [reflexivity |]. split; [rewrite map_map; reflexivity |].
      induction (webhooks_for_event w) as [| x ws IHws]; constructor;
        [reflexivity | exact IHws].
    + apply Hlater. reflexivity.
Qed.

(** X14.  The answer of [active_webhooks_exists] is kept with the time it
    was checked at: this time is now, or within the timeout.  Until more
    than the timeout of a later call has passed since, that call returns
    the same answer and changes nothing, whatever the registry and the
    shared cache hold by then. *)
Theorem active_webhooks_exists_memo (timeout : Z) (w : World) :
  let '(is_active, w1) := active_webhooks_exists timeout w in
  exists check_time,
    _active_webhooks_exists_cache w1 !! get_buffer_name w
      = Some (is_active, check_time) /\
    (check_time = monotonic w \/ monotonic w - check_time <= timeout) /\
    forall timeout' w2,
      key_prefix w2 = key_prefix w ->
      _active_webhooks_exists_cache w2 = _active_webhooks_exists_cache w1 ->
      monotonic w2 - check_time <= timeout' ->
      active_webhooks_exists timeout' w2 = (is_active, w2).
Proof.
  assert (Hlater : forall b t w1,
            _active_webhooks_exists_cache w1 !! get_buffer_name w = Some (b, t) ->
            forall timeout' w2,
              key_prefix w2 = key_prefix w ->
              _active_webhooks_exists_cache w2 = _active_webhooks_exists_cache w1 ->
              monotonic w2 - t <= timeout' ->
              active_webhooks_exists timeout' w2 = (b, w2)).
  { intros b t w1 Hl timeout' w2 Hk Hc Ht. unfold active_webhooks_exists.
    unfold get_buffer_name in *. rewrite Hk, Hc, Hl.
    destruct (Z.leb_spec (monotonic w2 - t) timeout'); [reflexivity | lia]. }
  unfold active_webhooks_exists at 1.
  destruct (_active_webhooks_exists_cache w !! get_buffer_name w) as [[b t] |] eqn:E;
    [destruct (Z.leb_spec (monotonic w - t) timeout) as [Hfresh | Hstale] |].
  - exists t. split; [exact E |]. split; [right; exact Hfresh |].
    apply Hlater. exact E.
  - destruct (get_observability_webhooks w) as [l w0] eqn:Eg.
    assert (Hm : monotonic w0 = monotonic w).
    { unfold get_observability_webhooks in Eg.
      destruct (cache_get w); injection Eg as _ <-; reflexivity. }
    exists (monotonic w0).
    assert (Hl : _active_webhooks_exists_cache
                   (set_active_webhooks_exists_cache
                      (<[get_buffer_name w := (list_truthy l, monotonic w0)]>
                         (_active_webhooks_exists_cache w0)) w0)
                 !! get_buffer_name w = Some (list_truthy l, monotonic w0))
      by (cbn; apply lookup_insert_eq).
    split; [exact Hl |]. split; [left; exact Hm |]. apply Hlater. exact Hl.
  - destruct (get_observability_webhooks w) as [l w0] eqn:Eg.
    assert (Hm : monotonic w0 = monotonic w).
    { unfold get_observability_webhooks in Eg.
      destruct (cache_get w); injection Eg as _ <-; reflexivity. }
    exists (monotonic w0).
    assert (Hl : _active_webhooks_exists_cache
                   (set_active_webhooks_exists_cache
                      (<[get_buffer_name w := (list_truthy l, monotonic w0)]>
                         (_active_webhooks_exists_cache w0)) w0)
                 !! get_buffer_name w = Some (list_truthy l, monotonic w0))
      by (cbn; apply lookup_insert_eq).
    split; [exact Hl |]. split; [left; exact Hm |]. apply Hlater. exact Hl.
Qed.

(** ** Observability switched off *)

Lemma silent_refl (w : World) : silent w w.
Proof. repeat split. Qed.

Lemma silent_trans (w1 w2 w3 : World) :
  silent w1 w2 -> silent w2 w3 -> silent w1 w3.
Proof.
  intros (A1 & A2 & A3 & A4 & A5 & A6) (B1 & B2 & B3 & B4 & B5 & B6).
  repeat split; congruence.
Qed.

Ltac silent_step := unfold silent, count; cbn; repeat split; reflexivity.

Section SwitchedOff.
Context {C : Collaborators}.

Lemma ApiCall_report_switched_off (self : nat) (w : World) :
  OBSERVABILITY_ACTIVE (settings w) = false -> silent w (ApiCall_report self w).
Proof.
  intros Hoff. unfold ApiCall_report. cbv zeta.
  destruct (api_calls (emit (ReportCalled self) w) !! self) as [api_call |];
    [| silent_step].
  change (settings (emit (ReportCalled self) w)) with (settings w).
  rewrite Hoff. cbn [negb]. rewrite orb_true_r. silent_step.
Qed.

Lemma report_event_delivery_attempt_switched_off
    (attempt : EventDeliveryAttempt.t) (next_retry : option pystr) (w : World) :
  OBSERVABILITY_ACTIVE (settings w) = false ->
  report_event_delivery_attempt attempt next_retry w = w.
Proof.
  intros Hoff. unfold report_event_delivery_attempt. rewrite Hoff. reflexivity.
Qed.

Lemma exec_block_switched_off (body : list stmt) :
  Forall (fun s => forall w, OBSERVABILITY_ACTIVE (settings w) = false ->
                     silent w (fst (exec s w))) body ->
  forall w, OBSERVABILITY_ACTIVE (settings w) = false ->
    silent w (fst (exec_block body w)).
Proof.
  induction 1 as [| s body Hs _ IH]; intros w Hoff; [apply silent_refl |].
  rewrite exec_block_cons. pose proof (Hs w Hoff) as H1.
  destruct (exec s w) as [w1 [e |]]; cbn [fst] in *; [exact H1 |].
  eapply silent_trans; [exact H1 |]. apply IH.
  destruct H1 as [-> _]. exact Hoff.
Qed.

Lemma exec_switched_off (s : stmt) (w : World) :
  OBSERVABILITY_ACTIVE (settings w) = false -> silent w (fst (exec s w)).
Proof.
  revert w.
  induction s as [request body IH | body IH | response | f | e | body handler IHb IHh]
    using stmt_nested_ind; intros w Hoff.
  - rewrite exec_with_report_api_call.
    assert (H1 : silent w (snd (report_api_call_enter request w))).
    { clear IH. destruct (_context_api_call w) as [r |] eqn:E.
      - rewrite (report_api_call_enter_nested request w r E). silent_step.
      - rewrite (report_api_call_enter_root request w E). silent_step. }
    assert (Hoff1 : OBSERVABILITY_ACTIVE
                      (settings (snd (report_api_call_enter request w))) = false)
      by (destruct H1 as [-> _]; exact Hoff).
    pose proof (exec_block_switched_off body IH _ Hoff1) as H2.
    destruct (exec_block body _) as [w2 [e |]]; cbn [fst] in *;
      [eapply silent_trans; eassumption |].
    assert (Hoff2 : OBSERVABILITY_ACTIVE (settings w2) = false)
      by (destruct H2 as [-> _]; exact Hoff1).
    eapply silent_trans; [exact H1 |]. eapply silent_trans; [exact H2 |].
    unfold report_api_call_exit.
    destruct (snd (fst (report_api_call_enter request w))); [| apply silent_refl].
    destruct (_context_api_call w2) as [ref |]; [| apply silent_refl].
    eapply silent_trans; [exact (ApiCall_report_switched_off ref w2 Hoff2) |].
    clear. silent_step.
  - rewrite exec_with_report_gql_operation.
    assert (H1 : silent w (snd (report_gql_operation_enter w))).
    { clear IH. destruct (_context_gql_operation w) as [o |] eqn:E.
      - rewrite (report_gql_operation_enter_nested w o E). silent_step.
      - rewrite (report_gql_operation_enter_root w E). silent_step. }
    assert (Hoff1 : OBSERVABILITY_ACTIVE
                      (settings (snd (report_gql_operation_enter w))) = false)
      by (destruct H1 as [-> _]; exact Hoff).
    pose proof (exec_block_switched_off body IH _ Hoff1) as H2.
    destruct (exec_block body _) as [w2 [e |]]; cbn [fst] in *;
      [eapply silent_trans; eassumption |].
    eapply silent_trans; [exact H1 |]. eapply silent_trans; [exact H2 |].
    clear. unfold report_gql_operation_exit, append_operation.
    destruct (snd (fst (report_gql_operation_enter w))); [| apply silent_refl].
    destruct (_context_gql_operation w2); [| apply silent_refl].
    destruct (_context_api_call w2) as [a |]; [| silent_step].
    destruct (api_calls w2 !! a); silent_step.
  - cbn [exec fst]. unfold attach_response.
    destruct (_context_api_call w) as [ref |]; [| apply silent_refl].
    destruct (api_calls w !! ref); silent_step.
  - cbn [exec fst]. unfold update_operation.
    destruct (_context_gql_operation w) as [ref |]; [| apply silent_refl].
    destruct (operations w !! ref); silent_step.
  - apply silent_refl.
  - rewrite exec_try_except.
    pose proof (exec_block_switched_off body IHb w Hoff) as H1.
    destruct (exec_block body w) as [w1 [e |]]; cbn [fst] in *; [| exact H1].
    eapply silent_trans; [exact H1 |].
    apply (exec_block_switched_off handler IHh).
    destruct H1 as [-> _]. exact Hoff.
Qed.

Lemma step_switched_off (a : action) (w : World) :
  OBSERVABILITY_ACTIVE (settings w) = false -> silent w (step a w).
Proof.
  intros Hoff. destruct a as [self | attempt next_retry | s | seconds | | webhooks |];
    cbn [step].
  - apply ApiCall_report_switched_off, Hoff.
  - rewrite report_event_delivery_attempt_switched_off by exact Hoff.
    apply silent_refl.
  - apply exec_switched_off, Hoff.
  - silent_step.
  - silent_step.
  - silent_step.
  - silent_step.
Qed.

(** X15.  With [OBSERVABILITY_ACTIVE] off the module stays silent: however
    many reports are made and requests are served, and whatever happens to
    the clock, the registry and the caches in between, the gate is never
    asked, no payload is built, nothing is pushed and nothing is logged. *)
Theorem switched_off_is_silent (actions : list action) (w : World) :
  OBSERVABILITY_ACTIVE (settings w) = false ->
  buffer (run actions w) = buffer w /\
  count is_GateChecked (run actions w) = count is_GateChecked w /\
  count is_PayloadGenerated (run actions w) = count is_PayloadGenerated w /\
  count is_BufferPut (run actions w) = count is_BufferPut w /\
  count is_Logged (run actions w) = count is_Logged w.
Proof.
  intros Hoff. cut (silent w (run actions w)); [intros H; apply H |].
  revert w Hoff. induction actions as [| a actions IH]; intros w Hoff;
    [apply silent_refl |].
  unfold run in *. cbn [fold_left].
  pose proof (step_switched_off a w Hoff) as H1.
  eapply silent_trans; [exact H1 |]. apply IH.
  destruct H1 as [-> _]. exact Hoff.
Qed.

End SwitchedOff.

Lemma switched_off_is_silent_witness :
  let actions :=
    [ call_report_event_delivery_attempt orphan_attempt None;
      serve (report_view sample_request [with_report_gql_operation []]
               sample_response);
      tick 200;
      clear_gate_cache;
      call_report_event_delivery_attempt sample_attempt None ] in
  let w' := run (C := plain_collaborators) actions switched_off_world in
  buffer w' = buffer switched_off_world /\
  count is_GateChecked w' = count is_GateChecked switched_off_world /\
  count is_PayloadGenerated w' = count is_PayloadGenerated switched_off_world /\
  count is_BufferPut w' = count is_BufferPut switched_off_world /\
  count is_Logged w' = count is_Logged switched_off_world.
Proof.
  apply (switched_off_is_silent (C := plain_collaborators)). reflexivity.
Defined.

(** ** A view under [report_view] *)

Lemma same_environment_refl (w : World) : same_environment w w.
Proof. repeat split. Qed.

Lemma same_environment_trans (w1 w2 w3 : World) :
  same_environment w1 w2 -> same_environment w2 w3 -> same_environment w1 w3.
Proof.
  unfold same_environment. intros A B.
  decompose [and] A. decompose [and] B. repeat split; congruence.
Qed.


Lemma deref_operations_insert (w w' : World) (refs : list nat) (o : nat)
    (v : GraphQLOperationResponse) :
  operations w' = <[o := v]> (operations w) ->
  Forall (fun x => (x < o)%nat) refs ->
  deref_operations w' refs = deref_operations w refs.
Proof.
  intros Ho. unfold deref_operations. rewrite Ho.
  induction 1 as [| x refs Hx _ IH]; [reflexivity |].
  cbn [omap list_omap]. rewrite lookup_insert_ne by lia. rewrite IH. reflexivity.
Qed.

Section ViewProperties.
Context {C : Collaborators}.

(** One operation under its scope, inside an open API-call scope: the
    operation object is created, assigned to, and appended to the
    accumulator of the API call. *)
Lemma exec_operation_scope
    (f : GraphQLOperationResponse -> GraphQLOperationResponse)
    (w : World) (r : nat) (a : ApiCall.t) :
  _context_gql_operation w = None -> _context_api_call w = Some r ->
  api_calls w !! r = Some a ->
  exists w',
    exec (operation_scope f) w = (w', None) /\
    same_environment w w' /\
    _context_api_call w' = Some r /\ _context_gql_operation w' = None /\
    next_ref w' = S (next_ref w) /\
    api_calls w' !! r
      = Some (ApiCall.mk (ApiCall.gql_operations a ++ [next_ref w])
                (ApiCall.response a) (ApiCall._reported a) (ApiCall.request a)) /\
    operations w' = <[next_ref w := f GraphQLOperationResponse_init]> (operations w).
Proof.
  intros Hg Hc Ha. unfold operation_scope.
  rewrite exec_with_report_gql_operation, (report_gql_operation_enter_root w Hg).
  cbn [fst snd exec_block exec].
  unfold update_operation. cbn.
  rewrite lookup_insert_eq. cbn. rewrite Hc. unfold append_operation. cbn.
  rewrite Ha. cbn. eexists. split; [reflexivity |]. cbn. rewrite lookup_insert_eq.
  repeat split; first [reflexivity | exact Hc | apply insert_insert_eq].
Qed.

(** Operations run one after the other are appended in the order they ran
    in, each as its assignments left it. *)
Lemma exec_operation_scopes
    (fs : list (GraphQLOperationResponse -> GraphQLOperationResponse)) :
  forall (w : World) (r : nat) (a : ApiCall.t),
    _context_gql_operation w = None -> _context_api_call w = Some r ->
    api_calls w !! r = Some a ->
    Forall (fun x => (x < next_ref w)%nat) (ApiCall.gql_operations a) ->
    exists w',
      exec_block (map operation_scope fs) w = (w', None) /\
      same_environment w w' /\
      _context_api_call w' = Some r /\ _context_gql_operation w' = None /\
      exists refs,
        api_calls w' !! r
          = Some (ApiCall.mk (ApiCall.gql_operations a ++ refs)
                    (ApiCall.response a) (ApiCall._reported a) (ApiCall.request a)) /\
        deref_operations w' (ApiCall.gql_operations a ++ refs)
          = deref_operations w (ApiCall.gql_operations a)
            ++ map (fun f => f GraphQLOperationResponse_init) fs.
Proof.
  induction fs as [| f fs IH]; intros w r a Hg Hc Ha Hold.
  - exists w. split; [reflexivity |].
    split; [apply same_environment_refl |]. repeat split; try assumption.
    exists []. rewrite !app_nil_r. destruct a. split; [exact Ha | reflexivity].
  - cbn [map]. rewrite exec_block_cons.
    destruct (exec_operation_scope f w r a Hg Hc Ha)
      as (w1 & Hx1 & He1 & Hc1 & Hg1 & Hn1 & Ha1 & Ho1).
    rewrite Hx1.
    set (a1 := ApiCall.mk (ApiCall.gql_operations a ++ [next_ref w])
                 (ApiCall.response a) (ApiCall._reported a) (ApiCall.request a)) in *.
    assert (Hold1 : Forall (fun x => (x < next_ref w1)%nat) (ApiCall.gql_operations a1)).
    { subst a1. cbn [ApiCall.gql_operations]. rewrite Hn1. apply Forall_app. split.
      - eapply Forall_impl; [exact Hold |]. cbn. intros; lia.
      - constructor; [lia | constructor]. }
    destruct (IH w1 r a1 Hg1 Hc1 Ha1 Hold1)
      as (w2 & Hx2 & He2 & Hc2 & Hg2 & refs & Ha2 & Hd2).
    exists w2. split; [exact Hx2 |].
    split; [eapply same_environment_trans; eassumption |].
    split; [exact Hc2 |]. split; [exact Hg2 |].
    exists (next_ref w :: refs). subst a1.
    cbn [ApiCall.gql_operations ApiCall.response ApiCall._reported ApiCall.request]
      in Ha2, Hd2.
    rewrite <- app_assoc in Ha2, Hd2. cbn [app] in Ha2, Hd2.
    split; [exact Ha2 |]. rewrite Hd2.
    assert (Hsplit : deref_operations w1 (ApiCall.gql_operations a ++ [next_ref w])
                     = deref_operations w (ApiCall.gql_operations a)
                       ++ [f GraphQLOperationResponse_init]).
    { unfold deref_operations. rewrite omap_app. f_equal.
      - exact (deref_operations_insert w w1 _ _ _ Ho1 Hold).
      - cbn [omap list_omap]. rewrite Ho1, lookup_insert_eq. reflexivity. }
    rewrite Hsplit, <- app_assoc. reflexivity.
Qed.



End ViewProperties.


(** ** One event per API call, one outcome per delivery attempt *)

Section ReportAtMostOnce.
Context {C : Collaborators}.

(** What a call of [report] on an unreported accumulator leaves: either
    nothing but its trace, or a reported accumulator and at most one build
    and one more entry in the buffer. *)
Lemma ApiCall_report_unreported (self : nat) (a : ApiCall.t) (w : World) :
  api_calls w !! self = Some a -> ApiCall._reported a = false ->
  let w' := ApiCall_report self w in
  (api_calls w' = api_calls w /\ buffer w' = buffer w /\
   count is_PayloadGenerated w' = count is_PayloadGenerated w)
  \/
  (exists a', api_calls w' !! self = Some a' /\ ApiCall._reported a' = true /\
              (length (buffer w') <= S (length (buffer w)))%nat /\
              (count is_PayloadGenerated w' <= S (count is_PayloadGenerated w))%nat).
Proof.
  intros Ha Hrep. cbv zeta.
  destruct (OBSERVABILITY_ACTIVE (settings w)) eqn:Hact.
  2:{ left. unfold ApiCall_report. cbn [api_calls settings emit].
      rewrite Ha, Hrep, Hact. repeat split. }
  destruct (negb (OBSERVABILITY_REPORT_ALL_API_CALLS (settings w))
            && is_None (HttpRequest.app (ApiCall.request a))) eqn:Hskip.
  { left. unfold ApiCall_report. cbn [api_calls settings emit].
    rewrite Ha, Hrep, Hact, Hskip. repeat split. }
  destruct (ApiCall.response a) as [response |] eqn:Hresp.
  2:{ left. unfold ApiCall_report. cbn [api_calls settings emit].
      rewrite Ha, Hrep, Hact, Hskip, Hresp. repeat split. }
  right.
  assert (Happ : OBSERVABILITY_REPORT_ALL_API_CALLS (settings w) = true
                 \/ is_None (HttpRequest.app (ApiCall.request a)) = false).
  { destruct (OBSERVABILITY_REPORT_ALL_API_CALLS (settings w)); [left; reflexivity |].
    right. exact Hskip. }
  destruct (ApiCall_report_finalize self a response w Ha Hrep Hresp Hact Happ)
    as (Hapi & _ & _ & _ & Hpg & Hbuf).
  eexists. split; [rewrite Hapi; apply lookup_insert_eq |].
  split; [reflexivity |]. split.
  - rewrite Hbuf, length_app.
    destruct (fst (active_webhooks_exists CACHE_TIMEOUT w) && buffer_available w);
      [destruct (generate_api_call_payload _ _ _ _ _) |]; cbn; lia.
  - rewrite Hpg. destruct (fst (active_webhooks_exists CACHE_TIMEOUT w)); lia.
Qed.

Lemma run_reports_only (self : nat) (actions : list action) :
  Forall (reports_only self) actions ->
  forall (w : World) (a : ApiCall.t),
    api_calls w !! self = Some a ->
    if ApiCall._reported a
    then buffer (run actions w) = buffer w /\
         count is_PayloadGenerated (run actions w) = count is_PayloadGenerated w
    else (length (buffer (run actions w)) <= S (length (buffer w)))%nat /\
         (count is_PayloadGenerated (run actions w)
          <= S (count is_PayloadGenerated w))%nat.
Proof.
  induction 1 as [| x actions Hx _ IH]; intros w a Ha.
  - cbn. destruct (ApiCall._reported a); split; auto.
  - change (run (x :: actions) w) with (run actions (step x w)).
    assert (Henv : api_calls (step x w) = api_calls w ->
                   buffer (step x w) = buffer w ->
                   count is_PayloadGenerated (step x w) = count is_PayloadGenerated w ->
                   if ApiCall._reported a
                   then buffer (run actions (step x w)) = buffer w /\
                        count is_PayloadGenerated (run actions (step x w))
                        = count is_PayloadGenerated w
                   else (length (buffer (run actions (step x w)))
                         <= S (length (buffer w)))%nat /\
                        (count is_PayloadGenerated (run actions (step x w))
                         <= S (count is_PayloadGenerated w))%nat).
    { intros Hapi Hbuf Hpg. specialize (IH (step x w) a).
      rewrite Hapi, Hbuf, Hpg in IH. apply IH, Ha. }
    destruct x as [self' | attempt next_retry | s | seconds | | webhooks |];
      cbn [reports_only] in Hx; try contradiction;
      try (apply Henv; reflexivity).
    subst self'. cbn [step] in *.
    destruct (ApiCall._reported a) eqn:Hrep.
    + rewrite (ApiCall_report_reported self a w Ha Hrep) in *.
      apply Henv; reflexivity.
    + destruct (ApiCall_report_unreported self a w Ha Hrep)
        as [(Hapi & Hbuf & Hpg) | (a' & Ha' & Hrep' & Hlen & Hcnt)].
      * apply Henv; assumption.
      * specialize (IH (ApiCall_report self w) a' Ha'). rewrite Hrep' in IH.
        destruct IH as [-> ->]. split; assumption.
Qed.

(** X17.  However often [report] is called on an accumulator, and whatever
    happens to the clock, the registry and the caches between the calls, at
    most one payload is built for it and at most one event reaches the
    buffer. *)
Theorem report_at_most_once (self : nat) (a : ApiCall.t)
    (actions : list action) (w : World) :
  api_calls w !! self = Some a ->
  Forall (reports_only self) actions ->
  (length (buffer (run actions w)) <= S (length (buffer w)))%nat /\
  (count is_PayloadGenerated (run actions w)
   <= S (count is_PayloadGenerated w))%nat.
Proof.
  intros Ha Hacts. pose proof (run_reports_only self actions Hacts w a Ha) as H.
  destruct (ApiCall._reported a); [| exact H].
  destruct H as [-> ->]. split; lia.
Qed.

End ReportAtMostOnce.

Lemma report_at_most_once_witness :
  let w :=
    set_api_calls
      (<[0%nat := ApiCall.mk [] (Some sample_response) false sample_request]> ∅)
      warm_world in
  let actions :=
    [ call_report 0; tick 200; clear_gate_cache; call_report 0;
      shared_cache_expires; call_report 0 ] in
  (length (buffer (run (C := plain_collaborators) actions w))
   <= S (length (buffer w)))%nat /\
  (count is_PayloadGenerated (run (C := plain_collaborators) actions w)
   <= S (count is_PayloadGenerated w))%nat.
Proof.
  apply (report_at_most_once (C := plain_collaborators) 0
           (ApiCall.mk [] (Some sample_response) false sample_request)).
  - reflexivity.
  - repeat constructor.
Defined.

Section DeliveryAttemptReport.
Context {C : Collaborators}.

(** X18.  What [report_event_delivery_attempt] does to the buffer, in every
    case: with observability on, the gate open and the buffer reachable it
    appends the payload of the attempt when the builder returns one;
    otherwise, and whenever the builder raises, the buffer is left as it
    was. *)
Theorem report_event_delivery_attempt_buffer (attempt : EventDeliveryAttempt.t)
    (next_retry : option pystr) (w : World) :
  buffer (report_event_delivery_attempt attempt next_retry w)
  = if OBSERVABILITY_ACTIVE (settings w)
       && fst (active_webhooks_exists CACHE_TIMEOUT w)
       && buffer_available w
    then match generate_event_delivery_attempt_payload attempt next_retry
                 (OBSERVABILITY_MAX_PAYLOAD_SIZE (settings w)) with
         | Ok payload => buffer w ++ [payload]
         | Raise _ => buffer w
         end
    else buffer w.
Proof.
  unfold report_event_delivery_attempt.
  destruct (OBSERVABILITY_ACTIVE (settings w)); [| reflexivity]. cbn [negb andb].
  set (w1 := match EventDeliveryAttempt.delivery attempt with
             | Some _ => w
             | None => logger_error _ w
             end).
  assert (Hg : active_webhooks_exists CACHE_TIMEOUT w1
               = (fst (active_webhooks_exists CACHE_TIMEOUT w),
                  match EventDeliveryAttempt.delivery attempt with
                  | Some _ => snd (active_webhooks_exists CACHE_TIMEOUT w)
                  | None =>
                      logger_error
                        (NotAssignedToDeliveryDropped (EventDeliveryAttempt.pk attempt))
                        (snd (active_webhooks_exists CACHE_TIMEOUT w))
                  end)).
  { subst w1. destruct (EventDeliveryAttempt.delivery attempt).
    - destruct (active_webhooks_exists CACHE_TIMEOUT w); reflexivity.
    - unfold logger_error. apply active_webhooks_exists_emit. }
  rewrite Hg. clear Hg w1.
  pose proof (active_webhooks_exists_frame CACHE_TIMEOUT w) as Hf. cbv zeta in Hf.
  destruct (active_webhooks_exists CACHE_TIMEOUT w) as [b w2]. cbn [fst snd] in *.
  destruct Hf as (Hs & _ & _ & _ & _ & Hav & Hb & _).
  assert (Hfacts : forall w3,
            w3 = match EventDeliveryAttempt.delivery attempt with
                 | Some _ => w2
                 | None =>
                     logger_error
                       (NotAssignedToDeliveryDropped (EventDeliveryAttempt.pk attempt))
                       w2
                 end ->
            settings w3 = settings w /\ buffer_available w3 = buffer_available w
            /\ buffer w3 = buffer w).
  { intros w3 ->. destruct (EventDeliveryAttempt.delivery attempt); cbn; auto. }
  set (w3 := match EventDeliveryAttempt.delivery attempt with
             | Some _ => w2
             | None => logger_error _ w2
             end) in *.
  destruct (Hfacts w3 eq_refl) as (Hs3 & Hav3 & Hb3). clearbody w3.
  destruct b; cbn [andb]; [| destruct (buffer_available w); exact Hb3].
  unfold put_to_buffer. cbn [settings emit]. rewrite Hs3.
  destruct (generate_event_delivery_attempt_payload _ _ _) as [payload | e];
    cbn [buffer_available emit]; rewrite ?Hav3;
    destruct (buffer_available w); cbn; rewrite ?Hb3; reflexivity.
Qed.

End DeliveryAttemptReport.

Section AppOnly.
Context {C : Collaborators}.

(** X19.  When only API calls of apps are reported, a view serving a request
    that carries no app pushes nothing and leaves both caches alone, whatever
    operations it ran and whether or not any webhook is registered. *)
Theorem report_view_skips_request_without_app
    (request : HttpRequest.t) (response : HttpResponse.t)
    (fs : list (GraphQLOperationResponse -> GraphQLOperationResponse))
    (w : World) :
  _context_api_call w = None -> _context_gql_operation w = None ->
  OBSERVABILITY_REPORT_ALL_API_CALLS (settings w) = false ->
  HttpRequest.app request = None ->
  let w' := fst (exec (report_view request (map operation_scope fs) response) w) in
  buffer w' = buffer w /\
  cache_webhooks w' = cache_webhooks w /\
  _active_webhooks_exists_cache w' = _active_webhooks_exists_cache w.
Proof.
  intros Hc Hg Hall Happ. cbv zeta. unfold report_view.
  rewrite exec_with_report_api_call, (report_api_call_enter_root request w Hc).
  cbn [fst snd].
  set (r := next_ref w).
  set (w1 := emit (Yielded true r true) _).
  assert (He1 : same_environment w w1) by (subst w1; repeat split).
  assert (Ha1 : api_calls w1 !! r = Some (ApiCall.init request))
    by (subst w1; cbn; apply lookup_insert_eq).
  destruct (exec_operation_scopes fs w1 r (ApiCall.init request))
    as (w2 & Hx2 & He2 & Hc2 & Hg2 & refs & Ha2 & _);
    [exact Hg | reflexivity | exact Ha1 | constructor |].
  rewrite exec_block_app, Hx2. cbn [exec_block exec fst].
  cbn [ApiCall.init ApiCall.gql_operations ApiCall.response ApiCall._reported
         ApiCall.request app] in Ha2.
  unfold attach_response. rewrite Hc2, Ha2.
  cbn [ApiCall.gql_operations ApiCall._reported ApiCall.request].
  set (a3 := ApiCall.mk refs (Some response) false request).
  set (w3 := set_api_calls (<[r := a3]> (api_calls w2)) w2).
  assert (He3 : same_environment w w3).
  { eapply same_environment_trans; [exact He1 |].
    eapply same_environment_trans; [exact He2 |]. subst w3. repeat split. }
  unfold report_api_call_exit.
  change (_context_api_call w3) with (_context_api_call w2). rewrite Hc2.
  assert (Hrep : ApiCall_report r w3 = emit (ReportCalled r) w3).
  { unfold ApiCall_report. cbn [api_calls settings emit].
    assert (Hl : api_calls w3 !! r = Some a3) by (subst w3; cbn; apply lookup_insert_eq).
    rewrite Hl. destruct He3 as (-> & _). rewrite Hall.
    subst a3. cbn [ApiCall._reported ApiCall.request]. rewrite Happ.
    destruct (OBSERVABILITY_ACTIVE (settings w)); reflexivity. }
  rewrite Hrep.
  destruct He3 as (_ & _ & _ & _ & _ & _ & _ & Hcw & Hgc & Hb).
  cbn. repeat split; assumption.
Qed.

End AppOnly.

Lemma report_view_skips_request_without_app_witness :
  let request :=
    HttpRequest.mk (Some (str "POST")) (str "http://testserver/graphql") None []
      None in
  let w' :=
    fst (exec (C := plain_collaborators)
           (report_view request (map operation_scope [fun _ => sample_operation])
              sample_response)
           warm_world) in
  buffer w' = buffer warm_world /\
  cache_webhooks w' = cache_webhooks warm_world /\
  _active_webhooks_exists_cache w' = _active_webhooks_exists_cache warm_world.
Proof.
  apply (report_view_skips_request_without_app (C := plain_collaborators));
    reflexivity.
Defined.

(** ** The texts of a delivery-attempt document *)

Lemma camel_value_leaf (v : json) : is_leaf v = true -> camel_value v = Ok v.
Proof. destruct v; try discriminate; reflexivity. Qed.

(** Camel-casing the data of a delivery attempt keeps the three texts where
    they are. *)
Lemma camel_attempt_data (ea rqh rsh sc sq ap document : json)
    (cl pl : Z) (sync : bool) (ed_id ed_status ed_type wh_id wh_name wh_url : pystr)
    (t1 t3 : JsonTruncText) :
  is_leaf sc = true -> is_leaf sq = true ->
  payload_to_camel_case
    (JDict [
      (str "event_type", JStr (str "observability_event_delivery_attempt"));
      (str "event_delivery_attempt", ea);
      (str "request", JDict [ (str "headers", rqh) ]);
      (str "response", JDict [
         (str "headers", rsh);
         (str "content_length", JInt cl);
         (str "body", JTrunc t1);
         (str "status_code", sc) ]);
      (str "event_delivery", JDict [
         (str "id", JStr ed_id);
         (str "status", JStr ed_status);
         (str "event_type", JStr ed_type);
         (str "event_sync", JBool sync);
         (str "payload", JDict [
            (str "content_length", JInt pl);
            (str "body", JTrunc t3) ]) ]);
      (str "webhook", JDict [
         (str "id", JStr wh_id);
         (str "name", JStr wh_name);
         (str "target_url", JStr wh_url);
         (str "subscription_query", sq) ]);
      (str "app", ap) ]) = Ok document ->
  get_item (get_item document (str "response")) (str "body") = JTrunc t1 /\
  get_item (get_item document (str "webhook")) (str "subscriptionQuery") = sq /\
  get_item (get_item (get_item document (str "eventDelivery")) (str "payload"))
    (str "body") = JTrunc t3.
Proof.
  intros Hsc Hsq.
  repeat (rewrite payload_to_camel_case_dict; cbn [camel_items camel_value bind]).
  rewrite (camel_value_leaf sc Hsc), (camel_value_leaf sq Hsq).
  destruct (camel_value ea) as [ea' |]; [| discriminate].
  destruct (camel_value rqh) as [rqh' |]; [| discriminate].
  destruct (camel_value rsh) as [rsh' |]; [| discriminate].
  destruct (camel_value ap) as [ap' |]; [| discriminate].
  cbn [bind]. intros [= <-].
  norm_keys. cbn [dict_set pystr_eqb N.eqb Pos.eqb andb].
  cbn [get_item dict_get default from_option id pystr_eqb N.eqb Pos.eqb andb].
  repeat split; reflexivity.
Qed.

Section DeliveryAttemptTexts.
Context {C : Collaborators}.

(** X20.  In every document built for a delivery attempt, the response body
    is the text of the response truncated to a third of the bytes left after
    the fixed data, the payload body is a truncated text as well, and the
    byte sizes of the response body, the subscription query and the payload
    body together are at most twice the bytes that were left. *)
Theorem generate_event_delivery_attempt_document_texts
    (attempt : EventDeliveryAttempt.t) (delivery : EventDelivery.t)
    (payload : EventPayload.t) (webhook : Webhook.t) (next_retry : option pystr)
    (bytes_limit : Z) (data document : json) :
  EventDeliveryAttempt.delivery attempt = Some delivery ->
  EventDelivery.payload delivery = Some payload ->
  EventDelivery.webhook delivery = Some webhook ->
  event_delivery_attempt_data attempt delivery payload webhook next_retry = Ok data ->
  generate_event_delivery_attempt_document attempt next_retry bytes_limit
    = Ok document ->
  let remaining := bytes_limit - len (_json_serialize data false) in
  let body := get_item (get_item document (str "response")) (str "body") in
  let subscription_query :=
    get_item (get_item document (str "webhook")) (str "subscriptionQuery") in
  let event_body :=
    get_item (get_item (get_item document (str "eventDelivery")) (str "payload"))
      (str "body") in
  0 <= remaining /\
  body = JTrunc (truncate (str_or (EventDeliveryAttempt.response attempt) [])
                   (remaining / 3)) /\
  (exists t, event_body = JTrunc t) /\
  trunc_size body + trunc_size subscription_query + trunc_size event_body
    <= 2 * remaining.
Proof.
  intros Hd Hp Hw Hdata Hdoc. cbv zeta.
  unfold generate_event_delivery_attempt_document in Hdoc.
  rewrite Hd, Hp, Hw, Hdata in Hdoc. cbn [bind] in Hdoc.
  set (remaining := bytes_limit - len (_json_serialize data false)) in *.
  destruct (Z.ltb_spec remaining 0) as [| Hfit]; [discriminate |].
  split; [exact Hfit |].
  unfold event_delivery_attempt_data in Hdata.
  destruct (json_loads (str_or (EventDeliveryAttempt.request_headers attempt) _))
    as [request_headers |]; [| discriminate].
  destruct (json_loads (str_or (EventDeliveryAttempt.response_headers attempt) _))
    as [response_headers |]; [| discriminate].
  destruct (utf8_len _) as [content_length |]; [| discriminate].
  cbn [bind] in Hdata. injection Hdata as Hdata.
  clearbody remaining. subst data.
  set (t1 := truncate (str_or (EventDeliveryAttempt.response attempt) [])
               (remaining / 3)) in *.
  assert (Hsc : is_leaf (json_of_option JInt
                           (EventDeliveryAttempt.response_status_code attempt)) = true)
    by (destruct (EventDeliveryAttempt.response_status_code attempt); reflexivity).
  pose proof (byte_size_truncate_bound
                (str_or (EventDeliveryAttempt.response attempt) []) (remaining / 3)) as B1.
  pose proof (byte_size_truncate_nonneg
                (str_or (EventDeliveryAttempt.response attempt) []) (remaining / 3)) as P1.
  fold t1 in B1, P1.
  set (body := get_item (get_item document (str "response")) (str "body")).
  set (subscription_query :=
         get_item (get_item document (str "webhook")) (str "subscriptionQuery")).
  set (event_body :=
         get_item (get_item (get_item document (str "eventDelivery")) (str "payload"))
           (str "body")).
  revert Hdoc.
  destruct (Webhook.subscription_query webhook) as [[| c q] |];
    (destruct (json_loads (EventPayload.payload payload)) as [loaded |];
     [| discriminate]);
    norm_str;
    cbn [bind set_path set_item get_item dict_set dict_get default from_option id
           pystr_eqb N.eqb Pos.eqb andb];
    intros Hdoc;
    apply camel_attempt_data in Hdoc; try reflexivity; try exact Hsc;
    destruct Hdoc as (H1 & H2 & H3);
    subst body subscription_query event_body; rewrite H1, H2, H3;
    (split; [reflexivity |]); (split; [eauto |]);
    cbn [trunc_size];
    repeat match goal with
           | |- context [byte_size (truncate ?s ?l)] =>
               let H := fresh "B" in
               let H' := fresh "P" in
               pose proof (byte_size_truncate_bound s l) as H;
               pose proof (byte_size_truncate_nonneg s l) as H';
               generalize dependent (byte_size (truncate s l));
               intros
           end;
    generalize dependent (byte_size t1); intros;
    Z.div_mod_to_equations; lia.
Qed.

End DeliveryAttemptTexts.

Lemma generate_event_delivery_attempt_document_texts_witness :
  exists data document,
    event_delivery_attempt_data (C := plain_collaborators) sample_attempt
      sample_delivery (EventPayload.mk (str "[]")) sample_webhook None = Ok data /\
    generate_event_delivery_attempt_document (C := plain_collaborators)
      sample_attempt None 2000 = Ok document /\
    let remaining := 2000 - len (_json_serialize data false) in
    let body := get_item (get_item document (str "response")) (str "body") in
    let subscription_query :=
      get_item (get_item document (str "webhook")) (str "subscriptionQuery") in
    let event_body :=
      get_item (get_item (get_item document (str "eventDelivery")) (str "payload"))
        (str "body") in
    0 <= remaining /\
    body = JTrunc (truncate (str_or (EventDeliveryAttempt.response sample_attempt) [])
                     (remaining / 3)) /\
    (exists t, event_body = JTrunc t) /\
    trunc_size body + trunc_size subscription_query + trunc_size event_body
      <= 2 * remaining.
Proof.
  eexists _, _. split; [vm_compute; reflexivity |].
  split; [vm_compute; reflexivity |].
  apply (generate_event_delivery_attempt_document_texts (C := plain_collaborators)
           sample_attempt sample_delivery (EventPayload.mk (str "[]"))
           sample_webhook None 2000);
    first [reflexivity | vm_compute; reflexivity].
Defined.
